(** * Used-vehicle listing aggregator: extraction, normalisation, merge

    A shallow embedding of [scraper_updated.py] and the properties of its
    pipeline: field parsers, structured-data search, record coercion, URL
    normalisation and deduplication, detail-page enrichment, and the
    orchestrator with its year filter and final sort.

    Conventions of the model:
    - Python [str] values are Rocq strings read as sequences of code
      points up to U+00FF; on that range the character classes are the ones
      CPython uses ([str.isspace], the [re] classes for [str] patterns,
      [str.lower]).  Code points above U+00FF are outside the model.
    - [urlsplit], [urlunsplit] and [urljoin] are embedded from
      [urllib.parse] of CPython 3.11.  The validation of a bracketed host,
      which goes through the [ipaddress] module, is a parameter.
    - Code that may raise returns a [result]; what the browser does
      (navigation, text reads, closing a page) is an input of the model, and
      so are the rows a scraper gathers from a page.
    - A row is a record of the eight keys every row has; [price] and
      [miles] hold an int or [None] ([True] and [False] being the ints 1
      and 0), the other fields hold any Python value.
    - What a results page shows to a scraper (its cards, the texts and
      attributes read from them, the rounds of a scroll) is an input as
      well, and so is what [_json_candidates_from_html] finds in the
      content of a page: its two patterns and [json.loads] are not
      embedded. *)

From Stdlib Require Import ZArith NArith Ascii String List Bool Lia Sorted Permutation.
From Stdlib Require Import PrimFloat SpecFloat FloatOps.
From Stdlib Require Import DecimalString DecimalPos DecimalN.
From Stdlib Require QArith Qpower.
From stdpp Require Import gmap strings list.

Local Open Scope string_scope.
Local Open Scope Z_scope.

Set Warnings "-register-all,-clear-no-such-hyp".

(** ** Characters *)

Definition code (c : ascii) : N := N_of_ascii c.

Definition in_range (lo hi : N) (c : ascii) : bool :=
  ((lo <=? code c) && (code c <=? hi))%N.

Definition is_char (a c : ascii) : bool := Ascii.eqb a c.

(** [str.isspace] (also [\s] of [re], and what [str.strip()] removes). *)
Definition py_isspace (c : ascii) : bool :=
  in_range 9 13 c || in_range 28 32 c || (code c =? 133)%N || (code c =? 160)%N.

(** [\d] of [re]: the decimal digits; below U+0100 these are 0-9. *)
Definition is_digit (c : ascii) : bool := in_range 48 57 c.

Definition is_ascii_alpha (c : ascii) : bool :=
  in_range 65 90 c || in_range 97 122 c.

(** [\w] of [re]: alphanumeric ([str.isalnum]) or underscore. *)
Definition is_word (c : ascii) : bool :=
  is_ascii_alpha c || is_digit c || is_char "_" c
  || (code c =? 170)%N || in_range 178 179 c || (code c =? 181)%N
  || in_range 185 186 c || in_range 188 190 c
  || in_range 192 214 c || in_range 216 246 c || in_range 248 255 c.

(** [str.lower] on one code point. *)
Definition py_lower_char (c : ascii) : ascii :=
  if in_range 65 90 c || (in_range 192 222 c && negb (code c =? 215)%N)
  then ascii_of_N (code c + 32) else c.

(** ** Strings *)

Fixpoint map_string (f : ascii -> ascii) (s : string) : string :=
  match s with
  | EmptyString => EmptyString
  | String c s' => String (f c) (map_string f s')
  end.

Fixpoint filter_string (p : ascii -> bool) (s : string) : string :=
  match s with
  | EmptyString => EmptyString
  | String c s' => if p c then String c (filter_string p s') else filter_string p s'
  end.

Fixpoint forallb_string (p : ascii -> bool) (s : string) : bool :=
  match s with
  | EmptyString => true
  | String c s' => p c && forallb_string p s'
  end.

Fixpoint existsb_string (p : ascii -> bool) (s : string) : bool :=
  match s with
  | EmptyString => false
  | String c s' => p c || existsb_string p s'
  end.

Definition py_lower (s : string) : string := map_string py_lower_char s.

(** [s.replace(c, d)] for single characters. *)
Definition replace_char (c d : ascii) (s : string) : string :=
  map_string (fun x => if is_char c x then d else x) s.

(** [s.replace(c, "")]. *)
Definition remove_char (c : ascii) (s : string) : string :=
  filter_string (fun x => negb (is_char c x)) s.

Fixpoint lstrip_with (p : ascii -> bool) (s : string) : string :=
  match s with
  | EmptyString => EmptyString
  | String c s' => if p c then lstrip_with p s' else s
  end.

Fixpoint rstrip_with (p : ascii -> bool) (s : string) : string :=
  match s with
  | EmptyString => EmptyString
  | String c s' =>
      match rstrip_with p s' with
      | EmptyString => if p c then EmptyString else String c EmptyString
      | t => String c t
      end
  end.

(** [s.strip()]. *)
Definition py_strip (s : string) : string :=
  rstrip_with py_isspace (lstrip_with py_isspace s).

(** [bool(s)] *)
Definition truthy_str (s : string) : bool :=
  match s with EmptyString => false | _ => true end.

(** [s.startswith(pre)]. *)
Fixpoint startswith (pre s : string) : bool :=
  match pre, s with
  | EmptyString, _ => true
  | String a pre', String b s' => is_char a b && startswith pre' s'
  | String _ _, EmptyString => false
  end.

(** The part of [s] before the first character satisfying [p], and the
    rest, which starts at that character (or is empty). *)
Fixpoint break_at (p : ascii -> bool) (s : string) : string * string :=
  match s with
  | EmptyString => (EmptyString, EmptyString)
  | String c s' =>
      if p c then (EmptyString, s)
      else let '(a, b) := break_at p s' in (String c a, b)
  end.

(** [s[n:]]. *)
Fixpoint drop_string (n : nat) (s : string) : string :=
  match n, s with
  | O, _ => s
  | S n', String _ s' => drop_string n' s'
  | S _, EmptyString => EmptyString
  end.

(** [needle in s] for strings. *)
Fixpoint contains (needle s : string) : bool :=
  startswith needle s ||
  match s with
  | EmptyString => false
  | String _ s' => contains needle s'
  end.

(** [s.split(c)]: never empty. *)
Fixpoint split_on (c : ascii) (s : string) : list string :=
  match s with
  | EmptyString => [EmptyString]
  | String x s' =>
      if is_char c x then EmptyString :: split_on c s'
      else match split_on c s' with
           | [] => [String x EmptyString]
           | w :: ws => String x w :: ws
           end
  end.

(** [c.join(parts)]. *)
Fixpoint join_with (c : ascii) (parts : list string) : string :=
  match parts with
  | [] => EmptyString
  | [w] => w
  | w :: ws => w +:+ String c (join_with c ws)
  end.

(** ** Results of code that may raise *)

Inductive exn : Type :=
  | TypeError | ValueError | AttributeError | BrowserError.

Inductive result (A : Type) : Type :=
  | Ok (a : A)
  | Raise (e : exn).
Arguments Ok {A} a.
Arguments Raise {A} e.

Definition bind {A B} (r : result A) (f : A -> result B) : result B :=
  match r with
  | Ok a => f a
  | Raise e => Raise e
  end.

Notation "'let*' x ':=' r 'in' k" := (bind r (fun x => k))
  (at level 10, x name, r at level 100, k at level 200).

(** ** Python values

    What [json.loads] produces, and what the fields of a row hold.  A
    dictionary is its items in insertion order; its keys are distinct. *)

Inductive pyval : Type :=
  | VNone
  | VBool (b : bool)
  | VInt (z : Z)
  | VFloat (f : float)
  | VStr (s : string)
  | VList (l : list pyval)
  | VDict (d : list (string * pyval)).

Definition pydict : Type := list (string * pyval).

Definition float_is_zero (f : float) : bool :=
  match Prim2SF f with
  | S754_zero _ => true
  | _ => false
  end.

(** [f == n] for a float and an int: Python compares the exact values. *)
Definition float_eq_int (f : float) (n : Z) : bool :=
  match Prim2SF f with
  | S754_zero _ => n =? 0
  | S754_finite s m e =>
      let v := if s then Z.neg m else Z.pos m in
      if 0 <=? e then v * 2 ^ e =? n else v =? n * 2 ^ (- e)
  | _ => false
  end.

(** [bool(v)] *)
Definition truthy (v : pyval) : bool :=
  match v with
  | VNone => false
  | VBool b => b
  | VInt z => negb (z =? 0)
  | VFloat f => negb (float_is_zero f)
  | VStr s => truthy_str s
  | VList l => match l with [] => false | _ => true end
  | VDict d => match d with [] => false | _ => true end
  end.

(** [a or b] *)
Definition py_or (a b : pyval) : pyval := if truthy a then a else b.

(** [v == n] for an int [n] ([bool] is a subclass of [int]). *)
Definition py_eq_int (v : pyval) (n : Z) : bool :=
  match v with
  | VInt z => z =? n
  | VBool b => Z.b2z b =? n
  | VFloat f => float_eq_int f n
  | _ => false
  end.

(** [d.get(k)] *)
Fixpoint dict_get (k : string) (d : pydict) : pyval :=
  match d with
  | [] => VNone
  | (k', v) :: d' => if String.eqb k k' then v else dict_get k d'
  end.

(** Optional ints as Python values, and back: [x if isinstance(x, int)
    else None].  [True] and [False] are the ints 1 and 0. *)
Definition of_opt_int (o : option Z) : pyval :=
  match o with Some z => VInt z | None => VNone end.

Definition int_or_none (v : pyval) : option Z :=
  match v with
  | VInt z => Some z
  | VBool b => Some (Z.b2z b)
  | _ => None
  end.

Definition truthy_int (o : option Z) : bool :=
  match o with Some z => negb (z =? 0) | None => false end.

(** [a or b] on optional ints. *)
Definition opt_or (a b : option Z) : option Z := if truthy_int a then a else b.

(** ** A backtracking matcher for the three patterns

    [re.search] semantics: leftmost match, greedy repetition with
    backtracking, one capturing group. *)

Inductive regex : Type :=
  | REps
  | RChar (p : ascii -> bool)
  | RSeq (r1 r2 : regex)
  | RAlt (r1 r2 : regex)
  | RRep (p : ascii -> bool) (lo : nat) (hi : option nat)
  | RGroup (r : regex)
  | RWordB.

Record mstate : Type := MState {
  ms_prev : option ascii;
  ms_rest : string;
  ms_group : option string }.

Definition consumed (s rest : string) : string :=
  substring 0 (String.length s - String.length rest) s.

Section Matcher.
Context {R : Type}.

Fixpoint rep_greedy (p : ascii -> bool) (lo : nat) (hi : option nat)
    (prev : option ascii) (s : string)
    (k : option ascii -> string -> option R) : option R :=
  let stop := match lo with O => k prev s | S _ => None end in
  match hi with
  | Some O => stop
  | _ =>
      match s with
      | String c s' =>
          if p c then
            match rep_greedy p (Nat.pred lo) (option_map Nat.pred hi) (Some c) s' k with
            | Some r => Some r
            | None => stop
            end
          else stop
      | EmptyString => stop
      end
  end.

Definition word_at (c : option ascii) : bool :=
  match c with Some x => is_word x | None => false end.

Definition next_char (s : string) : option ascii :=
  match s with String c _ => Some c | EmptyString => None end.

Fixpoint rmatch (r : regex) (st : mstate) (k : mstate -> option R) : option R :=
  match r with
  | REps => k st
  | RChar p =>
      match ms_rest st with
      | String c s' =>
          if p c then k (MState (Some c) s' (ms_group st)) else None
      | EmptyString => None
      end
  | RSeq a b => rmatch a st (fun st' => rmatch b st' k)
  | RAlt a b =>
      match rmatch a st k with
      | Some x => Some x
      | None => rmatch b st k
      end
  | RRep p lo hi =>
      rep_greedy p lo hi (ms_prev st) (ms_rest st)
        (fun prev' s' => k (MState prev' s' (ms_group st)))
  | RGroup a =>
      rmatch a st (fun st' =>
        k (MState (ms_prev st') (ms_rest st')
             (Some (consumed (ms_rest st) (ms_rest st')))))
  | RWordB =>
      if xorb (word_at (ms_prev st)) (word_at (next_char (ms_rest st)))
      then k st else None
  end.

End Matcher.

(** A match: the whole matched text ([group(0)]) and [group(1)]. *)
Definition match_at (r : regex) (prev : option ascii) (s : string)
  : option (string * option string) :=
  rmatch r (MState prev s None)
    (fun st => Some (consumed s (ms_rest st), ms_group st)).

Fixpoint search_from (r : regex) (prev : option ascii) (s : string)
  : option (string * option string) :=
  match match_at r prev s with
  | Some m => Some m
  | None =>
      match s with
      | String c s' => search_from r (Some c) s'
      | EmptyString => None
      end
  end.

Definition re_search (r : regex) (s : string) : option (string * option string) :=
  search_from r None s.

Fixpoint lit (s : string) : regex :=
  match s with
  | EmptyString => REps
  | String c s' => RSeq (RChar (is_char c)) (lit s')
  end.

(** A literal under [re.I]. *)
Fixpoint lit_ci (s : string) : regex :=
  match s with
  | EmptyString => REps
  | String c s' =>
      RSeq (RChar (fun x => is_char (py_lower_char c) (py_lower_char x))) (lit_ci s')
  end.

Definition digit_or_comma (c : ascii) : bool := is_digit c || is_char "," c.

(** [re.compile(r"\$[\s]*([\d,]+)")] *)
Definition _price_re : regex :=
  RSeq (RChar (is_char "$"))
    (RSeq (RRep py_isspace 0 None) (RGroup (RRep digit_or_comma 1 None))).

(** [re.compile(r"([\d,]+)\s*miles?", re.I)] *)
Definition _miles_re : regex :=
  RSeq (RGroup (RRep digit_or_comma 1 None))
    (RSeq (RRep py_isspace 0 None)
       (RSeq (lit_ci "mile")
          (RRep (fun x => is_char "s" (py_lower_char x)) 0 (Some 1%nat)))).

(** [re.compile(r"\b(19|20)\d{2}\b")] *)
Definition _year_re : regex :=
  RSeq RWordB
    (RSeq (RGroup (RAlt (lit "19") (lit "20")))
       (RSeq (RRep is_digit 2 (Some 2%nat)) RWordB)).

(** ** [int(str)] in base 10 *)

Definition digit_val (c : ascii) : Z := Z.of_N (code c) - 48.

Fixpoint int_body (s : string) (acc : Z) (n : nat) (after_digit : bool)
  : option (Z * nat) :=
  match s with
  | EmptyString => if after_digit then Some (acc, n) else None
  | String c s' =>
      if is_digit c then int_body s' (acc * 10 + digit_val c) (S n) true
      else if is_char "_" c then
        if after_digit then int_body s' acc n false else None
      else None
  end.

(** The limit of [sys.get_int_max_str_digits()], 4300 by default. *)
Definition int_max_str_digits : nat := 4300.

(** Whitespace that [int] itself skips around the literal. *)
Definition int_space (c : ascii) : bool :=
  in_range 9 13 c || (code c =? 32)%N || (code c =? 133)%N || (code c =? 160)%N.

(** [int(s)] for a string; [None] stands for [ValueError]. *)
Definition py_int (s : string) : option Z :=
  let s := rstrip_with int_space (lstrip_with int_space s) in
  let '(neg, body) :=
    match s with
    | String c s' =>
        if is_char "-" c then (true, s')
        else if is_char "+" c then (false, s') else (false, s)
    | EmptyString => (false, s)
    end in
  match int_body body 0 0 false with
  | Some (v, n) =>
      if (int_max_str_digits <? n)%nat then None
      else Some (if neg then - v else v)
  | None => None
  end.

(** ** Field parsers (lines 27-49) *)

(** [_to_int]: every exception of [int] is caught. *)
Definition _to_int (s : option string) : option Z :=
  match s with
  | None => None
  | Some s => py_int (py_strip (remove_char "," s))
  end.

(** Non-breaking space, U+00A0. *)
Definition nbsp : ascii := ascii_of_N 160.

Definition group1 (m : string * option string) : option string := snd m.

(** The parsers are annotated [Optional[str]] and called with whatever a
    field holds: the guard [if not text] accepts any value, the method or
    the search that follows needs a string. *)
Definition parse_price (text : pyval) : result (option Z) :=
  if negb (truthy text) then Ok None
  else match text with
       | VStr t =>
           match re_search _price_re (replace_char nbsp " " t) with
           | Some m => Ok (_to_int (group1 m))
           | None => Ok None
           end
       | _ => Raise AttributeError
       end.

Definition parse_miles (text : pyval) : result (option Z) :=
  if negb (truthy text) then Ok None
  else match text with
       | VStr t =>
           match re_search _miles_re (replace_char nbsp " " t) with
           | Some m => Ok (_to_int (group1 m))
           | None => Ok None
           end
       | _ => Raise AttributeError
       end.

(** [int(m.group(0))] could raise [ValueError] as far as the types go. *)
Definition parse_year_from_text (text : pyval) : result (option Z) :=
  if negb (truthy text) then Ok None
  else match text with
       | VStr t =>
           match re_search _year_re t with
           | Some m =>
               match py_int (fst m) with
               | Some y => Ok (Some y)
               | None => Raise ValueError
               end
           | None => Ok None
           end
       | _ => Raise TypeError
       end.

(** An optional string as a Python value. *)
Definition of_opt_str (o : option string) : pyval :=
  match o with Some t => VStr t | None => VNone end.

(** ** [urllib.parse] (CPython 3.11) *)

Definition tab : ascii := ascii_of_N 9.

Definition lf : ascii := ascii_of_N 10.

Definition cr : ascii := ascii_of_N 13.

Definition scheme_chars (c : ascii) : bool :=
  is_ascii_alpha c || is_digit c || is_char "+" c || is_char "-" c || is_char "." c.

(** [_WHATWG_C0_CONTROL_OR_SPACE]: U+0000 to U+0020. *)
Definition c0_or_space (c : ascii) : bool := (code c <=? 32)%N.

(** [for b in _UNSAFE_URL_BYTES_TO_REMOVE: url = url.replace(b, "")] *)
Definition remove_unsafe (s : string) : string :=
  remove_char lf (remove_char cr (remove_char tab s)).

Definition in_list (s : string) (l : list string) : bool :=
  existsb (String.eqb s) l.

Definition uses_relative : list string :=
  [""; "ftp"; "http"; "gopher"; "nntp"; "imap"; "wais"; "file"; "https";
   "shttp"; "mms"; "prospero"; "rtsp"; "rtspu"; "sftp"; "svn"; "svn+ssh";
   "ws"; "wss"].

Definition uses_netloc : list string :=
  [""; "ftp"; "http"; "gopher"; "nntp"; "telnet"; "imap"; "wais"; "file";
   "mms"; "https"; "shttp"; "snews"; "prospero"; "rtsp"; "rtspu"; "rsync";
   "svn"; "svn+ssh"; "sftp"; "nfs"; "git"; "git+ssh"; "ws"; "wss"].

Definition uses_params : list string :=
  [""; "ftp"; "hdl"; "prospero"; "http"; "imap"; "https"; "shttp"; "rtsp";
   "rtspu"; "sip"; "sips"; "mms"; "sftp"; "tel"].

Record SplitResult : Type := mkSplit {
  sr_scheme : string;
  sr_netloc : string;
  sr_path : string;
  sr_query : string;
  sr_fragment : string }.

Definition has_char (c : ascii) (s : string) : bool := existsb_string (is_char c) s.

Definition is_delim (c : ascii) : bool :=
  is_char "/" c || is_char "?" c || is_char "#" c.

(** [url.split(c, 1)] when [c] occurs, [(url, "")] when it does not. *)
Definition split_first (c : ascii) (url : string) : string * string :=
  let '(a, b) := break_at (is_char c) url in (a, drop_string 1 b).

(** The scheme test of [urlsplit]: [i = url.find(':')], [i > 0], an ASCII
    letter first, scheme characters up to the colon. *)
Definition split_scheme (default url : string) : string * string :=
  let '(pre, post) := break_at (is_char ":") url in
  match post, pre with
  | String _ rest, String c0 _ =>
      if is_ascii_alpha c0 && forallb_string scheme_chars pre
      then (py_lower pre, rest) else (default, url)
  | _, _ => (default, url)
  end.

(** [_splitnetloc(url, 2)] *)
Definition _splitnetloc (url : string) : string * string :=
  break_at is_delim (drop_string 2 url).

Section Urllib.

(** [_check_bracketed_netloc] validates a bracketed host with the
    [ipaddress] module; [false] stands for its [ValueError].  The
    development holds for any such validator. *)
Variable _check_bracketed_netloc : string -> bool.

(** [urlsplit(url, scheme)].  [_checknetloc] only rejects a netloc whose
    NFKC form gains one of [/?#@:]; no code point up to U+00FF does that,
    so it never raises here. *)
Definition urlsplit (url scheme : string) : result SplitResult :=
  let url := lstrip_with c0_or_space url in
  let scheme := rstrip_with c0_or_space (lstrip_with c0_or_space scheme) in
  let url := remove_unsafe url in
  let scheme := remove_unsafe scheme in
  let '(scheme, url) := split_scheme scheme url in
  let* located :=
    (if startswith "//" url then
       let '(netloc, rest) := _splitnetloc url in
       if (has_char "[" netloc && negb (has_char "]" netloc))
          || (has_char "]" netloc && negb (has_char "[" netloc))
       then Raise ValueError
       else if has_char "[" netloc && has_char "]" netloc
            && negb (_check_bracketed_netloc netloc)
       then Raise ValueError
       else Ok (netloc, rest)
     else Ok (EmptyString, url)) in
  let '(netloc, url) := located in
  let '(url, fragment) := split_first "#" url in
  let '(url, query) := split_first "?" url in
  Ok (mkSplit scheme netloc url query fragment).

Definition urlunsplit (c : SplitResult) : string :=
  let scheme := sr_scheme c in
  let netloc := sr_netloc c in
  let url := sr_path c in
  let url :=
    if truthy_str netloc
       || (truthy_str scheme && in_list scheme uses_netloc
           && negb (startswith "//" url))
    then
      let url := if truthy_str url && negb (startswith "/" url)
                 then "/" +:+ url else url in
      "//" +:+ netloc +:+ url
    else url in
  let url := if truthy_str scheme then scheme +:+ ":" +:+ url else url in
  let url := if truthy_str (sr_query c) then url +:+ "?" +:+ sr_query c else url in
  let url := if truthy_str (sr_fragment c) then url +:+ "#" +:+ sr_fragment c else url in
  url.

(** The prefix of [s] up to and including its last [/], and the rest. *)
Fixpoint rsplit_slash (s : string) : string * string :=
  match s with
  | EmptyString => (EmptyString, EmptyString)
  | String c s' =>
      let '(a, b) := rsplit_slash s' in
      if truthy_str a then (String c a, b)
      else if is_char "/" c then (String c EmptyString, b)
      else (EmptyString, String c b)
  end.

(** [_splitparams]: the first [;] at or after the last [/]. *)
Definition _splitparams (url : string) : string * string :=
  let '(dir, leaf) := rsplit_slash url in
  let '(a, b) := break_at (is_char ";") leaf in
  match b with
  | EmptyString => (url, EmptyString)
  | String _ params => (dir +:+ a, params)
  end.

Record ParseResult : Type := mkParse {
  pr_scheme : string;
  pr_netloc : string;
  pr_path : string;
  pr_params : string;
  pr_query : string;
  pr_fragment : string }.

Definition urlparse (url scheme : string) : result ParseResult :=
  let* sp := urlsplit url scheme in
  let '(url, params) :=
    if in_list (sr_scheme sp) uses_params && has_char ";" (sr_path sp)
    then _splitparams (sr_path sp) else (sr_path sp, EmptyString) in
  Ok (mkParse (sr_scheme sp) (sr_netloc sp) url params (sr_query sp) (sr_fragment sp)).

Definition urlunparse (c : ParseResult) : string :=
  let url := if truthy_str (pr_params c)
             then pr_path c +:+ ";" +:+ pr_params c else pr_path c in
  urlunsplit (mkSplit (pr_scheme c) (pr_netloc c) url (pr_query c) (pr_fragment c)).

(** [segments[1:-1] = filter(None, segments[1:-1])] *)
Definition drop_empty_middle (segments : list string) : list string :=
  match segments with
  | [] => []
  | first :: rest =>
      match reverse rest with
      | [] => [first]
      | last :: rmid => (first :: filter (fun w => w <> EmptyString) (reverse rmid) ++ [last])%list
      end
  end.

(** The loop over [segments] that builds [resolved_path]. *)
Fixpoint resolve_segments (segments resolved : list string) : list string :=
  match segments with
  | [] => resolved
  | seg :: rest =>
      if String.eqb seg ".." then resolve_segments rest (removelast resolved)
      else if String.eqb seg "." then resolve_segments rest resolved
      else resolve_segments rest (resolved ++ [seg])%list
  end.

Definition urljoin (base url : string) : result string :=
  if negb (truthy_str base) then Ok url
  else if negb (truthy_str url) then Ok base
  else
    let* b := urlparse base EmptyString in
    let* u := urlparse url (pr_scheme b) in
    let scheme := pr_scheme u in
    if negb (String.eqb scheme (pr_scheme b)) || negb (in_list scheme uses_relative)
    then Ok url
    else if in_list scheme uses_netloc && truthy_str (pr_netloc u)
    then Ok (urlunparse u)
    else
      let netloc := if in_list scheme uses_netloc then pr_netloc b else pr_netloc u in
      if negb (truthy_str (pr_path u)) && negb (truthy_str (pr_params u))
      then
        let query := if truthy_str (pr_query u) then pr_query u else pr_query b in
        Ok (urlunparse (mkParse scheme netloc (pr_path b) (pr_params b) query
                          (pr_fragment u)))
      else
        let base_parts := split_on "/" (pr_path b) in
        let base_parts :=
          if negb (String.eqb (List.last base_parts EmptyString) EmptyString)
          then removelast base_parts else base_parts in
        let segments :=
          if startswith "/" (pr_path u) then split_on "/" (pr_path u)
          else drop_empty_middle (base_parts ++ split_on "/" (pr_path u))%list in
        let resolved := resolve_segments segments [] in
        let resolved :=
          if in_list (List.last segments EmptyString) ["."; ".."]
          then (resolved ++ [EmptyString])%list else resolved in
        let joined := join_with "/" resolved in
        let path := if truthy_str joined then joined else "/" in
        Ok (urlunparse (mkParse scheme netloc path (pr_params u) (pr_query u)
                          (pr_fragment u))).

End Urllib.

(** ** Structured-data search (lines 87-97) *)

Definition KEYS : list string :=
  ["price"; "listPrice"; "primaryPrice"; "mileage"; "miles"; "year"; "make";
   "model"; "title"; "heading"; "vdpUrl"; "url"; "vin"].

Definition lower_set (l : list string) : gset string :=
  list_to_set (map py_lower l).

(** [len({k.lower() for k in d.keys()} & {k.lower() for k in KEYS}) >= 3] *)
Definition looks (d : pydict) : bool :=
  bool_decide (3 <= size (lower_set (map fst d) ∩ lower_set KEYS))%nat.

Fixpoint rec (x : pyval) : list pydict :=
  match x with
  | VDict d =>
      ((if looks d then [d] else []) ++ flat_map (fun kv => rec (snd kv)) d)%list
  | VList l => flat_map rec l
  | _ => []
  end.

Definition _walk_find_listings (obj : pyval) : list pydict := rec obj.

(** ** Listings *)

(** A row: the dictionary with the eight keys every scraper and the
    coercer build.  [price] and [miles] only ever hold an int or [None]:
    the scrapers store results of [parse_price] and [parse_miles], the
    coercer keeps [x if isinstance(x, int) else None]. *)
Record Listing : Type := mkListing {
  l_source : string;
  l_title : pyval;
  l_price : option Z;
  l_miles : option Z;
  l_year : pyval;
  l_location : pyval;
  l_dealer : pyval;
  l_url : pyval }.

Definition set_url (r : Listing) (u : pyval) : Listing :=
  mkListing (l_source r) (l_title r) (l_price r) (l_miles r) (l_year r)
    (l_location r) (l_dealer r) u.

Section Pipeline.

Variable _check_bracketed_netloc : string -> bool.

Abbreviation urlsplit := (urlsplit _check_bracketed_netloc).
Abbreviation urljoin := (urljoin _check_bracketed_netloc).

(** [_abs] (lines 99-106) *)
Definition _abs (base : string) (h : option string) : result (option string) :=
  match h with
  | None => Ok None
  | Some h =>
      if negb (truthy_str h) then Ok None
      else
        let h := py_strip h in
        if startswith "//" h then Ok (Some ("https:" +:+ h))
        else if startswith "http://" h || startswith "https://" h then Ok (Some h)
        else if startswith "www." h then Ok (Some ("https://" +:+ h))
        else if startswith "/" h then
          let* u := urljoin base h in Ok (Some u)
        else
          let* u := urljoin base ("/" +:+ h) in Ok (Some u)
  end.

(** The URL with query and fragment blanked, for a string. *)
Definition normalize_str (u : string) : result string :=
  let* parts := urlsplit u EmptyString in
  Ok (urlunsplit (mkSplit (sr_scheme parts) (sr_netloc parts) (sr_path parts)
                    EmptyString EmptyString)).

(** [_normalize_url] (lines 108-111).  A falsy argument is returned as it
    is; [urlsplit] keeps a cache keyed on its arguments, so a list or a
    dictionary, which cannot be hashed, fails there, and any other value
    that is not a string fails on [.decode]. *)
Definition _normalize_url (u : pyval) : result pyval :=
  if negb (truthy u) then Ok u
  else match u with
       | VStr s => let* n := normalize_str s in Ok (VStr n)
       | VList _ | VDict _ => Raise TypeError
       | _ => Raise AttributeError
       end.

(** [_dedupe_and_trim] (lines 113-121): the loop with its two
    accumulators.  A result of [_normalize_url] that is not a string is
    the falsy argument itself, so it is skipped. *)
Fixpoint dedupe_loop (rows uniq : list Listing) (seen : gset string) (k : Z)
  : result (list Listing) :=
  match rows with
  | [] => Ok uniq
  | r :: rows' =>
      let* u := _normalize_url (l_url r) in
      match u with
      | VStr s =>
          if negb (truthy_str s) then dedupe_loop rows' uniq seen k
          else if bool_decide (s ∈ seen) then dedupe_loop rows' uniq seen k
          else
            let uniq := (uniq ++ [set_url r (VStr s)])%list in
            if Z.of_nat (length uniq) >=? k then Ok uniq
            else dedupe_loop rows' uniq ({[s]} ∪ seen) k
      | _ => dedupe_loop rows' uniq seen k
      end
  end.

Definition _dedupe_and_trim (rows : list Listing) (k : Z) : result (list Listing) :=
  dedupe_loop rows [] ∅ k.

(** [_enforce_year] (lines 123-127) *)
Definition _enforce_year (rows : list Listing) (target_year : Z) : list Listing :=
  List.filter (fun r => py_eq_int (l_year r) target_year) rows.

(** [_coerce_listing] (lines 130-145) *)
Definition _coerce_listing (d : pydict) (source base : string) : result Listing :=
  let title := py_or (dict_get "title" d) (dict_get "heading" d) in
  let price := py_or (py_or (dict_get "price" d) (dict_get "listPrice" d))
                 (dict_get "primaryPrice" d) in
  let miles := py_or (dict_get "miles" d) (dict_get "mileage" d) in
  let url := py_or (py_or (dict_get "url" d) (dict_get "vdpUrl" d))
               (dict_get "link" d) in
  let dealer := py_or (py_or (dict_get "dealerName" d) (dict_get "sellerName" d))
                  (dict_get "storeName" d) in
  let loc := py_or (dict_get "location" d) (dict_get "city" d) in
  let year_val := dict_get "year" d in
  let year_val := match year_val with
                  | VStr s => of_opt_int (_to_int (Some s))
                  | _ => year_val
                  end in
  let* year_val :=
    (if negb (truthy year_val)
     then let* y := parse_year_from_text title in Ok (of_opt_int y)
     else Ok year_val) in
  let* price :=
    (match price with
     | VStr s => let* p := parse_price price in
                 Ok (of_opt_int (opt_or p (_to_int (Some s))))
     | _ => Ok price
     end) in
  let* miles :=
    (match miles with
     | VStr s => let* m := parse_miles miles in
                 Ok (of_opt_int (opt_or m (_to_int (Some s))))
     | _ => Ok miles
     end) in
  let* url :=
    (match url with
     | VStr s =>
         if truthy_str s
         then let* a := _abs base (Some s) in
              Ok (match a with Some a => VStr a | None => VNone end)
         else Ok url
     | _ => Ok url
     end) in
  Ok (mkListing source title (int_or_none price) (int_or_none miles) year_val
        loc dealer url).

End Pipeline.

(** ** Detail-page enrichment (lines 280-322)

    What the browser does during one visit is an input: every awaited call
    either returns or raises. *)

Inductive nav_outcome : Type :=
  | NavOk
  | NavTimeout      (* [PWTimeout], tolerated *)
  | NavFault.

Record vdp_page : Type := mkPage {
  pg_opens : bool;                              (* [context.new_page()] *)
  pg_goto : nav_outcome;                        (* [page.goto(url, ...)] *)
  pg_scrolls : bool;                            (* [_scroll(page, ...)] *)
  pg_content : option string;                   (* [page.content()] *)
  pg_text : string -> option (option string);   (* [locator(sel).first.text_content] *)
  pg_closes : bool }.                           (* [page.close()] *)

(** How a call ended.  The row is a dictionary updated in place, so the
    caller sees its state whichever way the call ends. *)
Inductive outcome : Type :=
  | Returned
  | Raised (e : exn).

(** [needle in v] *)
Definition py_in (needle : string) (v : pyval) : result bool :=
  match v with
  | VStr s => Ok (contains needle s)
  | VList l =>
      Ok (existsb (fun x => match x with
                            | VStr t => String.eqb t needle
                            | _ => false
                            end) l)
  | VDict d => Ok (existsb (fun kv => String.eqb (fst kv) needle) d)
  | _ => Raise TypeError
  end.

Definition update_row (row : Listing) (price miles : option Z) (title year_v : pyval)
  : Listing :=
  mkListing (l_source row) title price miles year_v (l_location row)
    (l_dealer row) (l_url row).

(** The body of the [try] block: the updated row, or the exception. *)
Definition enrich_body (pg : vdp_page) (row : Listing) : result Listing :=
  match pg_goto pg with
  | NavFault => Raise BrowserError
  | _ =>
      if negb (pg_scrolls pg) then Raise BrowserError
      else match pg_content pg with
      | None => Raise BrowserError
      | Some html =>
          let price := l_price row in
          let miles := l_miles row in
          let title := l_title row in
          let year_v := l_year row in
          let* on_cars := py_in "cars.com" (l_url row) in
          let* on_autotrader :=
            (if on_cars then Ok false else py_in "autotrader.com" (l_url row)) in
          let '(sels_price, sels_miles) :=
            if on_cars then
              ("[data-test='vdp-price'], .vehicle-info__price-display, .primary-price",
               "[data-test='mileage'], .mileage, .vehicle-mileage")
            else if on_autotrader then
              ("[data-cmp='stylePrice'], [data-cmp='firstPrice'], [data-cmp='price']",
               "[data-cmp='odometer'], [data-cmp='mileage']")
            else
              ("h1, h2, .price, [class*='price']",
               ".mileage, [class*='mileage']") in
          (* [try: ... except Exception: pass], twice *)
          let price := match pg_text pg sels_price with
                       | Some ptxt =>
                           match parse_price (of_opt_str ptxt) with
                           | Ok p => opt_or price p
                           | Raise _ => price
                           end
                       | None => price
                       end in
          let miles := match pg_text pg sels_miles with
                       | Some mtxt =>
                           match parse_miles (of_opt_str mtxt) with
                           | Ok m => opt_or miles m
                           | Raise _ => miles
                           end
                       | None => miles
                       end in
          let title :=
            if negb (truthy title) then
              match pg_text pg "h1, h2" with
              | Some (Some t) => VStr (py_strip t)
              | _ => title
              end
            else title in
          let* year_v :=
            (if negb (truthy year_v) then
               let* y := parse_year_from_text title in
               if truthy_int y then Ok (of_opt_int y)
               else let* y' := parse_year_from_text (VStr html) in
                    Ok (of_opt_int y')
             else Ok year_v) in
          let* filled :=
            (if negb (truthy_int price) || negb (truthy_int miles) then
               let* p := parse_price (VStr html) in
               let price := opt_or price p in
               let* m := parse_miles (VStr html) in
               Ok (price, opt_or miles m)
             else Ok (price, miles)) in
          let '(price, miles) := filled in
          Ok (update_row row price miles title year_v)
      end
  end.

(** [enrich_vdp]: the row as the call leaves it, and how the call ended.
    [finally: await page.close()] runs after the body either way, and
    raises in its turn when closing fails. *)
Definition enrich_vdp (pg : vdp_page) (row : Listing) : Listing * outcome :=
  if negb (truthy (l_url row)) then (row, Returned)
  else if negb (pg_opens pg) then (row, Raised BrowserError)
  else match enrich_body pg row with
       | Ok row' =>
           (row', if pg_closes pg then Returned else Raised BrowserError)
       | Raise e =>
           (row, Raised (if pg_closes pg then e else BrowserError))
       end.

(** ** Orchestrator (lines 325-392) *)

Definition complete (r : Listing) : bool :=
  truthy_int (l_price r) && truthy_int (l_miles r) && truthy (l_title r)
  && truthy (l_year r).

(** The enrichment loop (lines 375-383); [visit i] is the browser's
    behaviour at the i-th row. *)
Fixpoint enrich_loop (visit : nat -> vdp_page) (i : nat) (out enriched : list Listing)
  : list Listing :=
  match out with
  | [] => enriched
  | r :: out' =>
      if complete r then enrich_loop visit (S i) out' (enriched ++ [r])
      else
        match enrich_vdp (visit i) r with
        | (r', Returned) => enrich_loop visit (S i) out' (enriched ++ [r'])
        | (r', Raised _) =>
            (* [enriched.append(r)]: the same dictionary, as the call left it *)
            enrich_loop visit (S i) out' (enriched ++ [r'])
        end
  end.

Definition big : Z := 10 ^ 9.

(** [key=lambda r: (10**9 if r.get("price") is None else r["price"],
                    r.get("miles") or 10**9)] *)
Definition sort_key (r : Listing) : Z * Z :=
  (match l_price r with None => big | Some p => p end,
   if truthy_int (l_miles r) then default big (l_miles r) else big).

(** Tuple comparison [a <= b]. *)
Definition key_le (a b : Z * Z) : bool :=
  (fst a <? fst b) || ((fst a =? fst b) && (snd a <=? snd b)).

(** [list.sort(key=...)] is stable; so is insertion before the first
    row that does not sort strictly earlier. *)
Fixpoint insert_row (x : Listing) (l : list Listing) : list Listing :=
  match l with
  | [] => [x]
  | y :: l' =>
      if key_le (sort_key x) (sort_key y) then x :: y :: l'
      else y :: insert_row x l'
  end.

Fixpoint sort_rows (l : list Listing) : list Listing :=
  match l with
  | [] => []
  | x :: l' => insert_row x (sort_rows l')
  end.

Section Orchestrator.

Variable _check_bracketed_netloc : string -> bool.

(** The end of both scrapers (lines 204-207 and 274-277), applied to the
  rows gathered from the page; gathering may itself have raised. *)
Definition scraper_finish (rows : result (list Listing)) (year max_results : Z)
: result (list Listing) :=
let* rows := rows in
let rows := _enforce_year rows year in
_dedupe_and_trim _check_bracketed_netloc rows max_results.

Definition scrape_autotrader := scraper_finish.

Definition scrape_cars := scraper_finish.

(** [asyncio.gather] with [return_exceptions=True] and the merge loop:
  a task that raised contributes no rows. *)
Definition merge_results (results : list (result (list Listing))) : list Listing :=
flat_map (fun r => match r with Ok rows => rows | Raise _ => [] end) results.

(** [query_listings_async] once the browser context is up.  [at_rows] and
  [cars_rows] are what the two scrapers gather from their pages. *)
Definition query_listings_async (year max_results_each : Z) (enrich : bool)
  (site : string) (at_rows cars_rows : result (list Listing))
  (visit : nat -> vdp_page) : list Listing :=
let tasks :=
  ((if in_list site ["both"; "autotrader"]
    then [scrape_autotrader at_rows year max_results_each] else []) ++
   (if in_list site ["both"; "cars"]
    then [scrape_cars cars_rows year max_results_each] else []))%list in
let out := merge_results tasks in
let out :=
  if enrich then _enforce_year (enrich_loop visit 0 out []) year else out in
let out := List.filter (fun r => truthy (l_url r)) out in
sort_rows out.

End Orchestrator.

(** ** Reading the DOM (lines 56-75)

    A node answers a read of a text or of an attribute under a selector:
    the call raises ([None]), or it returns a string or [None]. *)

Record dom_node : Type := mkNode {
  nd_text : string -> option (option string);             (* [locator(sel).first.text_content] *)
  nd_attr : string -> string -> option (option string) }. (* [locator(sel).first.get_attribute] *)

(** [_first_text]: every exception of a read is passed over. *)
Fixpoint _first_text (node : dom_node) (selectors : list string) : option string :=
  match selectors with
  | [] => None
  | sel :: selectors' =>
      match nd_text node sel with
      | Some (Some t) =>
          if truthy_str t then Some (py_strip t) else _first_text node selectors'
      | _ => _first_text node selectors'
      end
  end.

Fixpoint _first_attr (node : dom_node) (selectors : list string) (attr : string)
  : option string :=
  match selectors with
  | [] => None
  | sel :: selectors' =>
      match nd_attr node sel attr with
      | Some (Some v) =>
          if truthy_str v then Some v else _first_attr node selectors' attr
      | _ => _first_attr node selectors' attr
      end
  end.

(** ** Scrolling until the page is stable (lines 148-155)

    One round of the loop: [_scroll(page, steps=1, delay=500)] returns or
    raises, then [page.locator(selector).count()] answers or raises. *)

Record scroll_round : Type := mkRound {
  rd_scrolls : bool;
  rd_count : option nat }.

(** [try: n = await page.locator(selector).count() / except Exception: n = 0] *)
Definition round_count (r : scroll_round) : Z :=
  match rd_count r with Some n => Z.of_nat n | None => 0 end.

(** The [while] loop from round [i] on.  The loop has no bound of its own:
    [None] is a run that is still scrolling when the fuel is spent;
    otherwise the number of rounds made, or the exception of a scroll. *)
Fixpoint deep_scroll (fuel : nat) (rounds : nat -> scroll_round) (i : nat)
    (last_n stable max_rounds : Z) {struct fuel} : option (result nat) :=
  if stable <? max_rounds then
    match fuel with
    | O => None
    | S fuel' =>
        if negb (rd_scrolls (rounds i)) then Some (Raise BrowserError)
        else
          let n := round_count (rounds i) in
          if n =? last_n
          then deep_scroll fuel' rounds (S i) last_n (stable + 1) max_rounds
          else deep_scroll fuel' rounds (S i) n 0 max_rounds
    end
  else Some (Ok i).

Definition _autotrader_deep_scroll (rounds : nat -> scroll_round) (max_rounds : Z)
    (fuel : nat) : option (result nat) :=
  deep_scroll fuel rounds 0 (-1) 0 max_rounds.

(** ** The scrapers, from the page to the rows (lines 157-203, 209-272) *)

Definition autotrader_base : string := "https://www.autotrader.com".

Definition cars_base : string := "https://www.cars.com".

(** [t or ""] for an optional string. *)
Definition str_or_empty (o : option string) : pyval := VStr (default EmptyString o).

(** A results page of Autotrader, as the scraper meets it. *)
Record at_page : Type := mkAtPage {
  ap_goto : nav_outcome;                 (* [page.goto(url, ...)] *)
  ap_rounds : nat -> scroll_round;       (* the rounds of the deep scroll *)
  ap_cards : option (list dom_node);     (* [cards.count()] and the cards, [None] when it raises *)
  ap_content : option string }.          (* [page.content()] *)

(** A results page of Cars.com. *)
Record cars_page : Type := mkCarsPage {
  cp_goto : nav_outcome;
  cp_scrolls : bool;                     (* [_scroll(page, 4)] *)
  cp_cards : option (list dom_node);
  cp_content : option string }.

Section Scrapers.

Variable _check_bracketed_netloc : string -> bool.

(** [_json_candidates_from_html] (lines 77-85) finds the embedded scripts
    with two patterns and reads them with [json.loads], passing over every
    exception; it is a parameter here, and so is what it finds. *)
Variable _json_candidates_from_html : string -> list pyval.

Abbreviation _abs := (_abs _check_bracketed_netloc).
Abbreviation _normalize_url := (_normalize_url _check_bracketed_netloc).
Abbreviation _coerce_listing := (_coerce_listing _check_bracketed_netloc).

(** [_abs(base, link) if link else None] *)
Definition abs_if (base : string) (link : option string) : result (option string) :=
  match link with
  | Some l => if truthy_str l then _abs base (Some l) else Ok None
  | None => Ok None
  end.

(** One card of Autotrader (lines 180-189): the row, or the exception
    that ends the [try] block. *)
Definition autotrader_card (c : dom_node) : result Listing :=
  let title := _first_text c ["[data-cmp='subheading']"; "[data-cmp='heading']"] in
  let link := _first_attr c ["a"] "href" in
  let* link := abs_if autotrader_base link in
  let price_t := _first_text c ["[data-cmp='price']"; ".first-price"; ".price"] in
  let miles_t :=
    _first_text c ["[data-cmp='mileage']"; ".mileage"; ".item-card-specifications"] in
  let* year_v := parse_year_from_text (of_opt_str title) in
  let* price := parse_price (str_or_empty price_t) in
  let* miles := parse_miles (str_or_empty miles_t) in
  Ok (mkListing "Autotrader" (of_opt_str title) price miles (of_opt_int year_v)
        VNone VNone (of_opt_str link)).

(** The loop over the cards (lines 179-191); an exception leaves the rows
    gathered so far. *)
Fixpoint autotrader_dom_loop (cards : list dom_node) (rows : list Listing)
    (max_results : Z) : list Listing :=
  match cards with
  | [] => rows
  | c :: cards' =>
      match autotrader_card c with
      | Raise _ => rows
      | Ok r =>
          let rows := (rows ++ [r])%list in
          if Z.of_nat (length rows) >=? max_results then rows
          else autotrader_dom_loop cards' rows max_results
      end
  end.

(** The [try] block (lines 175-193): [range(min(n, max_results*5))]. *)
Definition autotrader_dom_rows (cards : option (list dom_node)) (max_results : Z)
  : list Listing :=
  match cards with
  | None => []
  | Some cs =>
      let n := Z.of_nat (length cs) in
      autotrader_dom_loop (take (Z.to_nat (Z.min n (max_results * 5))) cs) []
        max_results
  end.

(** The fallback loops (lines 198-202). *)
Fixpoint autotrader_json_inner (found : list pydict) (rows : list Listing)
    (max_results : Z) : result (list Listing) :=
  match found with
  | [] => Ok rows
  | c :: found' =>
      let* r := _coerce_listing c "Autotrader" autotrader_base in
      let rows := (rows ++ [r])%list in
      if Z.of_nat (length rows) >=? max_results then Ok rows
      else autotrader_json_inner found' rows max_results
  end.

Fixpoint autotrader_json_outer (objs : list pyval) (rows : list Listing)
    (max_results : Z) : result (list Listing) :=
  match objs with
  | [] => Ok rows
  | obj :: objs' =>
      let* rows := autotrader_json_inner (_walk_find_listings obj) rows max_results in
      if Z.of_nat (length rows) >=? max_results then Ok rows
      else autotrader_json_outer objs' rows max_results
  end.

(** Lines 174-202: the rows before the year filter. *)
Definition autotrader_gather (cards : option (list dom_node)) (content : option string)
    (max_results : Z) : result (list Listing) :=
  let rows := autotrader_dom_rows cards max_results in
  if Z.of_nat (length rows) <? max_results then
    match content with
    | None => Raise BrowserError
    | Some html =>
        autotrader_json_outer (_json_candidates_from_html html) rows max_results
    end
  else Ok rows.

(** [scrape_autotrader] up to the year filter: navigation, the deep
    scroll, the rows.  [None] is a deep scroll that does not end. *)
Definition autotrader_rows (pg : at_page) (max_results scroll_rounds : Z) (fuel : nat)
  : option (result (list Listing)) :=
  match ap_goto pg with
  | NavFault => Some (Raise BrowserError)
  | _ =>
      match _autotrader_deep_scroll (ap_rounds pg) scroll_rounds fuel with
      | None => None
      | Some (Raise e) => Some (Raise e)
      | Some (Ok _) =>
          Some (autotrader_gather (ap_cards pg) (ap_content pg) max_results)
      end
  end.

(** One card of Cars.com up to the test on its URL (lines 242-249): title,
    the two texts, the year and the normalised link. *)
Definition cars_card (c : dom_node)
  : result (option string * option string * option string * option Z * pyval) :=
  let title := _first_text c ["h2.title"; "h2.vehicle-card-title"] in
  let href := _first_attr c ["a.vehicle-card-link"; "a"] "href" in
  let* href := abs_if cars_base href in
  let price_t :=
    _first_text c ["[data-test='vehicleCardPriceAmount']"; ".primary-price"] in
  let miles_t :=
    _first_text c ["[data-test='vehicleMileage']"; ".mileage"; ".vehicle-mileage"] in
  let* year_v := parse_year_from_text (of_opt_str title) in
  let* norm := _normalize_url (of_opt_str href) in
  Ok (title, price_t, miles_t, year_v, norm).

(** The loop over the cards of one page (lines 241-256): the rows and the
    URLs seen when the loop is left, and whether an exception left it. *)
Fixpoint cars_dom_loop (cards : list dom_node) (rows : list Listing)
    (seen_urls : gset string) (max_results : Z)
  : list Listing * gset string * bool :=
  match cards with
  | [] => (rows, seen_urls, false)
  | c :: cards' =>
      match cars_card c with
      | Raise _ => (rows, seen_urls, true)
      | Ok (title, price_t, miles_t, year_v, norm) =>
          match norm with
          | VStr s =>
              if negb (truthy_str s) || bool_decide (s ∈ seen_urls)
              then cars_dom_loop cards' rows seen_urls max_results
              else
                match parse_price (str_or_empty price_t),
                      parse_miles (str_or_empty miles_t) with
                | Ok price, Ok miles =>
                    let seen_urls := {[s]} ∪ seen_urls in
                    let rows :=
                      (rows ++ [mkListing "Cars.com" (of_opt_str title) price miles
                                  (of_opt_int year_v) VNone VNone (VStr s)])%list in
                    if Z.of_nat (length rows) >=? max_results
                    then (rows, seen_urls, false)
                    else cars_dom_loop cards' rows seen_urls max_results
                | _, _ => (rows, {[s]} ∪ seen_urls, true)
                end
          | _ => cars_dom_loop cards' rows seen_urls max_results
          end
      end
  end.

(** The fallback loops of Cars.com (lines 264-272).  The URL of [r] is
    truthy where it is normalised, so the result is a string. *)
Fixpoint cars_json_inner (found : list pydict) (rows : list Listing)
    (seen_urls : gset string) (max_results : Z)
  : result (list Listing * gset string) :=
  match found with
  | [] => Ok (rows, seen_urls)
  | c :: found' =>
      let* r := _coerce_listing c "Cars.com" cars_base in
      if negb (truthy (l_url r)) then cars_json_inner found' rows seen_urls max_results
      else
        let* norm := _normalize_url (l_url r) in
        match norm with
        | VStr s =>
            if bool_decide (s ∈ seen_urls)
            then cars_json_inner found' rows seen_urls max_results
            else
              let seen_urls := {[s]} ∪ seen_urls in
              let rows := (rows ++ [r])%list in
              if Z.of_nat (length rows) >=? max_results then Ok (rows, seen_urls)
              else cars_json_inner found' rows seen_urls max_results
        | _ => cars_json_inner found' rows seen_urls max_results
        end
  end.

Fixpoint cars_json_outer (objs : list pyval) (rows : list Listing)
    (seen_urls : gset string) (max_results : Z)
  : result (list Listing * gset string) :=
  match objs with
  | [] => Ok (rows, seen_urls)
  | obj :: objs' =>
      let* st := cars_json_inner (_walk_find_listings obj) rows seen_urls max_results in
      let '(rows, seen_urls) := st in
      if Z.of_nat (length rows) >=? max_results then Ok (rows, seen_urls)
      else cars_json_outer objs' rows seen_urls max_results
  end.

(** One turn of the loop over the result pages (lines 217-272): the rows,
    the URLs seen, and whether a [break] left the loop over the pages. *)
Definition cars_page_step (pg : cars_page) (page_no : Z) (rows : list Listing)
    (seen_urls : gset string) (max_results : Z)
  : result (list Listing * gset string * bool) :=
  match cp_goto pg with
  | NavFault => Raise BrowserError
  | _ =>
      if negb (cp_scrolls pg) then Raise BrowserError
      else
        let '(rows, seen_urls, ended) :=
          match cp_cards pg with
          | None => (rows, seen_urls, false)
          | Some cards =>
              if (Z.of_nat (length cards) =? 0) && (page_no >? 1)
              then (rows, seen_urls, true)
              else
                let '(rows, seen_urls, raised) :=
                  cars_dom_loop cards rows seen_urls max_results in
                (rows, seen_urls,
                 negb raised && (Z.of_nat (length rows) >=? max_results))
          end in
        if ended then Ok (rows, seen_urls, true)
        else if Z.of_nat (length rows) =? 0 then
          match cp_content pg with
          | None => Raise BrowserError
          | Some html =>
              let* st :=
                cars_json_outer (_json_candidates_from_html html) rows seen_urls
                  max_results in
              Ok (st, false)
          end
        else Ok (rows, seen_urls, false)
  end.

(** [for page_no in range(1, max_pages + 1)], from [page_no] on. *)
Fixpoint cars_pages (todo : nat) (pages : Z -> cars_page) (page_no : Z)
    (rows : list Listing) (seen_urls : gset string) (max_results : Z)
  : result (list Listing) :=
  match todo with
  | O => Ok rows
  | S todo' =>
      let* st := cars_page_step (pages page_no) page_no rows seen_urls max_results in
      let '(rows, seen_urls, ended) := st in
      if ended then Ok rows
      else cars_pages todo' pages (page_no + 1) rows seen_urls max_results
  end.

(** [scrape_cars] up to the year filter. *)
Definition cars_rows (pages : Z -> cars_page) (max_results max_pages : Z)
  : result (list Listing) :=
  cars_pages (Z.to_nat max_pages) pages 1 [] ∅ max_results.

End Scrapers.

(** ** The price cell of the table (line 398 of [print_rows]) *)

(** After a digit that has a positive multiple of three digits to its
    right comes a comma. *)
Fixpoint group_thousands (digits : string) : string :=
  match digits with
  | EmptyString => EmptyString
  | String c rest =>
      let n := String.length rest in
      if negb (n =? 0)%nat && (n mod 3 =? 0)%nat
      then String c (String "," (group_thousands rest))
      else String c (group_thousands rest)
  end.

(** [format(n, ",")] for an int; the conversion to decimal is limited to
    [int_max_str_digits] digits. *)
Definition format_thousands (n : Z) : result string :=
  let digits := NilZero.string_of_uint (N.to_uint (Z.abs_N n)) in
  if (int_max_str_digits <? String.length digits)%nat then Raise ValueError
  else Ok ((if n <? 0 then "-" else "") +:+ group_thousands digits).

(** [f"${r['price']:,}" if r.get("price") is not None else "N/A"] *)
Definition price_cell (price : option Z) : result string :=
  match price with
  | Some p => let* t := format_thousands p in Ok ("$" +:+ t)
  | None => Ok "N/A"
  end.

(** * Vocabulary of the properties *)

(** Induction over values, with the hypothesis for every element of a list
    and every value of a dictionary. *)
Fixpoint pyval_nested_ind (P : pyval -> Prop)
    (HNone : P VNone) (HBool : forall b, P (VBool b)) (HInt : forall z, P (VInt z))
    (HFloat : forall f, P (VFloat f)) (HStr : forall s, P (VStr s))
    (HList : forall l, Forall P l -> P (VList l))
    (HDict : forall d, Forall (fun kv => P (snd kv)) d -> P (VDict d))
    (x : pyval) : P x :=
  let go := pyval_nested_ind P HNone HBool HInt HFloat HStr HList HDict in
  match x with
  | VNone => HNone
  | VBool b => HBool b
  | VInt z => HInt z
  | VFloat f => HFloat f
  | VStr s => HStr s
  | VList l =>
      HList l ((fix all (l : list pyval) : Forall P l :=
                  match l with
                  | [] => List.Forall_nil P
                  | v :: l' => List.Forall_cons P v l' (go v) (all l')
                  end) l)
  | VDict d =>
      HDict d ((fix all (d : pydict) : Forall (fun kv => P (snd kv)) d :=
                  match d with
                  | [] => List.Forall_nil _
                  | (k, v) :: d' => List.Forall_cons _ (k, v) d' (go v) (all d')
                  end) d)
  end.

(** [inside x y]: the value [x] occurs in [y], at any depth, below
    dictionary values and list elements. *)
Inductive inside (x : pyval) : pyval -> Prop :=
  | inside_here : inside x x
  | inside_value k v d : In (k, v) d -> inside x v -> inside x (VDict d)
  | inside_element v l : In v l -> inside x v -> inside x (VList l).

(** Three distinct words of the vocabulary, case aside, are keys of [d],
    case aside. *)
Definition listing_like (d : pydict) : Prop :=
  exists w1 w2 w3 : string,
    w1 <> w2 /\ w1 <> w3 /\ w2 <> w3 /\
    Forall (fun w => In w (map py_lower KEYS) /\ In w (map py_lower (map fst d)))
      [w1; w2; w3].

(** A listing-like dictionary that wraps another one in a list. *)
Definition nested_listing : pydict :=
  [("Make", VStr "Toyota"); ("Model", VStr "Camry"); ("Year", VInt 2015)].

Definition wrapped_listing : pydict :=
  [("title", VStr "2015 Toyota Camry LE"); ("price", VInt 9000);
   ("dealer", VList [VDict nested_listing]); ("url", VStr "/vdp/1")].

(** A detail page that answers every read with the same text. *)
Definition page_showing (text html : string) (closes : bool) : vdp_page :=
  mkPage true NavOk true (Some html) (fun _ => Some (Some text)) closes.

(** A row of the Cars.com scraper, with its price and mileage to choose. *)
Definition camry_row (price miles : option Z) : Listing :=
  mkListing "Cars.com" (VStr "2015 Toyota Camry LE") price miles (VInt 2015)
    VNone VNone (VStr "https://www.cars.com/vehicledetail/1").

(** What the loop appends for one row at position [i]. *)
Definition enriched_row (visit : nat -> vdp_page) (i : nat) (r : Listing) : Listing :=
  if complete r then r else fst (enrich_vdp (visit i) r).





(** The exact value of a float that is finite, as a rational number. *)
Definition float_value (f : float) : option QArith_base.Q :=
  match Prim2SF f with
  | S754_zero _ => Some (QArith_base.inject_Z 0)
  | S754_finite s m e =>
      Some (QArith_base.Qmult (QArith_base.inject_Z (if s then Z.neg m else Z.pos m))
              (QArith_base.Qpower (QArith_base.inject_Z 2) e))
  | _ => None
  end.

(** The number a Python value is, when it is one: an int, a bool (the
    ints 1 and 0) or a finite float. *)
Definition number_value (v : pyval) : option QArith_base.Q :=
  match v with
  | VInt z => Some (QArith_base.inject_Z z)
  | VBool b => Some (QArith_base.inject_Z (Z.b2z b))
  | VFloat f => float_value f
  | _ => None
  end.

(** [v] is a number, and its value is the int [n], with no tolerance. *)
Definition is_number (v : pyval) (n : Z) : Prop :=
  exists q, number_value v = Some q /\ QArith_base.Qeq q (QArith_base.inject_Z n).


(** [s] is empty or starts with a character satisfying [p]. *)
Definition starts_with_a (p : ascii -> bool) (s : string) : Prop :=
  match s with
  | EmptyString => True
  | String c _ => p c = true
  end.

(** The complement of a character class. *)
Definition not_a (p : ascii -> bool) (c : ascii) : bool := negb (p c).

(** Not one of the three characters [urlsplit] deletes. *)
Definition url_safe (c : ascii) : bool :=
  negb (is_char tab c) && negb (is_char cr c) && negb (is_char lf c).

(** A scheme as [urlsplit] returns it: empty, or lower-cased scheme
    characters after a letter. *)
Definition scheme_ok (sch : string) : Prop :=
  sch = EmptyString \/
  exists c t, sch = String c t /\ is_ascii_alpha c = true /\
              forallb_string scheme_chars sch = true /\ py_lower sch = sch.

(** The URL as [urlsplit] starts with it: stripped on the left, the
    three unsafe characters deleted. *)
Definition cleaned (u : string) : string :=
  remove_unsafe (lstrip_with c0_or_space u).

(** The path [urlunsplit] writes after ["//"]: rooted. *)
Definition rooted (path : string) : string :=
  if truthy_str path && negb (startswith "/" path) then "/" +:+ path else path.

(** The URL without query and fragment, as [urlunsplit] builds it: the
    part after the scheme, then the whole. *)
Definition hier_part (sch netloc path : string) : string :=
  if truthy_str netloc
     || (truthy_str sch && in_list sch uses_netloc && negb (startswith "//" path))
  then "//" +:+ netloc +:+ rooted path
  else path.

(** [urlunsplit] with query and fragment blanked. *)
Definition recompose (sch netloc path : string) : string :=
  urlunsplit (mkSplit sch netloc path EmptyString EmptyString).

(** The rows a task contributes to the merge: none when it raised. *)
Definition task_rows (t : result (list Listing)) : list Listing :=
  match t with Ok rows => rows | Raise _ => [] end.

(** The identity of a row in the merged list: its source tag and its URL. *)
Definition row_id (r : Listing) : string * pyval := (l_source r, l_url r).

(** The rows a scraper gathered carry its tag. *)
Definition tagged (src : string) (rows : result (list Listing)) : Prop :=
  match rows with
  | Ok gathered => Forall (fun r => l_source r = src) gathered
  | Raise _ => True
  end.

(** A validator for the closed examples; no URL below has a bracketed host,
    so it is never consulted. *)
Definition lenient : string -> bool := fun _ => true.

(** Rows and pages of the concrete runs. *)
Definition car (source : string) (price miles : option Z) (url : string) : Listing :=
  mkListing source (VStr "2015 Toyota Camry LE") price miles (VInt 2015)
    VNone VNone (VStr url).

Definition idle_page : vdp_page := page_showing "" "" true.

Definition at_gathered : list Listing :=
  [car "Autotrader" (Some 9500) (Some 41000) "https://www.autotrader.com/v/7?clickType=a";
   car "Autotrader" (Some 9400) (Some 41000) "https://www.autotrader.com/v/7?clickType=b";
   car "Autotrader" (Some 9000) (Some 30000) "https://www.autotrader.com/v/8"].

Definition cars_gathered : list Listing :=
  [car "Cars.com" (Some 9200) None "https://www.cars.com/vehicledetail/3/"].

(** A row as [_coerce_listing] may build it: the year is the number the
    structured data holds. *)
Definition car_of_year (year : pyval) (url : string) : Listing :=
  mkListing "Cars.com" (VStr "Toyota Camry LE") (Some 9000) (Some 30000) year
    VNone VNone (VStr url).

Definition years_gathered : list Listing :=
  [car_of_year (VFloat 2015.5) "https://www.cars.com/v/1";
   car_of_year (VFloat 2015) "https://www.cars.com/v/2";
   car_of_year (VStr "2015") "https://www.cars.com/v/3";
   car_of_year (VInt 2014) "https://www.cars.com/v/4";
   car_of_year VNone "https://www.cars.com/v/5"].





Section Vocabulary.

Variable validator : string -> bool.

(** The bracket tests of [urlsplit] let the netloc through. *)
Definition netloc_passes (netloc : string) : bool :=
  negb ((has_char "[" netloc && negb (has_char "]" netloc))
        || (has_char "]" netloc && negb (has_char "[" netloc)))
  && negb (has_char "[" netloc && has_char "]" netloc && negb (validator netloc)).

(** What holds of the scheme, netloc and path that [urlsplit] returns. *)
Record parts_ok (sch netloc path : string) : Prop := mkPartsOk {
  po_scheme : scheme_ok sch;
  po_netloc_safe : forallb_string url_safe netloc = true;
  po_path_safe : forallb_string url_safe path = true;
  po_netloc_delim : forallb_string (not_a is_delim) netloc = true;
  po_path_hash : forallb_string (not_a (is_char "#")) path = true;
  po_path_query : forallb_string (not_a (is_char "?")) path = true;
  po_netloc_passes : netloc_passes netloc = true;
  po_path_rooted : netloc <> EmptyString -> starts_with_a (is_char "/") path;
  po_bare_path : sch = EmptyString -> netloc = EmptyString ->
                 starts_with_a (not_a c0_or_space) path /\
                 split_scheme EmptyString path = (EmptyString, path) }.

(** [first_with_url rows r s]: [r] is the first of [rows] whose URL
    normalises to the non-empty string [s]. *)
Definition first_with_url (rows : list Listing) (r : Listing) (s : string) : Prop :=
  exists pre post : list Listing,
    rows = (pre ++ r :: post)%list /\
    _normalize_url validator (l_url r) = Ok (VStr s) /\
    truthy_str s = true /\
    (forall r', In r' pre -> _normalize_url validator (l_url r') <> Ok (VStr s)).

(** The rows the orchestrator merges, by site. *)
Definition merged (year k : Z) (site : string) (at_rows cars_rows : result (list Listing))
  : list Listing :=
  ((if in_list site ["both"; "autotrader"]
    then task_rows (scraper_finish validator at_rows year k) else []) ++
   (if in_list site ["both"; "cars"]
    then task_rows (scraper_finish validator cars_rows year k) else []))%list.

(** The rows that reach the sort, before the rows with no URL are
    dropped. *)
Definition before_sort (year k : Z) (enrich : bool) (site : string)
    (at_rows cars_rows : result (list Listing)) (visit : nat -> vdp_page)
  : list Listing :=
  if enrich
  then _enforce_year (enrich_loop visit 0 (merged year k site at_rows cars_rows) []) year
  else merged year k site at_rows cars_rows.

End Vocabulary.

(** A run over both sites, without enrichment. *)
Definition sample_output : list Listing :=
  query_listings_async lenient 2015 8 false "both" (Ok at_gathered) (Ok cars_gathered)
    (fun _ => idle_page).

(** The pattern has no capturing group. *)
Fixpoint group_free (r : regex) : bool :=
  match r with
  | RSeq a b | RAlt a b => group_free a && group_free b
  | RGroup _ => false
  | _ => true
  end.

(** The characters of a text that [_to_int] reads as a number. *)
Definition number_char (c : ascii) : bool :=
  is_digit c || is_char "," c || is_char "_" c || is_char "+" c || is_char "-" c
  || py_isspace c.

(** [o] is the row [r] with its URL normalised, and that URL is not
    empty. *)
Definition kept_as (validator : string -> bool) (r o : Listing) : Prop :=
  exists s, _normalize_url validator (l_url r) = Ok (VStr s) /\
            truthy_str s = true /\ o = set_url r (VStr s).

(** [r] has the sort key [key]. *)
Definition same_key (key : Z * Z) (r : Listing) : bool :=
  (fst (sort_key r) =? fst key) && (snd (sort_key r) =? snd key).

(** The read of the text under [sel] gives nothing to keep: it raises, or
    returns [None] or the empty string. *)
Definition no_text (node : dom_node) (sel : string) : Prop :=
  match nd_text node sel with
  | Some (Some t) => truthy_str t = false
  | _ => True
  end.

Definition no_attr (node : dom_node) (attr sel : string) : Prop :=
  match nd_attr node sel attr with
  | Some (Some v) => truthy_str v = false
  | _ => True
  end.

(** What the loop of the deep scroll knows before round [i]: [last_n] is
    the count of the [stable + 1] rounds before it; before the first
    round no count was read. *)
Definition scroll_state (rounds : nat -> scroll_round) (i : nat) (last_n stable : Z)
  : Prop :=
  0 <= stable /\
  ((i = 0%nat /\ stable = 0 /\ last_n < 0) \/
   (stable + 1 <= Z.of_nat i /\
    forall j : nat,
      Z.of_nat i - 1 - stable <= Z.of_nat j < Z.of_nat i ->
      round_count (rounds j) = last_n)).

(** A row as the scraper of Cars.com gathers it: tagged, with an address
    that is a string and not empty. *)
Definition cars_row_ok (r : Listing) : Prop :=
  l_source r = "Cars.com" /\ exists u, l_url r = VStr u /\ truthy_str u = true.

(** Rows, cards and pages of the concrete runs. *)
Definition bare (source : string) (url : pyval) : Listing :=
  mkListing source VNone None None VNone VNone VNone url.

Definition sample_rows : list Listing :=
  [bare "a" (VStr "https://s.com/1?x=1"); bare "b" (VStr "https://s.com/1?x=2");
   bare "c" VNone; bare "d" (VStr "https://s.com/2#f");
   bare "e" (VStr "https://s.com/3")].

Definition sample_card (title href price miles : string) : dom_node :=
  mkNode
    (fun sel =>
       if in_list sel ["h2.title"; "[data-cmp='subheading']"] then Some (Some title)
       else if in_list sel ["[data-test='vehicleCardPriceAmount']"; "[data-cmp='price']"]
       then Some (Some price)
       else if in_list sel ["[data-test='vehicleMileage']"; "[data-cmp='mileage']"]
       then Some (Some miles)
       else None)
    (fun sel attr => if String.eqb attr "href" then Some (Some href) else Some None).

Definition camry_card : dom_node :=
  sample_card " 2015 Toyota Camry LE " "/vehicledetail/1?src=results" "$9,000"
    "30,000 miles".

Definition still_page : nat -> scroll_round := fun _ => mkRound true (Some 1%nat).

Definition growing_page : nat -> scroll_round := fun j => mkRound true (Some j).

Definition sample_at_page : at_page :=
  mkAtPage NavOk still_page (Some [camry_card]) (Some "<html></html>").

Definition sample_cars_pages : Z -> cars_page :=
  fun _ => mkCarsPage NavTimeout true (Some [camry_card]) None.

Definition no_candidates : string -> list pyval := fun _ => [].

(** * Proofs *)

(** ** The model on examples *)

Example parse_price_ex1 : parse_price (VStr "$12,500 OBO") = Ok (Some 12500).
Proof. vm_compute. reflexivity. Qed.

Example parse_price_ex2 : parse_price (VStr "$1,,2") = Ok (Some 12).
Proof. vm_compute. reflexivity. Qed.

Example parse_miles_ex1 : parse_miles (VStr "12 MILES") = Ok (Some 12).
Proof. vm_compute. reflexivity. Qed.

Example parse_year_ex1 : parse_year_from_text (VStr "120155 2016x 1999") = Ok (Some 1999).
Proof. vm_compute. reflexivity. Qed.

Example parse_year_ex2 : parse_year_from_text (VStr "2015_") = Ok None.
Proof. vm_compute. reflexivity. Qed.

Example urljoin_ex1 : forall v, urljoin v "https://site.com" "/vdp/1" = Ok "https://site.com/vdp/1".
Proof. intros. vm_compute. reflexivity. Qed.

Example urljoin_ex2 : forall v, urljoin v "http://a/b/c/d;p?q" "../g" = Ok "http://a/b/g".
Proof. intros. vm_compute. reflexivity. Qed.

Example urljoin_ex3 : forall v, urljoin v "http://a/b/c/d;p?q" "g;x?y#s" = Ok "http://a/b/c/g;x?y#s".
Proof. intros. vm_compute. reflexivity. Qed.

Example urljoin_ex4 : forall v, urljoin v "http://a/b/c/d;p?q" "./../g" = Ok "http://a/b/g".
Proof. intros. vm_compute. reflexivity. Qed.

Example urljoin_ex5 : forall v, urljoin v "http://a/b/c/d;p?q" "?y" = Ok "http://a/b/c/d;p?y".
Proof. intros. vm_compute. reflexivity. Qed.

Example urljoin_ex6 : forall v, urljoin v "http://a/b/c/d;p?q" "/../g" = Ok "http://a/g".
Proof. intros. vm_compute. reflexivity. Qed.

Example urljoin_ex7 : forall v, urljoin v "http://a/b/c/d;p?q" ".." = Ok "http://a/b/".
Proof. intros. vm_compute. reflexivity. Qed.

Example urljoin_ex8 : forall v, urljoin v "http://a/b/c/d;p?q" "mailto:x" = Ok "mailto:x".
Proof. intros. vm_compute. reflexivity. Qed.

Example urljoin_ex9 : forall v, urljoin v "http://a/b//c/d" "e//f" = Ok "http://a/b/c/e/f".
Proof. intros. vm_compute. reflexivity. Qed.

Example looks_ex1 : looks [("Price", VInt 1); ("YEAR", VInt 2); ("vdpurl", VNone)] = true.
Proof. vm_compute. reflexivity. Qed.

Example looks_ex2 : looks [("Price", VInt 1); ("price", VInt 2); ("PRICE", VNone)] = false.
Proof. vm_compute. reflexivity. Qed.

Example coerce_ex : forall v,
  _coerce_listing v
    [("listPrice", VStr "$9,000"); ("mileage", VStr "30,000 miles");
     ("year", VStr "2015"); ("url", VStr "/vdp/1")] "Cars.com" "https://site.com"
  = Ok (mkListing "Cars.com" VNone (Some 9000) (Some 30000) (VInt 2015) VNone VNone
          (VStr "https://site.com/vdp/1")).
Proof. intros. vm_compute. reflexivity. Qed.

Example normalize_ex : forall v,
  _normalize_url v (VStr "https://site.com/vdp/123?src=ads#top")
  = Ok (VStr "https://site.com/vdp/123").
Proof. intros. vm_compute. reflexivity. Qed.

Example dedupe_ex : forall v,
  _dedupe_and_trim v
    [mkListing "a" VNone None None VNone VNone VNone (VStr "https://s.com/1?x=1");
     mkListing "b" VNone None None VNone VNone VNone (VStr "https://s.com/1?x=2");
     mkListing "c" VNone None None VNone VNone VNone VNone;
     mkListing "d" VNone None None VNone VNone VNone (VStr "https://s.com/2#f");
     mkListing "e" VNone None None VNone VNone VNone (VStr "https://s.com/3")] 2
  = Ok [mkListing "a" VNone None None VNone VNone VNone (VStr "https://s.com/1");
        mkListing "d" VNone None None VNone VNone VNone (VStr "https://s.com/2")].
Proof. intros. vm_compute. reflexivity. Qed.

(** ** Field parsers *)

(** C9: the field parsers on the documented examples, and on absent or
    empty input, where each returns [None] without raising. *)
Theorem field_parsers_examples :
  parse_price (VStr "$12,500 OBO") = Ok (Some 12500) /\
  parse_price (VStr "Call for price") = Ok None /\
  parse_miles (VStr "45,213 miles") = Ok (Some 45213) /\
  parse_miles (VStr "") = Ok None /\
  parse_year_from_text (VStr "2015 Toyota Camry LE") = Ok (Some 2015) /\
  parse_year_from_text (VStr "Camry LE") = Ok None /\
  (parse_price VNone = Ok None /\ parse_price (VStr "") = Ok None) /\
  (parse_miles VNone = Ok None /\ parse_miles (VStr "") = Ok None) /\
  (parse_year_from_text VNone = Ok None /\ parse_year_from_text (VStr "") = Ok None).
Proof. repeat split; vm_compute; reflexivity. Qed.

(** ** Structured-data search *)

Lemma elem_of_lower_set (w : string) (l : list string) :
  w ∈ lower_set l <-> In w (map py_lower l).
Proof.
  unfold lower_set. rewrite elem_of_list_to_set. apply list_elem_of_In.
Qed.

Lemma three_distinct_size (X : gset string) :
  (3 <= size X)%nat <->
  exists w1 w2 w3 : string,
    w1 <> w2 /\ w1 <> w3 /\ w2 <> w3 /\ w1 ∈ X /\ w2 ∈ X /\ w3 ∈ X.
Proof.
  split.
  - intros Hsize.
    pose proof (NoDup_elements X) as Hnd.
    assert (Hel : forall w, w ∈ elements X -> w ∈ X)
      by (intros w; apply elem_of_elements).
    unfold size, set_size in Hsize. simpl in Hsize.
    destruct (elements X) as [|a [|b [|c rest]]]; simpl in Hsize; try lia.
    apply NoDup_cons in Hnd as [Ha Hnd].
    apply NoDup_cons in Hnd as [Hb _].
    exists a, b, c. repeat split.
    + intros ->. apply Ha. left.
    + intros ->. apply Ha. right. left.
    + intros ->. apply Hb. left.
    + apply Hel. left.
    + apply Hel. right. left.
    + apply Hel. right. right. left.
  - intros (w1 & w2 & w3 & H12 & H13 & H23 & H1 & H2 & H3).
    assert (Hsub : ({[w1]} ∪ ({[w2]} ∪ {[w3]}) : gset string) ⊆ X) by set_solver.
    apply subseteq_size in Hsub.
    rewrite size_union in Hsub by set_solver.
    rewrite size_union in Hsub by set_solver.
    rewrite !size_singleton in Hsub. lia.
Qed.

Lemma elem_of_both (w : string) (d : pydict) :
  w ∈ lower_set (map fst d) ∩ lower_set KEYS <->
  In w (map py_lower KEYS) /\ In w (map py_lower (map fst d)).
Proof.
  rewrite elem_of_intersection.
  rewrite (elem_of_lower_set w (map fst d)), (elem_of_lower_set w KEYS). tauto.
Qed.

Lemma looks_listing_like (d : pydict) : looks d = true <-> listing_like d.
Proof.
  unfold looks, listing_like.
  rewrite bool_decide_eq_true, three_distinct_size.
  split; intros (w1 & w2 & w3 & H12 & H13 & H23 & H).
  - destruct H as (H1 & H2 & H3).
    apply elem_of_both in H1, H2, H3.
    exists w1, w2, w3. repeat split; try assumption.
    apply List.Forall_cons; [assumption|].
    apply List.Forall_cons; [assumption|].
    apply List.Forall_cons; [assumption|]. apply List.Forall_nil.
  - apply Forall_cons in H as [Ha H].
    apply Forall_cons in H as [Hb H].
    apply Forall_cons in H as [Hc _].
    exists w1, w2, w3. repeat split; try assumption; apply elem_of_both; assumption.
Qed.

Lemma rec_inside (obj : pyval) (d : pydict) :
  In d (rec obj) <-> inside (VDict d) obj /\ looks d = true.
Proof.
  split.
  - revert d. induction obj as [| | | | |l IH|items IH] using pyval_nested_ind;
      intros d Hin; simpl in Hin; try contradiction.
    + apply in_flat_map in Hin as (v & Hv & Hd).
      rewrite Forall_forall in IH.
      destruct (IH v (proj2 (list_elem_of_In _ _) Hv) d Hd) as [Hi Hl].
      split; [eapply inside_element; eassumption | assumption].
    + apply in_app_or in Hin as [Hhere | Hbelow].
      * destruct (looks items) eqn:Hl; simpl in Hhere; [|contradiction].
        destruct Hhere as [<- | []]. split; [constructor | assumption].
      * apply in_flat_map in Hbelow as ([k v] & Hkv & Hd).
        rewrite Forall_forall in IH.
        destruct (IH (k, v) (proj2 (list_elem_of_In _ _) Hkv) d Hd) as [Hi Hl].
        split; [eapply inside_value; eassumption | assumption].
  - intros [Hi Hl]. induction Hi as [| k v items Hkv Hi IH | v l Hv Hi IH].
    + simpl. rewrite Hl. left. reflexivity.
    + simpl. apply in_or_app. right.
      apply in_flat_map. exists (k, v). split; assumption.
    + simpl. apply in_flat_map. exists v. split; assumption.
Qed.

(** C7: the search collects exactly the dictionaries, at any depth, that
    have at least three distinct vocabulary words among their lower-cased
    keys; and a dictionary that matched is still searched, so a matching
    dictionary below it is collected too. *)
Theorem walk_collects_listing_like :
  (forall (obj : pyval) (d : pydict),
     In d (_walk_find_listings obj) <-> inside (VDict d) obj /\ listing_like d) /\
  (forall (outer inner : pydict) (k : string) (v : pyval),
     listing_like outer -> In (k, v) outer ->
     inside (VDict inner) v -> listing_like inner ->
     In outer (_walk_find_listings (VDict outer)) /\
     In inner (_walk_find_listings (VDict outer))).
Proof.
  assert (Hmain : forall obj d,
    In d (_walk_find_listings obj) <-> inside (VDict d) obj /\ listing_like d).
  { intros obj d. unfold _walk_find_listings.
    rewrite rec_inside, looks_listing_like. reflexivity. }
  split; [exact Hmain|].
  intros outer inner k v Houter Hkv Hin Hinner. split; apply Hmain.
  - split; [constructor | assumption].
  - split; [eapply inside_value; eassumption | assumption].
Qed.

(** ** Enrichment *)

Lemma opt_or_truthy (a b : option Z) : truthy_int a = true -> opt_or a b = a.
Proof. unfold opt_or. intros ->. reflexivity. Qed.

Lemma enrich_body_keeps (pg : vdp_page) (row row' : Listing) :
  enrich_body pg row = Ok row' ->
  (truthy_int (l_price row) = true -> l_price row' = l_price row) /\
  (truthy_int (l_miles row) = true -> l_miles row' = l_miles row) /\
  (truthy (l_title row) = true -> l_title row' = l_title row) /\
  (truthy (l_year row) = true -> l_year row' = l_year row) /\
  l_source row' = l_source row /\ l_location row' = l_location row /\
  l_dealer row' = l_dealer row /\ l_url row' = l_url row.
Proof.
  unfold enrich_body.
  destruct (pg_goto pg); try discriminate;
    (destruct (pg_scrolls pg); simpl; [|discriminate]);
    (destruct (pg_content pg) as [html|]; [|discriminate]);
    (destruct (py_in "cars.com" (l_url row)) as [on_cars|]; simpl; [|discriminate]);
    (destruct (if on_cars then Ok false else py_in "autotrader.com" (l_url row))
       as [on_at|]; simpl; [|discriminate]);
    (destruct (if on_cars then _ else _) as [sels_price sels_miles]);
    set (price1 := match pg_text pg sels_price with Some _ => _ | None => _ end);
    set (miles1 := match pg_text pg sels_miles with Some _ => _ | None => _ end);
    set (title1 := if negb (truthy (l_title row)) then _ else l_title row);
    (assert (Hp1 : truthy_int (l_price row) = true -> price1 = l_price row)
       by (intros Ht; subst price1; destruct (pg_text pg sels_price) as [t|];
           [destruct (parse_price _); [apply opt_or_truthy, Ht|] |]; reflexivity));
    (assert (Hm1 : truthy_int (l_miles row) = true -> miles1 = l_miles row)
       by (intros Ht; subst miles1; destruct (pg_text pg sels_miles) as [t|];
           [destruct (parse_miles _); [apply opt_or_truthy, Ht|] |]; reflexivity));
    (assert (Ht1 : truthy (l_title row) = true -> title1 = l_title row)
       by (intros Ht; subst title1; rewrite Ht; reflexivity));
    clearbody price1 miles1 title1;
    (destruct (if negb (truthy (l_year row)) then _ else Ok (l_year row))
       as [year1|] eqn:Hy; simpl; [|discriminate]);
    (assert (Hy1 : truthy (l_year row) = true -> year1 = l_year row)
       by (intros Ht; rewrite Ht in Hy; simpl in Hy; congruence));
    (destruct (if negb (truthy_int price1) || negb (truthy_int miles1) then _
               else Ok (price1, miles1)) as [[price2 miles2]|] eqn:Hf; simpl;
       [|discriminate]);
    intros [= <-]; simpl;
    (assert (Hp2 : truthy_int price1 = true -> price2 = price1)
       by (intros Ht; destruct (negb (truthy_int price1) || negb (truthy_int miles1));
           [ destruct (parse_price (VStr html)); simpl in Hf; [|discriminate];
             destruct (parse_miles (VStr html)); simpl in Hf; [|discriminate];
             injection Hf as <- _; apply opt_or_truthy, Ht
           | congruence ]));
    (assert (Hm2 : truthy_int miles1 = true -> miles2 = miles1)
       by (intros Ht; destruct (negb (truthy_int price1) || negb (truthy_int miles1));
           [ destruct (parse_price (VStr html)); simpl in Hf; [|discriminate];
             destruct (parse_miles (VStr html)); simpl in Hf; [|discriminate];
             injection Hf as _ <-; apply opt_or_truthy, Ht
           | congruence ]));
    (repeat split; try reflexivity; try assumption;
     intros Ht;
     [ rewrite Hp2, Hp1; rewrite ?Hp1; auto | rewrite Hm2, Hm1; rewrite ?Hm1; auto ]).
Qed.

(** Whichever way [enrich_vdp] ends, the row it leaves has every field
    that was truthy as it was, and the fields it never assigns. *)
Lemma enrich_vdp_keeps (pg : vdp_page) (row : Listing) :
  let row' := fst (enrich_vdp pg row) in
  (truthy_int (l_price row) = true -> l_price row' = l_price row) /\
  (truthy_int (l_miles row) = true -> l_miles row' = l_miles row) /\
  (truthy (l_title row) = true -> l_title row' = l_title row) /\
  (truthy (l_year row) = true -> l_year row' = l_year row) /\
  l_source row' = l_source row /\ l_location row' = l_location row /\
  l_dealer row' = l_dealer row /\ l_url row' = l_url row.
Proof.
  unfold enrich_vdp.
  destruct (negb (truthy (l_url row))); [simpl; tauto|].
  destruct (negb (pg_opens pg)); [simpl; tauto|].
  destruct (enrich_body pg row) as [row'|e] eqn:Hbody; simpl; [|tauto].
  exact (enrich_body_keeps pg row row' Hbody).
Qed.

(** C2 (amended): for every listing passed to [enrich_vdp] and each of
    price, miles, title and year, a field that was truthy before
    enrichment (not [None], and not 0 or empty) is unchanged in the
    listing returned. *)
Theorem enrich_keeps_truthy_fields (pg : vdp_page) (row row' : Listing) :
  enrich_vdp pg row = (row', Returned) ->
  (truthy_int (l_price row) = true -> l_price row' = l_price row) /\
  (truthy_int (l_miles row) = true -> l_miles row' = l_miles row) /\
  (truthy (l_title row) = true -> l_title row' = l_title row) /\
  (truthy (l_year row) = true -> l_year row' = l_year row).
Proof.
  intros Hcall. pose proof (enrich_vdp_keeps pg row) as H.
  rewrite Hcall in H. simpl in H. tauto.
Qed.

(** C2, as stated, fails: a price of 0 is not [None], and enrichment
    replaces it with the price read from the page. *)
Lemma enrich_overwrites_zero_price :
  l_price (camry_row (Some 0) (Some 30000)) = Some 0 /\
  l_price (camry_row (Some 0) (Some 30000)) <> None /\
  enrich_vdp (page_showing "$9,000" "<html></html>" true)
    (camry_row (Some 0) (Some 30000))
  = (camry_row (Some 9000) (Some 30000), Returned).
Proof.
  split; [reflexivity|]. split; [discriminate|]. vm_compute. reflexivity.
Qed.

Lemma enrich_keeps_truthy_fields_witness :
  enrich_vdp (page_showing "30,000 miles" "" true) (camry_row (Some 9000) None)
  = (camry_row (Some 9000) (Some 30000), Returned) /\
  truthy_int (l_price (camry_row (Some 9000) None)) = true /\
  l_price (camry_row (Some 9000) (Some 30000)) = l_price (camry_row (Some 9000) None).
Proof.
  split; [vm_compute; reflexivity|]. split; [reflexivity|].
  apply (enrich_keeps_truthy_fields (page_showing "30,000 miles" "" true)
           (camry_row (Some 9000) None) (camry_row (Some 9000) (Some 30000)));
    [vm_compute; reflexivity | reflexivity].
Defined.

(** A call that raises anywhere but in [page.close()] leaves the row as
    it was. *)
Lemma enrich_fault_before_update (pg : vdp_page) (row row' : Listing) (e : exn) :
  enrich_vdp pg row = (row', Raised e) -> pg_closes pg = true -> row' = row.
Proof.
  unfold enrich_vdp. intros H Hc.
  destruct (negb (truthy (l_url row))); [congruence|].
  destruct (negb (pg_opens pg)); [congruence|].
  destruct (enrich_body pg row); rewrite Hc in H; congruence.
Qed.

(** The loop handles every row on its own: the row at position [i] only
    sees its own visit. *)
Lemma enrich_loop_pointwise (visit : nat -> vdp_page) (out : list Listing) :
  forall (i : nat) (enriched : list Listing),
    enrich_loop visit i out enriched
    = (enriched ++ imap (fun j r => enriched_row visit (i + j) r) out)%list.
Proof.
  induction out as [|r out IH]; intros i enriched; simpl.
  - rewrite app_nil_r. reflexivity.
  - assert (Hstep : enrich_loop visit (S i) out (enriched ++ [enriched_row visit i r])
                    = (enriched ++ enriched_row visit (i + 0) r ::
                         imap (fun j r => enriched_row visit (i + S j) r) out)%list).
    { rewrite IH, <- app_assoc. simpl. rewrite Nat.add_0_r. do 2 f_equal.
      apply imap_ext. intros j x _. simpl. f_equal. lia. }
    unfold enriched_row in Hstep at 1 2. unfold enriched_row at 1.
    destruct (complete r); [exact Hstep|].
    destruct (enrich_vdp (visit i) r) as [r' [|e]]; exact Hstep.
Qed.

(** ** The final sort *)

Lemma key_le_spec (a b : Z * Z) :
  key_le a b = true <-> a.1 < b.1 \/ (a.1 = b.1 /\ a.2 <= b.2).
Proof.
  unfold key_le.
  rewrite orb_true_iff, andb_true_iff, Z.ltb_lt, Z.eqb_eq, Z.leb_le. reflexivity.
Qed.



Lemma insert_row_perm (x : Listing) (l : list Listing) :
  Permutation (insert_row x l) (x :: l).
Proof.
  induction l as [|y l IH]; simpl; [reflexivity|].
  destruct (key_le (sort_key x) (sort_key y)); [reflexivity|].
  rewrite IH. apply perm_swap.
Qed.

Lemma sort_rows_perm (l : list Listing) : Permutation (sort_rows l) l.
Proof.
  induction l as [|x l IH]; simpl; [reflexivity|].
  rewrite insert_row_perm, IH. reflexivity.
Qed.







(** ** Equality of a number with an int *)

Lemma scaled_value (v n e : Z) :
  QArith_base.Qeq
    (QArith_base.Qmult (QArith_base.inject_Z v)
       (QArith_base.Qpower (QArith_base.inject_Z 2) e))
    (QArith_base.inject_Z n)
  <-> (if 0 <=? e then v * 2 ^ e =? n else v =? n * 2 ^ (- e)) = true.
Proof.
  destruct (Z.leb_spec 0 e) as [He | He].
  - rewrite <- (Qpower.Zpower_Qpower 2 e He), <- QArith_base.inject_Z_mult,
      QArith_base.inject_Z_injective, Z.eqb_eq. reflexivity.
  - replace e with (- - e) at 1 by lia.
    rewrite Qpower.Qpower_opp, <- (Qpower.Zpower_Qpower 2 (- e)) by lia.
    assert (Hpos : 0 < 2 ^ (- e)) by (apply Z.pow_pos_nonneg; lia).
    destruct (2 ^ (- e)) as [|p|p] eqn:Hp; try lia.
    rewrite Z.eqb_eq. unfold QArith_base.Qeq. simpl. lia.
Qed.

(** [f == n] holds exactly when the float is finite and its value is [n]. *)
Lemma float_eq_int_exact (f : float) (n : Z) :
  float_eq_int f n = true <-> is_number (VFloat f) n.
Proof.
  unfold float_eq_int, is_number, number_value, float_value.
  destruct (Prim2SF f) as [s | s | | s m e].
  - rewrite Z.eqb_eq. split.
    + intros ->. eexists. split; [reflexivity | apply QArith_base.Qeq_refl].
    + intros (q & [= <-] & Hq).
      apply (proj1 (QArith_base.inject_Z_injective _ _)) in Hq. lia.
  - split; [discriminate | intros (q & Hq & _); discriminate].
  - split; [discriminate | intros (q & Hq & _); discriminate].
  - rewrite <- scaled_value. split.
    + intros H. eexists. split; [reflexivity | exact H].
    + intros (q & [= <-] & Hq). exact Hq.
Qed.

(** [v == n] holds exactly when [v] is a number of value [n]. *)
Lemma py_eq_int_exact (v : pyval) (n : Z) :
  py_eq_int v n = true <-> is_number v n.
Proof.
  destruct v as [ | b | z | f | s | l | d]; simpl;
    try (split; [discriminate | intros (q & Hq & _); discriminate]).
  - rewrite Z.eqb_eq. unfold is_number. simpl. split.
    + intros <-. eexists. split; [reflexivity | apply QArith_base.Qeq_refl].
    + intros (q & [= <-] & Hq).
      apply (proj1 (QArith_base.inject_Z_injective _ _)) in Hq. lia.
  - rewrite Z.eqb_eq. unfold is_number. simpl. split.
    + intros <-. eexists. split; [reflexivity | apply QArith_base.Qeq_refl].
    + intros (q & [= <-] & Hq).
      apply (proj1 (QArith_base.inject_Z_injective _ _)) in Hq. lia.
  - apply float_eq_int_exact.
Qed.

(** A float with a fraction is no int. *)
Lemma half_year_is_no_int (n : Z) : ~ is_number (VFloat 1999.5) n.
Proof.
  intros (q & Hq & He). vm_compute in Hq. injection Hq as <-.
  unfold QArith_base.Qeq in He. simpl in He. lia.
Qed.

(** ** Strings: facts about splitting *)

#[local] Arguments String.append !_ _ / : simpl nomatch.
#[local] Arguments is_char : simpl never.

Ltac each_char c :=
  destruct c as [[] [] [] [] [] [] [] []]; vm_compute; intuition congruence.

Lemma append_empty_r (s : string) : s +:+ EmptyString = s.
Proof. induction s as [|c s IH]; simpl; [|rewrite IH]; reflexivity. Qed.

Lemma append_assoc' (a b c : string) : (a +:+ b) +:+ c = a +:+ (b +:+ c).
Proof. induction a as [|x a IH]; simpl; [|rewrite IH]; reflexivity. Qed.

Lemma forallb_string_app (p : ascii -> bool) (a b : string) :
  forallb_string p (a +:+ b) = forallb_string p a && forallb_string p b.
Proof.
  induction a as [|c a IH]; simpl; [reflexivity|].
  rewrite IH, andb_assoc. reflexivity.
Qed.

Lemma has_char_forallb (c : ascii) (s : string) :
  has_char c s = negb (forallb_string (not_a (is_char c)) s).
Proof.
  unfold has_char, not_a. induction s as [|x s IH]; simpl; [reflexivity|].
  rewrite IH. destruct (is_char c x); reflexivity.
Qed.

Lemma forallb_string_impl (p q : ascii -> bool) (s : string) :
  (forall c, p c = true -> q c = true) ->
  forallb_string p s = true -> forallb_string q s = true.
Proof.
  intros Hpq. induction s as [|c s IH]; simpl; [reflexivity|].
  rewrite !andb_true_iff. intros [Hc Hs]. auto.
Qed.

Lemma break_at_app (p : ascii -> bool) (s : string) :
  (break_at p s).1 +:+ (break_at p s).2 = s.
Proof.
  induction s as [|c s IH]; simpl; [reflexivity|].
  destruct (p c); simpl; [reflexivity|].
  destruct (break_at p s) as [a b]. simpl in *. rewrite IH. reflexivity.
Qed.

Lemma break_at_fst (p : ascii -> bool) (s : string) :
  forallb_string (not_a p) (break_at p s).1 = true.
Proof.
  induction s as [|c s IH]; simpl; [reflexivity|].
  destruct (p c) eqn:E; simpl; [reflexivity|].
  destruct (break_at p s) as [a b]. simpl in *. unfold not_a at 1. rewrite E, IH.
  reflexivity.
Qed.

Lemma break_at_snd (p : ascii -> bool) (s : string) :
  starts_with_a p (break_at p s).2.
Proof.
  induction s as [|c s IH]; simpl; [exact I|].
  destruct (p c) eqn:E; simpl; [exact E|].
  destruct (break_at p s) as [a b]. exact IH.
Qed.

Lemma break_at_join (p : ascii -> bool) (a b : string) :
  forallb_string (not_a p) a = true -> starts_with_a p b ->
  break_at p (a +:+ b) = (a, b).
Proof.
  induction a as [|c a IH]; simpl.
  - intros _ Hb. destruct b as [|x b]; simpl in *; [reflexivity|].
    rewrite Hb. reflexivity.
  - unfold not_a at 1. rewrite andb_true_iff, negb_true_iff. intros [Hc Ha] Hb.
    rewrite Hc, (IH Ha Hb). reflexivity.
Qed.

Lemma break_at_none (p : ascii -> bool) (s : string) :
  forallb_string (not_a p) s = true -> break_at p s = (s, EmptyString).
Proof.
  intros H. pose proof (break_at_join p s EmptyString H I) as Hj.
  rewrite append_empty_r in Hj. exact Hj.
Qed.

Lemma break_at_pieces (q p : ascii -> bool) (s : string) :
  forallb_string q s = true ->
  forallb_string q (break_at p s).1 = true /\ forallb_string q (break_at p s).2 = true.
Proof.
  intros H. rewrite <- (break_at_app p s), forallb_string_app in H.
  apply andb_true_iff in H. exact H.
Qed.

Lemma break_at_head (p : ascii -> bool) (s : string) (c : ascii) (t : string) :
  (break_at p s).1 = String c t -> exists t', s = String c t'.
Proof.
  destruct s as [|x s]; simpl; [discriminate|].
  destruct (p x); simpl; [discriminate|].
  destruct (break_at p s) as [a b]. simpl. intros [= -> _]. eauto.
Qed.

Lemma drop_string_forallb (q : ascii -> bool) (n : nat) (s : string) :
  forallb_string q s = true -> forallb_string q (drop_string n s) = true.
Proof.
  revert s. induction n as [|n IH]; intros s; simpl; [auto|].
  destruct s as [|c s]; simpl; [auto|].
  rewrite andb_true_iff. intros [_ H]. auto.
Qed.

Lemma lstrip_fixed (p : ascii -> bool) (s : string) :
  starts_with_a (not_a p) s -> lstrip_with p s = s.
Proof.
  destruct s as [|c s]; simpl; [reflexivity|].
  unfold not_a. rewrite negb_true_iff. intros ->. reflexivity.
Qed.

Lemma lstrip_head (p : ascii -> bool) (s : string) :
  starts_with_a (not_a p) (lstrip_with p s).
Proof.
  induction s as [|c s IH]; simpl; [exact I|].
  destruct (p c) eqn:E; [exact IH|]. simpl. unfold not_a. rewrite E. reflexivity.
Qed.

Lemma filter_string_fixed (q : ascii -> bool) (s : string) :
  forallb_string q s = true -> filter_string q s = s.
Proof.
  induction s as [|c s IH]; simpl; [reflexivity|].
  rewrite andb_true_iff. intros [-> Hs]. rewrite (IH Hs). reflexivity.
Qed.

Lemma filter_string_forallb (q : ascii -> bool) (s : string) :
  forallb_string q (filter_string q s) = true.
Proof.
  induction s as [|c s IH]; simpl; [reflexivity|].
  destruct (q c) eqn:E; simpl; [rewrite E|]; exact IH.
Qed.

Lemma map_string_fixed (f : ascii -> ascii) (q : ascii -> bool) (s : string) :
  (forall c, q c = true -> f c = c) ->
  forallb_string q s = true -> map_string f s = s.
Proof.
  intros Hf. induction s as [|c s IH]; simpl; [reflexivity|].
  rewrite andb_true_iff. intros [Hc Hs]. rewrite (Hf c Hc), (IH Hs). reflexivity.
Qed.

Lemma map_string_forallb (f : ascii -> ascii) (p q : ascii -> bool) (s : string) :
  (forall c, p c = true -> q (f c) = true) ->
  forallb_string p s = true -> forallb_string q (map_string f s) = true.
Proof.
  intros Hf. induction s as [|c s IH]; simpl; [reflexivity|].
  rewrite !andb_true_iff. intros [Hc Hs]. auto.
Qed.

(** ** The field parsers raise on no string *)

Lemma consumed_prefix (pre rest : string) : consumed (pre +:+ rest) rest = pre.
Proof.
  unfold consumed.
  assert (Hlen : (String.length (pre +:+ rest) - String.length rest
                  = String.length pre)%nat).
  { induction pre as [|c pre IH]; simpl; [lia|].
    assert (String.length rest <= String.length (pre +:+ rest))%nat
      by (clear; induction pre; simpl; lia).
    lia. }
  rewrite Hlen. clear Hlen.
  induction pre as [|c pre IH]; simpl.
  - destruct rest; reflexivity.
  - rewrite IH. reflexivity.
Qed.

Lemma digit_string_int (a b c d : ascii) :
  is_digit a = true -> is_digit b = true -> is_digit c = true -> is_digit d = true ->
  exists y, py_int (String a (String b (String c (String d EmptyString)))) = Some y.
Proof.
  intros Ha Hb Hc Hd. unfold py_int.
  assert (Hsp : forall x, is_digit x = true ->
            int_space x = false /\ is_char "-" x = false /\ is_char "+" x = false)
    by (intros x; each_char x).
  destruct (Hsp a Ha) as (Ha1 & Ha2 & Ha3). destruct (Hsp d Hd) as (Hd1 & _).
  cbn [lstrip_with rstrip_with]. rewrite Ha1. cbn [rstrip_with]. rewrite Hd1.
  rewrite Ha2, Ha3. cbn [int_body]. rewrite Ha, Hb, Hc, Hd. cbn [int_body].
  eexists. reflexivity.
Qed.

Lemma rep_greedy_done {R : Type} (p : ascii -> bool) (prev : option ascii) (s : string)
    (k : option ascii -> string -> option R) :
  rep_greedy p 0 (Some 0%nat) prev s k = k prev s.
Proof. destruct s; reflexivity. Qed.

(** The pattern for years only matches four digits, which [int] reads:
    [parse_year_from_text] raises on no string. *)
Lemma year_match_digits (prev : option ascii) (s : string) (m : string * option string) :
  match_at _year_re prev s = Some m ->
  exists a b c d,
    m.1 = String a (String b (String c (String d EmptyString))) /\
    is_digit a = true /\ is_digit b = true /\ is_digit c = true /\ is_digit d = true.
Proof.
  unfold match_at, _year_re. cbn [rmatch lit ms_rest ms_prev ms_group].
  destruct (xorb _ _); [|discriminate].
  destruct s as [|a [|b [|c [|d rest]]]]; cbn [rep_greedy Nat.pred option_map];
    rewrite ?rep_greedy_done;
    repeat match goal with
           | |- context [if ?x then _ else _] => destruct x eqn:?
           end; try discriminate.
  all: intros [= <-]; cbn [fst];
    change (String a (String b (String c (String d rest))))
      with (String a (String b (String c (String d EmptyString))) +:+ rest);
    rewrite consumed_prefix; exists a, b, c, d; split; [reflexivity|].
  all: repeat match goal with
              | H : is_char ?x ?y = true |- _ =>
                  apply Ascii.eqb_eq in H; subst y
              end; auto.
Qed.

Lemma year_search_digits (s : string) :
  forall (prev : option ascii) (m : string * option string),
    search_from _year_re prev s = Some m ->
    exists y, py_int m.1 = Some y.
Proof.
  induction s as [|x s IH]; intros prev m; cbn [search_from];
    destruct (match_at _year_re prev _) as [m'|] eqn:Hm.
  - intros [= <-]. apply year_match_digits in Hm as (a & b & c & d & -> & H).
    apply digit_string_int; apply H.
  - discriminate.
  - intros [= <-]. apply year_match_digits in Hm as (a & b & c & d & -> & H).
    apply digit_string_int; apply H.
  - apply IH.
Qed.

Lemma parsers_return_on_strings (s : string) :
  (exists r, parse_price (VStr s) = Ok r) /\
  (exists r, parse_miles (VStr s) = Ok r) /\
  (exists r, parse_year_from_text (VStr s) = Ok r).
Proof.
  unfold parse_price, parse_miles, parse_year_from_text.
  destruct (negb (truthy (VStr s))); [repeat split; eauto|].
  split; [destruct (re_search _price_re (replace_char nbsp " " s)); eauto|].
  split; [destruct (re_search _miles_re (replace_char nbsp " " s)); eauto|].
  unfold re_search. destruct (search_from _year_re None s) as [m|] eqn:Hm; [|eauto].
  destruct (year_search_digits _ _ _ Hm) as [y Hy]. cbn [fst] in Hy |- *.
  rewrite Hy. eauto.
Qed.

(** ** URLs: the shape of what [urlsplit] returns *)

Lemma remove_unsafe_filter (s : string) : remove_unsafe s = filter_string url_safe s.
Proof.
  unfold remove_unsafe, remove_char, url_safe.
  induction s as [|c s IH]; [reflexivity|]. cbn [filter_string].
  destruct (is_char tab c); cbn [filter_string negb andb]; [exact IH|].
  destruct (is_char cr c); cbn [filter_string negb andb]; [exact IH|].
  destruct (is_char lf c); cbn [filter_string negb andb]; [exact IH|].
  rewrite IH. reflexivity.
Qed.

Lemma scheme_char_safe (c : ascii) : scheme_chars c = true -> url_safe c = true.
Proof. each_char c. Qed.

Lemma scheme_char_not_colon (c : ascii) :
  scheme_chars c = true -> not_a (is_char ":") c = true.
Proof. each_char c. Qed.

Lemma scheme_char_lower (c : ascii) :
  scheme_chars c = true -> scheme_chars (py_lower_char c) = true.
Proof. each_char c. Qed.

Lemma alpha_lower (c : ascii) :
  is_ascii_alpha c = true -> is_ascii_alpha (py_lower_char c) = true.
Proof. each_char c. Qed.

Lemma lower_lower (c : ascii) : py_lower_char (py_lower_char c) = py_lower_char c.
Proof. each_char c. Qed.

Lemma alpha_not_c0 (c : ascii) :
  is_ascii_alpha c = true -> not_a c0_or_space c = true.
Proof. each_char c. Qed.

Lemma not_c0_safe (c : ascii) : not_a c0_or_space c = true -> url_safe c = true.
Proof. each_char c. Qed.

Lemma py_lower_idem (s : string) : py_lower (py_lower s) = py_lower s.
Proof.
  unfold py_lower. induction s as [|c s IH]; simpl; [reflexivity|].
  rewrite lower_lower, IH. reflexivity.
Qed.

Lemma is_char_eq (a c : ascii) : is_char a c = true -> c = a.
Proof. unfold is_char. intros H. apply Ascii.eqb_eq in H. congruence. Qed.

Lemma is_delim_cases (c : ascii) :
  is_delim c = true -> c = "/"%char \/ c = "?"%char \/ c = "#"%char.
Proof.
  unfold is_delim. rewrite !orb_true_iff.
  intros [[H|H]|H]; apply is_char_eq in H; auto.
Qed.

(** The two ways [split_scheme] ends. *)
Lemma split_scheme_cases (d s : string) :
  split_scheme d s = (d, s) \/
  exists pre rest c t,
    s = pre +:+ String ":" rest /\ pre = String c t /\
    is_ascii_alpha c = true /\ forallb_string scheme_chars pre = true /\
    split_scheme d s = (py_lower pre, rest).
Proof.
  unfold split_scheme.
  pose proof (break_at_app (is_char ":") s) as Happ.
  pose proof (break_at_snd (is_char ":") s) as Hsnd.
  destruct (break_at (is_char ":") s) as [pre post]. simpl in Happ, Hsnd.
  destruct post as [|x rest]; [left; reflexivity|].
  destruct pre as [|c t]; [left; reflexivity|].
  destruct (is_ascii_alpha c && forallb_string scheme_chars (String c t)) eqn:E;
    [|left; reflexivity].
  apply andb_true_iff in E as [Ha Hf]. simpl in Hsnd. apply is_char_eq in Hsnd.
  subst x. right. exists (String c t), rest, c, t. auto.
Qed.

Lemma split_scheme_success (d pre rest : string) (c : ascii) (t : string) :
  pre = String c t -> is_ascii_alpha c = true ->
  forallb_string scheme_chars pre = true ->
  split_scheme d (pre +:+ String ":" rest) = (py_lower pre, rest).
Proof.
  intros -> Ha Hf. unfold split_scheme.
  rewrite break_at_join.
  - rewrite Ha, Hf. reflexivity.
  - eapply forallb_string_impl; [|exact Hf]. apply scheme_char_not_colon.
  - reflexivity.
Qed.

Lemma split_scheme_slash (d s : string) :
  starts_with_a (is_char "/") s -> split_scheme d s = (d, s).
Proof.
  destruct s as [|c s]; [reflexivity|]. simpl. intros H. apply is_char_eq in H.
  subst c. unfold split_scheme. cbn [break_at].
  change (is_char ":" "/") with false. cbn iota.
  destruct (break_at (is_char ":") s) as [a b].
  destruct b; reflexivity.
Qed.

Lemma split_scheme_prefix (path tail : string) :
  split_scheme EmptyString (path +:+ tail) = (EmptyString, path +:+ tail) ->
  split_scheme EmptyString path = (EmptyString, path).
Proof.
  intros Hfail.
  destruct (split_scheme_cases EmptyString path)
    as [H | (pre & rest & c & t & -> & Hpre & Ha & Hf & _)]; [exact H|].
  rewrite append_assoc' in Hfail. simpl in Hfail.
  rewrite (split_scheme_success _ _ _ c t Hpre Ha Hf) in Hfail.
  subst pre. discriminate.
Qed.

Lemma path_after_netloc (rest : string) :
  starts_with_a is_delim rest ->
  starts_with_a (is_char "/")
    (break_at (is_char "?") (break_at (is_char "#") rest).1).1.
Proof.
  destruct rest as [|x rest]; [intros _; exact I|]. simpl.
  intros Hx. apply is_delim_cases in Hx as [-> | [-> | ->]]; cbn [break_at].
  - change (is_char "#" "/") with false. cbn iota.
    destruct (break_at (is_char "#") rest) as [a b]. cbn [fst break_at].
    change (is_char "?" "/") with false. cbn iota.
    destruct (break_at (is_char "?") a). reflexivity.
  - change (is_char "#" "?") with false. cbn iota.
    destruct (break_at (is_char "#") rest) as [a b]. cbn [fst break_at].
    change (is_char "?" "?") with true. cbn iota. exact I.
  - change (is_char "#" "#") with true. cbn iota. exact I.
Qed.

Lemma startswith_slash (s : string) :
  startswith "/" s = true <-> exists t, s = String "/" t.
Proof.
  destruct s as [|c s]; simpl.
  - split; [discriminate | intros [t Ht]; discriminate].
  - rewrite andb_true_r. split.
    + intros H. apply is_char_eq in H. subst. eauto.
    + intros [t [= -> _]]. reflexivity.
Qed.

Lemma starts_with_slash (s : string) :
  starts_with_a (is_char "/") s <-> s = EmptyString \/ startswith "/" s = true.
Proof.
  destruct s as [|c s]; simpl; [tauto|]. rewrite andb_true_r.
  split; [auto | intros [H|H]; [discriminate | exact H]].
Qed.

Section Claims.

Variable validator : string -> bool.

Abbreviation urlsplit := (urlsplit validator).
Abbreviation _normalize_url := (_normalize_url validator).
Abbreviation normalize_str := (normalize_str validator).
Abbreviation _coerce_listing := (_coerce_listing validator).
Abbreviation _dedupe_and_trim := (_dedupe_and_trim validator).
Abbreviation dedupe_loop := (dedupe_loop validator).
Abbreviation scraper_finish := (scraper_finish validator).
Abbreviation query_listings_async := (query_listings_async validator).
Abbreviation netloc_passes := (netloc_passes validator).
Abbreviation parts_ok := (parts_ok validator).
Abbreviation first_with_url := (first_with_url validator).
Abbreviation merged := (merged validator).
Abbreviation before_sort := (before_sort validator).

(** ** Record coercion *)

(** C6: the documented raw candidate coerces to price 9000, miles 30000,
    year 2015 and the URL resolved against the base, whatever the source
    tag. *)
Theorem coerce_documented_candidate (source : string) :
  exists r,
    _coerce_listing
      [("listPrice", VStr "$9,000"); ("mileage", VStr "30,000 miles");
       ("year", VStr "2015"); ("url", VStr "/vdp/1")] source "https://site.com"
    = Ok r /\
    l_source r = source /\
    l_price r = Some 9000 /\
    l_miles r = Some 30000 /\
    l_year r = VInt 2015 /\
    l_url r = VStr "https://site.com/vdp/1".
Proof. eexists. repeat split; vm_compute; reflexivity. Qed.

(** ** URL normalisation *)

Lemma cleaned_safe (u : string) : forallb_string url_safe (cleaned u) = true.
Proof. unfold cleaned. rewrite remove_unsafe_filter. apply filter_string_forallb. Qed.

Lemma cleaned_head (u : string) : starts_with_a (not_a c0_or_space) (cleaned u).
Proof.
  unfold cleaned. rewrite remove_unsafe_filter.
  pose proof (lstrip_head c0_or_space u) as H.
  destruct (lstrip_with c0_or_space u) as [|c t]; [exact I|]. simpl in *.
  rewrite (not_c0_safe c H). exact H.
Qed.

Lemma slash_not_c0 (s : string) :
  starts_with_a (is_char "/") s -> starts_with_a (not_a c0_or_space) s.
Proof.
  destruct s as [|c s]; [auto|]. simpl. intros H. apply is_char_eq in H.
  subst. reflexivity.
Qed.

Lemma urlsplit_unfold (u : string) :
  urlsplit u EmptyString
  = (let '(scheme, url) := split_scheme EmptyString (cleaned u) in
     let* located :=
       (if startswith "//" url then
          let '(netloc, rest) := _splitnetloc url in
          if negb (netloc_passes netloc) then Raise ValueError
          else Ok (netloc, rest)
        else Ok (EmptyString, url)) in
     let '(netloc, url) := located in
     let '(url, fragment) := split_first "#" url in
     let '(url, query) := split_first "?" url in
     Ok (mkSplit scheme netloc url query fragment)).
Proof.
  unfold urlsplit, cleaned, netloc_passes.
  change (remove_unsafe (rstrip_with c0_or_space (lstrip_with c0_or_space "")))
    with EmptyString.
  destruct (split_scheme "" _) as [scheme url].
  destruct (startswith "//" url); [|reflexivity].
  destruct (_splitnetloc url) as [netloc rest].
  destruct (has_char "[" netloc), (has_char "]" netloc), (validator netloc);
    reflexivity.
Qed.

Lemma urlsplit_parts_ok (u : string) (sp : SplitResult) :
  urlsplit u EmptyString = Ok sp ->
  parts_ok (sr_scheme sp) (sr_netloc sp) (sr_path sp).
Proof.
  rewrite urlsplit_unfold.
  pose proof (cleaned_safe u) as Hsafe. pose proof (cleaned_head u) as Hhead.
  set (u2 := cleaned u) in *.
  assert (Hscheme : exists sch rest,
            split_scheme "" u2 = (sch, rest) /\ scheme_ok sch /\
            forallb_string url_safe rest = true /\
            (sch = "" -> rest = u2)).
  { destruct (split_scheme_cases "" u2)
      as [H | (pre & rest & c & t & Hu2 & Hpre & Ha & Hf & H)].
    - exists "", u2. repeat split; auto. left. reflexivity.
    - exists (py_lower pre), rest. repeat split; auto.
      + right. subst pre. exists (py_lower_char c), (py_lower t).
        repeat split.
        * apply alpha_lower, Ha.
        * eapply map_string_forallb; [|exact Hf]. apply scheme_char_lower.
        * apply py_lower_idem.
      + rewrite Hu2, forallb_string_app in Hsafe.
        apply andb_true_iff in Hsafe as [_ Hsafe]. simpl in Hsafe. exact Hsafe.
      + subst pre. discriminate. }
  destruct Hscheme as (sch & rest & Hss & Hsch & Hrest & Hbare). rewrite Hss.
  assert (Hpath : forall r3,
            forallb_string url_safe r3 = true ->
            let path := (break_at (is_char "?") (break_at (is_char "#") r3).1).1 in
            forallb_string url_safe path = true /\
            forallb_string (not_a (is_char "#")) path = true /\
            forallb_string (not_a (is_char "?")) path = true).
  { intros r3 Hr3 path. subst path. repeat split.
    - apply break_at_pieces, break_at_pieces, Hr3.
    - apply break_at_pieces, break_at_fst.
    - apply break_at_fst. }
  destruct (startswith "//" rest) eqn:Hsl.
  - unfold _splitnetloc.
    pose proof (break_at_fst is_delim (drop_string 2 rest)) as Hnd.
    pose proof (break_at_snd is_delim (drop_string 2 rest)) as Hr3.
    pose proof (break_at_pieces url_safe is_delim (drop_string 2 rest)
                  (drop_string_forallb _ _ _ Hrest)) as [Hn3 Hs3].
    destruct (break_at is_delim (drop_string 2 rest)) as [netloc r3].
    simpl in Hnd, Hr3, Hn3, Hs3.
    destruct (netloc_passes netloc) eqn:Hpass; simpl; [|discriminate].
    unfold split_first.
    destruct (Hpath r3 Hs3) as (Hp1 & Hp2 & Hp3).
    pose proof (path_after_netloc r3 Hr3) as Hroot.
    destruct (break_at (is_char "#") r3) as [p4 frag]. cbn [fst snd] in *.
    destruct (break_at (is_char "?") p4) as [path query]. cbn [fst snd] in *.
    intros [= <-]. simpl. constructor; auto.
    intros _ _. split; [apply slash_not_c0, Hroot | apply split_scheme_slash, Hroot].
  - simpl. unfold split_first.
    destruct (Hpath rest Hrest) as (Hp1 & Hp2 & Hp3).
    pose proof (break_at_app (is_char "#") rest) as Happ1.
    pose proof (break_at_app (is_char "?") (break_at (is_char "#") rest).1) as Happ2.
    pose proof (break_at_head (is_char "?") (break_at (is_char "#") rest).1) as Hh2.
    pose proof (break_at_head (is_char "#") rest) as Hh1.
    destruct (break_at (is_char "#") rest) as [p4 frag]. cbn [fst snd] in *.
    destruct (break_at (is_char "?") p4) as [path query]. cbn [fst snd] in *.
    intros [= <-]. simpl. constructor; auto.
    + intros []. reflexivity.
    + intros Hs _. pose proof (Hbare Hs) as Hu2. rewrite Hs, Hu2 in Hss.
      rewrite Hu2 in *. rename Hss into Hfail. split.
      * destruct path as [|c t]; [exact I|].
        destruct (Hh2 c t eq_refl) as [t' ->].
        destruct (Hh1 c t' eq_refl) as [t'' Hc]. rewrite Hc in Hhead. exact Hhead.
      * apply (split_scheme_prefix path (query +:+ frag)).
        rewrite <- append_assoc', Happ2, Happ1. exact Hfail.
Qed.

Lemma split_first_none (c : ascii) (s : string) :
  forallb_string (not_a (is_char c)) s = true -> split_first c s = (s, EmptyString).
Proof. intros H. unfold split_first. rewrite (break_at_none _ _ H). reflexivity. Qed.

(** [urlsplit] on a string it leaves as it is. *)
Lemma urlsplit_of_clean (n sch X netloc path : string) :
  starts_with_a (not_a c0_or_space) n ->
  forallb_string url_safe n = true ->
  split_scheme EmptyString n = (sch, X) ->
  (startswith "//" X = true /\ _splitnetloc X = (netloc, path) /\
   netloc_passes netloc = true
   \/ startswith "//" X = false /\ netloc = EmptyString /\ path = X) ->
  forallb_string (not_a (is_char "#")) path = true ->
  forallb_string (not_a (is_char "?")) path = true ->
  urlsplit n EmptyString = Ok (mkSplit sch netloc path EmptyString EmptyString).
Proof.
  intros Hhead Hsafe Hss Hloc Hhash Hq. rewrite urlsplit_unfold. unfold cleaned.
  rewrite (lstrip_fixed _ _ Hhead), remove_unsafe_filter,
    (filter_string_fixed _ _ Hsafe), Hss.
  destruct Hloc as [(-> & -> & ->) | (-> & -> & ->)]; simpl;
    rewrite (split_first_none _ _ Hhash), (split_first_none _ _ Hq); reflexivity.
Qed.

Lemma recompose_eq (sch netloc path : string) :
  recompose sch netloc path
  = if truthy_str sch then sch +:+ ":" +:+ hier_part sch netloc path
    else hier_part sch netloc path.
Proof. reflexivity. Qed.

Lemma normalize_str_eq (u : string) (sp : SplitResult) :
  urlsplit u EmptyString = Ok sp ->
  normalize_str u = Ok (recompose (sr_scheme sp) (sr_netloc sp) (sr_path sp)).
Proof. unfold normalize_str. intros ->. reflexivity. Qed.

Lemma is_char_refl (a : ascii) : is_char a a = true.
Proof. apply Ascii.eqb_refl. Qed.

Lemma rooted_path (path : string) :
  starts_with_a (is_char "/") path ->
  truthy_str path && negb (startswith "/" path) = false.
Proof.
  destruct path as [|c t]; [reflexivity|]. simpl. intros ->. reflexivity.
Qed.

Lemma rooted_is_delim (path : string) :
  starts_with_a (is_char "/") path -> starts_with_a is_delim path.
Proof.
  destruct path as [|c t]; [auto|]. simpl. unfold is_delim. intros ->. reflexivity.
Qed.

Lemma rooted_rooted (path : string) : starts_with_a (is_char "/") (rooted path).
Proof.
  unfold rooted. destruct path as [|c t]; [exact I|]. simpl.
  destruct (is_char "/" c) eqn:E; simpl; [exact E | apply is_char_refl].
Qed.

Lemma rooted_no_double (path : string) :
  startswith "//" path = false -> startswith "//" (rooted path) = false.
Proof.
  unfold rooted. destruct path as [|c t]; [reflexivity|]. simpl.
  destruct (is_char "/" c) eqn:E; simpl.
  - rewrite ?E. simpl. auto.
  - rewrite ?is_char_refl, ?E. reflexivity.
Qed.

Lemma rooted_forallb (q : ascii -> bool) (path : string) :
  q "/"%char = true -> forallb_string q path = true ->
  forallb_string q (rooted path) = true.
Proof.
  intros Hq Hp. unfold rooted.
  destruct (truthy_str path && negb (startswith "/" path)); [|exact Hp].
  simpl. rewrite Hq, Hp. reflexivity.
Qed.

Lemma hier_part_no_netloc (sch path : string) :
  hier_part sch EmptyString path
  = if truthy_str sch && in_list sch uses_netloc && negb (startswith "//" path)
    then "//" +:+ rooted path else path.
Proof. reflexivity. Qed.

Lemma hier_part_netloc (sch : string) (a : ascii) (nl path : string) :
  hier_part sch (String a nl) path = "//" +:+ String a nl +:+ rooted path.
Proof. reflexivity. Qed.

Lemma hier_part_safe (sch netloc path : string) :
  parts_ok sch netloc path -> forallb_string url_safe (hier_part sch netloc path) = true.
Proof.
  intros H.
  assert (Hr : forallb_string url_safe (rooted path) = true)
    by (apply rooted_forallb; [reflexivity | apply H]).
  destruct netloc as [|a nl].
  - rewrite hier_part_no_netloc. destruct (_ && _); [exact Hr | apply H].
  - rewrite hier_part_netloc.
    change ("//" +:+ String a nl +:+ rooted path)
      with (String "/" (String "/" (String a nl +:+ rooted path))).
    cbn [forallb_string]. rewrite forallb_string_app, (po_netloc_safe _ _ _ _ H), Hr.
    reflexivity.
Qed.

(** Parsing the part after the scheme again gives a netloc and a path
    that recompose to the same string. *)
Lemma hier_part_reparse (sch netloc path : string) :
  parts_ok sch netloc path ->
  netloc <> EmptyString \/ startswith "//" path = false ->
  let X := hier_part sch netloc path in
  exists netloc' path',
    (startswith "//" X = true /\ _splitnetloc X = (netloc', path') /\
     netloc_passes netloc' = true
     \/ startswith "//" X = false /\ netloc' = EmptyString /\ path' = X) /\
    forallb_string (not_a (is_char "#")) path' = true /\
    forallb_string (not_a (is_char "?")) path' = true /\
    hier_part sch netloc' path' = X.
Proof.
  intros H Hstable X. subst X.
  pose proof (rooted_rooted path) as Hr.
  assert (Hrh : forallb_string (not_a (is_char "#")) (rooted path) = true)
    by (apply rooted_forallb; [reflexivity | apply H]).
  assert (Hrq : forallb_string (not_a (is_char "?")) (rooted path) = true)
    by (apply rooted_forallb; [reflexivity | apply H]).
  assert (Hdouble : forall s, startswith "//" ("//" +:+ s) = true)
    by (intros s; cbn [String.append startswith]; rewrite !is_char_refl; reflexivity).
  assert (Hnet : forall n p, _splitnetloc ("//" +:+ n +:+ p) = break_at is_delim (n +:+ p))
    by reflexivity.
  destruct netloc as [|a nl].
  - (* no netloc *)
    destruct Hstable as [Hne | Hnd]; [congruence|].
    rewrite hier_part_no_netloc, Hnd.
    change (negb false) with true. rewrite andb_true_r.
    destruct (truthy_str sch && in_list sch uses_netloc) eqn:Hcond.
    + exists EmptyString, (rooted path).
      split; [left; split; [apply Hdouble|split; [|reflexivity]]|].
      * change ("//" +:+ rooted path) with ("//" +:+ "" +:+ rooted path).
        rewrite Hnet.
        apply (break_at_join is_delim EmptyString (rooted path));
          [reflexivity | apply rooted_is_delim, Hr].
      * split; [exact Hrh|]. split; [exact Hrq|].
        rewrite hier_part_no_netloc, Hcond, (rooted_no_double _ Hnd).
        unfold rooted at 1. rewrite (rooted_path _ Hr). reflexivity.
    + exists EmptyString, path.
      split; [right; auto|].
      split; [apply H|]. split; [apply H|].
      rewrite hier_part_no_netloc, Hcond. reflexivity.
  - (* a netloc: the path is empty or rooted *)
    assert (Hroot : starts_with_a (is_char "/") path)
      by (apply (po_path_rooted _ _ _ _ H); discriminate).
    assert (Hp : rooted path = path)
      by (unfold rooted; rewrite (rooted_path _ Hroot); reflexivity).
    rewrite hier_part_netloc, Hp.
    exists (String a nl), path.
    split; [left; split; [apply Hdouble|split]|].
    + rewrite Hnet.
      apply (break_at_join is_delim (String a nl) path);
        [apply H | apply rooted_is_delim, Hroot].
    + apply H.
    + split; [apply H|]. split; [apply H|].
      rewrite hier_part_netloc, Hp. reflexivity.
Qed.

(** Normalising a normalised URL changes nothing, unless the URL has an
    empty netloc before a path that starts with two slashes. *)
Lemma recompose_fixed (sch netloc path : string) :
  parts_ok sch netloc path ->
  netloc <> EmptyString \/ startswith "//" path = false ->
  normalize_str (recompose sch netloc path) = Ok (recompose sch netloc path).
Proof.
  intros H Hstable.
  destruct (hier_part_reparse sch netloc path H Hstable)
    as (netloc' & path' & Hloc & Hhash & Hq & Hsame).
  pose proof (hier_part_safe sch netloc path H) as Hsafe.
  assert (Hsplit : urlsplit (recompose sch netloc path) EmptyString
                   = Ok (mkSplit sch netloc' path' EmptyString EmptyString)).
  { rewrite recompose_eq.
    destruct (po_scheme _ _ _ _ H) as [Hs | (c & t & Hs & Ha & Hf & Hlow)].
    - (* no scheme *)
      subst sch. change (truthy_str "") with false. cbv iota.
      assert (Hbare : starts_with_a (not_a c0_or_space) (hier_part "" netloc path) /\
                      split_scheme "" (hier_part "" netloc path)
                      = ("", hier_part "" netloc path)).
      { destruct netloc as [|a nl].
        - rewrite hier_part_no_netloc. change (truthy_str "") with false.
          cbv iota. apply (po_bare_path _ _ _ _ H); reflexivity.
        - rewrite hier_part_netloc.
          split; [reflexivity | apply split_scheme_slash; apply is_char_refl]. }
      destruct Hbare as [Hhead Hss].
      apply (urlsplit_of_clean _ "" (hier_part "" netloc path)); assumption.
    - subst sch. change (truthy_str (String c t)) with true. cbv iota.
      apply (urlsplit_of_clean _ (String c t)
               (hier_part (String c t) netloc path)); try assumption.
      + apply (alpha_not_c0 c Ha).
      + rewrite forallb_string_app.
        rewrite (forallb_string_impl _ _ _ scheme_char_safe Hf).
        change (":" +:+ hier_part (String c t) netloc path)
          with (String ":" (hier_part (String c t) netloc path)).
        cbn [forallb_string andb]. change (url_safe ":") with true. exact Hsafe.
      + pose proof (split_scheme_success "" (String c t)
                      (hier_part (String c t) netloc path) c t eq_refl Ha Hf) as Hss.
        rewrite Hlow in Hss. exact Hss. }
  unfold normalize_str. rewrite Hsplit. cbn [bind sr_scheme sr_netloc sr_path].
  fold (recompose sch netloc' path'). rewrite !recompose_eq, Hsame. reflexivity.
Qed.

Lemma hier_part_forallb (q : ascii -> bool) (sch netloc path : string) :
  q "/"%char = true ->
  forallb_string q netloc = true -> forallb_string q path = true ->
  forallb_string q (hier_part sch netloc path) = true.
Proof.
  intros Hq Hn Hp.
  assert (Hr : forallb_string q (rooted path) = true)
    by (apply rooted_forallb; assumption).
  destruct netloc as [|a nl].
  - rewrite hier_part_no_netloc. destruct (_ && _); [|exact Hp].
    change ("//" +:+ rooted path) with (String "/" (String "/" (rooted path))).
    cbn [forallb_string]. rewrite Hq, Hr. reflexivity.
  - rewrite hier_part_netloc.
    change ("//" +:+ String a nl +:+ rooted path)
      with (String "/" (String "/" (String a nl +:+ rooted path))).
    cbn [forallb_string]. rewrite forallb_string_app, Hq, Hr, Hn. reflexivity.
Qed.

Lemma recompose_forallb (q : ascii -> bool) (sch netloc path : string) :
  q "/"%char = true -> q ":"%char = true ->
  (forall c, scheme_chars c = true -> q c = true) ->
  parts_ok sch netloc path ->
  forallb_string q netloc = true -> forallb_string q path = true ->
  forallb_string q (recompose sch netloc path) = true.
Proof.
  intros Hslash Hcolon Hsch H Hn Hp. rewrite recompose_eq.
  pose proof (hier_part_forallb q sch netloc path Hslash Hn Hp) as Hh.
  destruct (po_scheme _ _ _ _ H) as [-> | (c & t & -> & _ & Hf & _)]; [exact Hh|].
  change (truthy_str (String c t)) with true. cbv iota.
  rewrite forallb_string_app, (forallb_string_impl _ _ _ Hsch Hf).
  change (":" +:+ hier_part (String c t) netloc path)
    with (String ":" (hier_part (String c t) netloc path)).
  cbn [forallb_string andb]. rewrite Hcolon, Hh. reflexivity.
Qed.

Lemma delim_free (c : ascii) (netloc : string) :
  c = "?"%char \/ c = "#"%char ->
  forallb_string (not_a is_delim) netloc = true ->
  forallb_string (not_a (is_char c)) netloc = true.
Proof.
  intros Hc. apply forallb_string_impl. intros x. unfold not_a, is_delim.
  rewrite !negb_true_iff, !orb_false_iff. intros [[_ Hq] Hh].
  destruct Hc as [-> | ->]; assumption.
Qed.

Lemma scheme_char_not_hash (c : ascii) :
  scheme_chars c = true -> not_a (is_char "#") c = true.
Proof. each_char c. Qed.

Lemma scheme_char_not_query (c : ascii) :
  scheme_chars c = true -> not_a (is_char "?") c = true.
Proof. each_char c. Qed.

Lemma normalize_url_nonempty (u : string) :
  truthy_str u = true ->
  _normalize_url (VStr u) = match normalize_str u with
                            | Ok n => Ok (VStr n)
                            | Raise e => Raise e
                            end.
Proof. unfold _normalize_url. simpl. intros ->. reflexivity. Qed.

Lemma normalize_url_fixed (n : string) :
  normalize_str n = Ok n -> _normalize_url (VStr n) = Ok (VStr n).
Proof.
  destruct n as [|c t]; [reflexivity|].
  intros H. rewrite normalize_url_nonempty, H; reflexivity.
Qed.

(** A string result of [_normalize_url] that is not empty comes from a
    string that [urlsplit] accepts. *)
Lemma normalize_url_inv (v : pyval) (s : string) :
  _normalize_url v = Ok (VStr s) -> truthy_str s = true ->
  exists u sp, v = VStr u /\ urlsplit u EmptyString = Ok sp /\
               s = recompose (sr_scheme sp) (sr_netloc sp) (sr_path sp).
Proof.
  unfold _normalize_url. intros H Hs.
  destruct (negb (truthy v)) eqn:Hv.
  - injection H as ->. simpl in Hv. rewrite Hs in Hv. discriminate.
  - destruct v as [| | | |u| |]; try discriminate.
    unfold normalize_str in H.
    destruct (urlsplit u "") as [sp|e] eqn:Hsp; simpl in H; [|discriminate].
    injection H as <-. exists u, sp. auto.
Qed.


Lemma normalize_str_inv (u n : string) :
  normalize_str u = Ok n ->
  exists sp, urlsplit u EmptyString = Ok sp /\
             n = recompose (sr_scheme sp) (sr_netloc sp) (sr_path sp).
Proof.
  unfold normalize_str.
  destruct (urlsplit u "") as [sp|e]; simpl; [|discriminate].
  intros [= <-]. eauto.
Qed.

Lemma normalize_str_clean (u n : string) :
  normalize_str u = Ok n -> has_char "?" n = false /\ has_char "#" n = false.
Proof.
  intros H. apply normalize_str_inv in H as (sp & Hsp & ->).
  pose proof (urlsplit_parts_ok _ _ Hsp) as Hok.
  rewrite !has_char_forallb, !negb_false_iff.
  split; apply recompose_forallb; try reflexivity; try apply Hok;
    try (apply delim_free; [auto | apply Hok]).
  - apply scheme_char_not_query.
  - apply scheme_char_not_hash.
Qed.


(** ** Deduplication *)

Lemma first_with_url_later (r0 r : Listing) (rows : list Listing) (s : string) :
  _normalize_url (l_url r0) <> Ok (VStr s) ->
  first_with_url rows r s -> first_with_url (r0 :: rows) r s.
Proof.
  intros Hne (pre & post & -> & Hn & Hs & Hpre).
  exists (r0 :: pre), post. repeat split; try assumption.
  intros r' [<- | Hin]; [exact Hne | apply Hpre, Hin].
Qed.

Lemma first_with_url_in (rows : list Listing) (r : Listing) (s : string) :
  first_with_url rows r s -> In r rows.
Proof. intros (pre & post & -> & _). apply in_or_app. right. left. reflexivity. Qed.

(** What the loop adds to [uniq]: rewritten first occurrences of URLs
    not seen before, each URL once. *)
Lemma dedupe_loop_spec (k : Z) (rows : list Listing) :
  forall (uniq : list Listing) (seen : gset string) (res : list Listing),
    dedupe_loop rows uniq seen k = Ok res ->
    exists added : list Listing,
      res = (uniq ++ added)%list /\
      NoDup (map l_url added) /\
      Forall (fun o => exists r s,
                first_with_url rows r s /\ (s ∉ seen) /\ o = set_url r (VStr s)) added.
Proof.
  induction rows as [|r rows IH]; intros uniq seen res; simpl.
  - intros [= <-]. exists []. rewrite app_nil_r.
    repeat split; constructor.
  - destruct (_normalize_url (l_url r)) as [u|e] eqn:Hn; simpl; [|discriminate].
    assert (Hskip : (forall s0, u = VStr s0 -> truthy_str s0 = true -> s0 ∈ seen) ->
              dedupe_loop rows uniq seen k = Ok res ->
              exists added, res = (uniq ++ added)%list /\ NoDup (map l_url added) /\
                Forall (fun o => exists r0 s0, first_with_url (r :: rows) r0 s0 /\
                                   (s0 ∉ seen) /\ o = set_url r0 (VStr s0)) added).
    { intros Hs Hrest. destruct (IH _ _ _ Hrest) as (added & -> & Hnd & Hall).
      exists added. repeat split; try assumption.
      eapply List.Forall_impl; [|exact Hall].
      intros o (r0 & s0 & Hfirst & Hs0 & ->). exists r0, s0.
      repeat split; try assumption.
      apply first_with_url_later; [|assumption].
      rewrite Hn. intros [= ->]. apply Hs0, Hs; [reflexivity|].
      destruct Hfirst as (_ & _ & _ & _ & Ht & _). exact Ht. }
    destruct u as [| | | |s| |]; try (apply Hskip; intros s0; discriminate).
    destruct (truthy_str s) eqn:Hts; simpl.
    2:{ apply Hskip. intros s0 [= <-]. congruence. }
    destruct (bool_decide (s ∈ seen)) eqn:Hseen.
    { apply bool_decide_eq_true in Hseen. apply Hskip. intros s0 [= <-] _. exact Hseen. }
    apply bool_decide_eq_false in Hseen.
    assert (Hfirst : first_with_url (r :: rows) r s).
    { exists [], rows. repeat split; try assumption. intros r' []. }
    destruct (Z.of_nat (length (uniq ++ [set_url r (VStr s)])) >=? k).
    + intros [= <-]. exists [set_url r (VStr s)].
      repeat split.
      * simpl. apply NoDup_singleton.
      * constructor; [|constructor]. exists r, s. auto.
    + intros Hrest. destruct (IH _ _ _ Hrest) as (added & -> & Hnd & Hall).
      exists (set_url r (VStr s) :: added).
      rewrite <- app_assoc. repeat split.
      * simpl. apply NoDup_cons. split; [|exact Hnd].
        intros Hin. apply list_elem_of_In, in_map_iff in Hin as (o & Ho & Hin).
        rewrite List.Forall_forall in Hall.
        destruct (Hall o Hin) as (r0 & s0 & _ & Hs0 & ->).
        simpl in Ho. injection Ho as ->. set_solver.
      * constructor; [exists r, s; auto|].
        eapply List.Forall_impl; [|exact Hall].
        intros o (r0 & s0 & Hf0 & Hs0 & ->). exists r0, s0.
        repeat split; [|set_solver].
        apply first_with_url_later; [|assumption].
        rewrite Hn. intros [= ->]. set_solver.
Qed.

Lemma dedupe_and_trim_spec (rows uniq : list Listing) (k : Z) :
  _dedupe_and_trim rows k = Ok uniq ->
  NoDup (map l_url uniq) /\
  Forall (fun o => exists r s, first_with_url rows r s /\ o = set_url r (VStr s)) uniq.
Proof.
  intros H. apply dedupe_loop_spec in H as (added & -> & Hnd & Hall).
  split; [exact Hnd|].
  eapply List.Forall_impl; [|exact Hall].
  intros o (r & s & Hf & _ & ->). eauto.
Qed.

(** C10 (amended): normalising twice gives what normalising once gives
    for every URL whose split form does not have an empty netloc before a
    path that starts with two slashes; and every listing kept by
    [_dedupe_and_trim] carries the normalised form of the URL of a row,
    which is then a fixed point under the same condition. *)
Theorem normalize_idempotent_when_stable :
  (forall (u : string) (sp : SplitResult),
     urlsplit u EmptyString = Ok sp ->
     sr_netloc sp <> EmptyString \/ startswith "//" (sr_path sp) = false ->
     exists n, _normalize_url (VStr u) = Ok (VStr n) /\
               _normalize_url (VStr n) = Ok (VStr n)) /\
  (forall (rows uniq : list Listing) (k : Z) (o : Listing),
     _dedupe_and_trim rows k = Ok uniq -> In o uniq ->
     exists r u sp,
       In r rows /\ l_url r = VStr u /\ urlsplit u EmptyString = Ok sp /\
       _normalize_url (VStr u) = Ok (l_url o) /\
       (sr_netloc sp <> EmptyString \/ startswith "//" (sr_path sp) = false ->
        _normalize_url (l_url o) = Ok (l_url o))).
Proof.
  split.
  - intros u sp Hsp Hstable.
    pose proof (recompose_fixed _ _ _ (urlsplit_parts_ok _ _ Hsp) Hstable) as Hfix.
    destruct u as [|c t]; [exists ""; split; reflexivity|].
    exists (recompose (sr_scheme sp) (sr_netloc sp) (sr_path sp)).
    rewrite normalize_url_nonempty, (normalize_str_eq _ _ Hsp) by reflexivity.
    split; [reflexivity | apply normalize_url_fixed, Hfix].
  - intros rows uniq k o Hd Ho.
    apply dedupe_and_trim_spec in Hd as [_ Hall].
    rewrite List.Forall_forall in Hall.
    destruct (Hall o Ho) as (r & s & Hfirst & ->).
    pose proof (first_with_url_in _ _ _ Hfirst) as Hin.
    destruct Hfirst as (_ & _ & _ & Hn & Hs & _).
    destruct (normalize_url_inv _ _ Hn Hs) as (u & sp & Hu & Hsp & ->).
    exists r, u, sp. repeat split; try assumption.
    + rewrite <- Hu. exact Hn.
    + intros Hstable. simpl.
      apply normalize_url_fixed, recompose_fixed; [|exact Hstable].
      apply urlsplit_parts_ok with (u := u), Hsp.
Qed.

(** ** Orchestrator *)

Lemma query_unfold (year k : Z) (enrich : bool) (site : string)
    (at_rows cars_rows : result (list Listing)) (visit : nat -> vdp_page) :
  query_listings_async year k enrich site at_rows cars_rows visit
  = sort_rows
      (List.filter (fun r => truthy (l_url r))
         (if enrich
          then _enforce_year (enrich_loop visit 0 (merged year k site at_rows cars_rows) [])
                 year
          else merged year k site at_rows cars_rows)).
Proof.
  unfold query_listings_async, merged, merge_results, scrape_autotrader,
    scrape_cars, task_rows.
  destruct (in_list site ["both"; "autotrader"]), (in_list site ["both"; "cars"]);
    simpl; rewrite ?app_nil_r; reflexivity.
Qed.

(** What a scraper hands over: year-matching rows, one per normalised
    URL, each the first of its URL among the year-matching rows it
    gathered. *)
Lemma scraper_finish_spec (rows : result (list Listing)) (year k : Z) (o : Listing) :
  In o (task_rows (scraper_finish rows year k)) ->
  exists gathered r s,
    rows = Ok gathered /\
    first_with_url (_enforce_year gathered year) r s /\
    o = set_url r (VStr s).
Proof.
  unfold scraper_finish. destruct rows as [gathered|e]; simpl; [|tauto].
  destruct (_dedupe_and_trim (_enforce_year gathered year) k) as [uniq|e] eqn:Hd;
    simpl; [|tauto].
  intros Hin. apply dedupe_and_trim_spec in Hd as [_ Hall].
  rewrite List.Forall_forall in Hall.
  destruct (Hall o Hin) as (r & s & Hf & ->). eauto 6.
Qed.

Lemma scraper_finish_nodup (rows : result (list Listing)) (year k : Z) :
  NoDup (map l_url (task_rows (scraper_finish rows year k))).
Proof.
  unfold scraper_finish. destruct rows as [gathered|e]; simpl; [|constructor].
  destruct (_dedupe_and_trim (_enforce_year gathered year) k) as [uniq|e] eqn:Hd;
    simpl; [|constructor].
  apply dedupe_and_trim_spec in Hd as [Hnd _]. exact Hnd.
Qed.

Lemma merged_origin (year k : Z) (site : string)
    (at_rows cars_rows : result (list Listing)) (o : Listing) :
  In o (merged year k site at_rows cars_rows) ->
  exists gathered r s,
    (at_rows = Ok gathered \/ cars_rows = Ok gathered) /\
    first_with_url (_enforce_year gathered year) r s /\
    o = set_url r (VStr s).
Proof.
  unfold merged. intros Hin. apply in_app_or in Hin as [Hin | Hin].
  - destruct (in_list site ["both"; "autotrader"]); [|contradiction].
    apply scraper_finish_spec in Hin as (g & r & s & -> & Hf & ->). eauto 8.
  - destruct (in_list site ["both"; "cars"]); [|contradiction].
    apply scraper_finish_spec in Hin as (g & r & s & -> & Hf & ->). eauto 8.
Qed.

Lemma merged_year (year k : Z) (site : string)
    (at_rows cars_rows : result (list Listing)) (o : Listing) :
  In o (merged year k site at_rows cars_rows) -> py_eq_int (l_year o) year = true.
Proof.
  intros Hin. apply merged_origin in Hin as (g & r & s & _ & Hf & ->).
  apply first_with_url_in in Hf. unfold _enforce_year in Hf.
  apply filter_In in Hf as [_ Hy]. exact Hy.
Qed.

Lemma in_sort_rows (l : list Listing) (r : Listing) : In r (sort_rows l) <-> In r l.
Proof.
  split; apply Permutation_in; [|symmetry]; apply sort_rows_perm.
Qed.

Lemma enriched_row_id (visit : nat -> vdp_page) (i : nat) (r : Listing) :
  row_id (enriched_row visit i r) = row_id r.
Proof.
  unfold enriched_row, row_id. destruct (complete r); [reflexivity|].
  destruct (enrich_vdp_keeps (visit i) r) as (_ & _ & _ & _ & Hs & _ & _ & Hu).
  simpl in Hs, Hu. rewrite Hs, Hu. reflexivity.
Qed.

Lemma imap_enriched_ids (visit : nat -> vdp_page) (out : list Listing) :
  forall i : nat,
    map row_id (imap (fun j r => enriched_row visit (i + j) r) out) = map row_id out.
Proof.
  induction out as [|r out IH]; intros i; simpl; [reflexivity|].
  rewrite enriched_row_id. f_equal.
  rewrite <- (IH (S i)). f_equal. apply imap_ext. intros j x _. simpl.
  replace (i + S j)%nat with (S (i + j)) by lia. reflexivity.
Qed.

Lemma enrich_loop_ids (visit : nat -> vdp_page) (out : list Listing) :
  map row_id (enrich_loop visit 0 out []) = map row_id out.
Proof. rewrite enrich_loop_pointwise. apply imap_enriched_ids. Qed.

Lemma NoDup_map_filter {A B} (f : A -> B) (p : A -> bool) (l : list A) :
  NoDup (map f l) -> NoDup (map f (List.filter p l)).
Proof.
  induction l as [|x l IH]; simpl; [auto|].
  intros Hnd. apply NoDup_cons in Hnd as [Hx Hnd].
  destruct (p x); simpl; [|auto].
  apply NoDup_cons. split; [|auto].
  intros Hin. apply Hx. apply list_elem_of_In, in_map_iff in Hin as (y & <- & Hy).
  apply list_elem_of_In, in_map_iff. exists y. split; [reflexivity|].
  apply filter_In in Hy as [Hy _]. exact Hy.
Qed.

Lemma NoDup_row_id (l : list Listing) : NoDup (map l_url l) -> NoDup (map row_id l).
Proof.
  intros H. apply (NoDup_fmap_1 snd).
  rewrite <- list_fmap_compose. exact H.
Qed.

Lemma scraper_finish_tagged (src : string) (rows : result (list Listing))
    (year k : Z) (o : Listing) :
  tagged src rows -> In o (task_rows (scraper_finish rows year k)) -> l_source o = src.
Proof.
  intros Ht Hin. apply scraper_finish_spec in Hin as (g & r & s & -> & Hf & ->).
  apply first_with_url_in in Hf. unfold _enforce_year in Hf.
  apply filter_In in Hf as [Hin _]. simpl in Ht.
  rewrite List.Forall_forall in Ht. simpl. apply Ht, Hin.
Qed.

Lemma merged_nodup (year k : Z) (site : string)
    (at_rows cars_rows : result (list Listing)) :
  tagged "Autotrader" at_rows -> tagged "Cars.com" cars_rows ->
  NoDup (map row_id (merged year k site at_rows cars_rows)).
Proof.
  intros Hat Hcars. unfold merged. rewrite map_app. apply NoDup_app.
  split; [|split].
  - destruct (in_list site ["both"; "autotrader"]); [|constructor].
    apply NoDup_row_id, scraper_finish_nodup.
  - intros id Ha Hc.
    apply list_elem_of_In, in_map_iff in Ha as (a & <- & Ha).
    apply list_elem_of_In, in_map_iff in Hc as (c & Hid & Hc).
    destruct (in_list site ["both"; "autotrader"]); [|contradiction].
    destruct (in_list site ["both"; "cars"]); [|contradiction].
    apply (scraper_finish_tagged _ _ _ _ _ Hat) in Ha.
    apply (scraper_finish_tagged _ _ _ _ _ Hcars) in Hc.
    injection Hid as Hsrc _. rewrite Ha, Hc in Hsrc. discriminate.
  - destruct (in_list site ["both"; "cars"]); [|constructor].
    apply NoDup_row_id, scraper_finish_nodup.
Qed.

Lemma before_sort_ids (year k : Z) (enrich : bool) (site : string)
    (at_rows cars_rows : result (list Listing)) (visit : nat -> vdp_page) (o : Listing) :
  In o (before_sort year k enrich site at_rows cars_rows visit) ->
  exists o0, In o0 (merged year k site at_rows cars_rows) /\ row_id o0 = row_id o /\
             (enrich = false -> o0 = o).
Proof.
  unfold before_sort. destruct enrich; [|eauto].
  unfold _enforce_year. intros Hin. apply filter_In in Hin as [Hin _].
  apply (in_map row_id) in Hin. rewrite enrich_loop_ids in Hin.
  apply in_map_iff in Hin as (o0 & Hid & Hin). exists o0.
  repeat split; [assumption.. | discriminate].
Qed.

Lemma before_sort_nodup (year k : Z) (enrich : bool) (site : string)
    (at_rows cars_rows : result (list Listing)) (visit : nat -> vdp_page) :
  tagged "Autotrader" at_rows -> tagged "Cars.com" cars_rows ->
  NoDup (map row_id (before_sort year k enrich site at_rows cars_rows visit)).
Proof.
  intros Hat Hcars. pose proof (merged_nodup year k site _ _ Hat Hcars) as Hnd.
  unfold before_sort. destruct enrich; [|exact Hnd].
  apply NoDup_map_filter. rewrite enrich_loop_ids. exact Hnd.
Qed.

(** C1 (amended): of the listings one Source Scraper gathered with equal
    normalised URLs, the output keeps at most one, the first in that
    scraper's iteration order: two output listings with the same source
    tag have different URLs, and every output listing carries the URL and
    the tag of the first year-matching row of its scraper that normalises
    to that URL (and, without enrichment, is that row with its URL
    normalised). *)
Theorem one_listing_per_url_within_a_source (year k : Z) (enrich : bool) (site : string)
    (at_rows cars_rows : result (list Listing)) (visit : nat -> vdp_page) :
  tagged "Autotrader" at_rows ->
  tagged "Cars.com" cars_rows ->
  let out := query_listings_async year k enrich site at_rows cars_rows visit in
  (forall (i j : nat) (A B : Listing),
     i <> j -> out !! i = Some A -> out !! j = Some B ->
     l_source A = l_source B -> l_url A <> l_url B) /\
  (forall A : Listing,
     In A out ->
     exists gathered r s,
       (at_rows = Ok gathered \/ cars_rows = Ok gathered) /\
       first_with_url (_enforce_year gathered year) r s /\
       l_url A = VStr s /\ l_source A = l_source r /\
       (enrich = false -> A = set_url r (VStr s))).
Proof.
  intros Hat Hcars out. subst out. rewrite query_unfold.
  fold (before_sort year k enrich site at_rows cars_rows visit).
  split.
  - intros i j A B Hij Hi Hj Hsrc Hurl.
    assert (Hnd : NoDup (map row_id
              (sort_rows (List.filter (fun r => truthy (l_url r))
                 (before_sort year k enrich site at_rows cars_rows visit))))).
    { rewrite (Permutation_map row_id (sort_rows_perm _)).
      apply NoDup_map_filter, before_sort_nodup; assumption. }
    apply Hij. eapply NoDup_lookup; [exact Hnd| |].
    + rewrite list_lookup_fmap, Hi. reflexivity.
    + rewrite list_lookup_fmap, Hj. unfold row_id. simpl. congruence.
  - intros A HA. apply in_sort_rows, filter_In in HA as [HA _].
    apply before_sort_ids in HA as (o0 & Hin & Hid & Hsame).
    apply merged_origin in Hin as (g & r & s & Hg & Hf & ->).
    injection Hid as Hs Hu. exists g, r, s. simpl in Hs, Hu.
    repeat split; auto. intros He. symmetry. apply Hsame, He.
Qed.

(** C4: with a target year requested, every listing of the output has a
    year that is a number of exactly that value: the int itself, or a bool
    or a finite float of that value, as Python's [==] decides, and so
    never [None], a string or a float with a fraction; a row passes
    [_enforce_year] exactly when its year is such a number, and the rows
    that pass keep their order. *)
Theorem output_year_equals_target (year k : Z) (enrich : bool) (site : string)
    (at_rows cars_rows : result (list Listing)) (visit : nat -> vdp_page) :
  let out := query_listings_async year k enrich site at_rows cars_rows visit in
  (forall r : Listing, In r out -> is_number (l_year r) year) /\
  (forall (r : Listing) (z : Z), In r out -> l_year r = VInt z -> z = year) /\
  (forall r : Listing,
     In r out ->
     l_year r <> VNone /\ (forall s : string, l_year r <> VStr s) /\
     l_year r <> VFloat 1999.5) /\
  (forall (rows : list Listing) (r : Listing),
     In r (_enforce_year rows year) <-> In r rows /\ is_number (l_year r) year) /\
  (forall rows : list Listing, sublist (_enforce_year rows year) rows).
Proof.
  intros out.
  assert (Hall : forall r, In r out -> is_number (l_year r) year).
  { subst out. rewrite query_unfold. intros r Hr. apply py_eq_int_exact.
    apply in_sort_rows, filter_In in Hr as [Hr _].
    destruct enrich.
    - unfold _enforce_year in Hr. apply filter_In in Hr as [_ Hy]. exact Hy.
    - eapply merged_year, Hr. }
  split; [exact Hall|]. split; [|split; [|split]].
  - intros r z Hr Hz. apply Hall, py_eq_int_exact in Hr. rewrite Hz in Hr.
    simpl in Hr. apply Z.eqb_eq, Hr.
  - intros r Hr. apply Hall in Hr. repeat split.
    + intros Hy. rewrite Hy in Hr. destruct Hr as (q & Hq & _). discriminate.
    + intros s Hy. rewrite Hy in Hr. destruct Hr as (q & Hq & _). discriminate.
    + intros Hy. rewrite Hy in Hr. exact (half_year_is_no_int year Hr).
  - intros rows r. unfold _enforce_year. rewrite filter_In, py_eq_int_exact.
    reflexivity.
  - intros rows. unfold _enforce_year. induction rows as [|x rows IH]; simpl.
    + constructor.
    + destruct (py_eq_int (l_year x) year); constructor; exact IH.
Qed.


(** C5, at the failing input: the page gives a price and then fails to
    close.  [enrich_vdp] raises, yet the row it leaves behind, which the
    aggregator keeps, carries the new price. *)
Theorem enrich_fault_on_close_changes_row :
  enrich_vdp (page_showing "$9,000" "" false) (camry_row None (Some 30000))
  = (camry_row (Some 9000) (Some 30000), Raised BrowserError) /\
  enrich_loop (fun _ => page_showing "$9,000" "" false) 0
    [camry_row None (Some 30000)] []
  = [camry_row (Some 9000) (Some 30000)] /\
  query_listings_async 2015 8 true "cars" (Ok []) (Ok [camry_row None (Some 30000)])
    (fun _ => page_showing "$9,000" "" false)
  = [camry_row (Some 9000) (Some 30000)].
Proof. repeat split; vm_compute; reflexivity. Qed.

End Claims.

(** * Concrete runs *)

(** C1, as stated, fails: two scrapers each hand over one listing, the URLs
    differ in the query string only, and both listings are in the output. *)
Lemma same_url_from_two_scrapers_kept_twice :
  _normalize_url lenient (VStr "https://site.com/vdp/1?src=at")
  = _normalize_url lenient (VStr "https://site.com/vdp/1?src=cars#top") /\
  query_listings_async lenient 2015 8 false "both"
    (Ok [car "Autotrader" (Some 9000) (Some 30000) "https://site.com/vdp/1?src=at"])
    (Ok [car "Cars.com" (Some 9000) (Some 30000) "https://site.com/vdp/1?src=cars#top"])
    (fun _ => idle_page)
  = [car "Autotrader" (Some 9000) (Some 30000) "https://site.com/vdp/1";
     car "Cars.com" (Some 9000) (Some 30000) "https://site.com/vdp/1"].
Proof. split; vm_compute; reflexivity. Qed.

Example sample_output_rows :
  sample_output
  = [car "Autotrader" (Some 9000) (Some 30000) "https://www.autotrader.com/v/8";
     car "Cars.com" (Some 9200) None "https://www.cars.com/vehicledetail/3/";
     car "Autotrader" (Some 9500) (Some 41000) "https://www.autotrader.com/v/7"].
Proof. vm_compute. reflexivity. Qed.

Lemma one_listing_per_url_within_a_source_witness :
  tagged "Autotrader" (Ok at_gathered) /\
  tagged "Cars.com" (Ok cars_gathered) /\
  l_url (car "Autotrader" (Some 9000) (Some 30000) "https://www.autotrader.com/v/8")
  <> l_url (car "Autotrader" (Some 9500) (Some 41000) "https://www.autotrader.com/v/7").
Proof.
  assert (Hat : tagged "Autotrader" (Ok at_gathered))
    by (repeat constructor).
  assert (Hcars : tagged "Cars.com" (Ok cars_gathered))
    by (repeat constructor).
  split; [exact Hat|]. split; [exact Hcars|].
  apply (proj1 (one_listing_per_url_within_a_source lenient 2015 8 false "both"
                  (Ok at_gathered) (Ok cars_gathered) (fun _ => idle_page) Hat Hcars)
           0%nat 2%nat);
    [lia | vm_compute; reflexivity | vm_compute; reflexivity | reflexivity].
Defined.

(** Of five rows gathered for the year 2015, the one whose year is the
    float 2015.0 is kept; 2015.5, the string, 2014 and [None] are not. *)
Example years_output_rows :
  query_listings_async lenient 2015 8 false "cars" (Ok []) (Ok years_gathered)
    (fun _ => idle_page)
  = [car_of_year (VFloat 2015) "https://www.cars.com/v/2"].
Proof. vm_compute. reflexivity. Qed.

Lemma output_year_equals_target_witness :
  In (car_of_year (VFloat 2015) "https://www.cars.com/v/2")
    (query_listings_async lenient 2015 8 false "cars" (Ok []) (Ok years_gathered)
       (fun _ => idle_page)) /\
  is_number (VFloat 2015) 2015.
Proof.
  assert (Hin : In (car_of_year (VFloat 2015) "https://www.cars.com/v/2")
                  (query_listings_async lenient 2015 8 false "cars" (Ok [])
                     (Ok years_gathered) (fun _ => idle_page)))
    by (vm_compute; left; reflexivity).
  split; [exact Hin|].
  exact (proj1 (output_year_equals_target lenient 2015 8 false "cars"
                  (Ok []) (Ok years_gathered) (fun _ => idle_page)) _ Hin).
Defined.





Lemma normalize_idempotent_when_stable_witness :
  urlsplit lenient "https://site.com/vdp/123?src=ads#top" ""
  = Ok (mkSplit "https" "site.com" "/vdp/123" "src=ads" "top") /\
  "site.com" <> "" /\
  exists n, _normalize_url lenient (VStr "https://site.com/vdp/123?src=ads#top")
            = Ok (VStr n) /\
            _normalize_url lenient (VStr n) = Ok (VStr n).
Proof.
  assert (Hsplit : urlsplit lenient "https://site.com/vdp/123?src=ads#top" ""
                   = Ok (mkSplit "https" "site.com" "/vdp/123" "src=ads" "top"))
    by (vm_compute; reflexivity).
  split; [exact Hsplit|]. split; [discriminate|].
  apply (proj1 (normalize_idempotent_when_stable lenient) _ _ Hsplit).
  left. discriminate.
Defined.

(** C10, as stated, fails: a link of seven slashes is made absolute by
    [_abs], normalises to a URL with five, and that one to a URL with
    three; the listing [_dedupe_and_trim] keeps is not a fixed point. *)
Lemma normalize_twice_differs :
  _abs lenient "https://www.cars.com" (Some "///////y") = Ok (Some "https:///////y") /\
  _normalize_url lenient (VStr "https:///////y") = Ok (VStr "https://///y") /\
  _normalize_url lenient (VStr "https://///y") = Ok (VStr "https:///y") /\
  _dedupe_and_trim lenient [car "Cars.com" (Some 9000) None "https:///////y"] 8
  = Ok [car "Cars.com" (Some 9000) None "https://///y"].
Proof. repeat split; vm_compute; reflexivity. Qed.

Lemma walk_collects_listing_like_witness :
  listing_like wrapped_listing /\
  In ("dealer", VList [VDict nested_listing]) wrapped_listing /\
  inside (VDict nested_listing) (VList [VDict nested_listing]) /\
  listing_like nested_listing /\
  In wrapped_listing (_walk_find_listings (VDict wrapped_listing)) /\
  In nested_listing (_walk_find_listings (VDict wrapped_listing)).
Proof.
  assert (Houter : listing_like wrapped_listing).
  { exists "title", "price", "url".
    split; [discriminate|]. split; [discriminate|]. split; [discriminate|].
    repeat apply List.Forall_cons; try apply List.Forall_nil; vm_compute; tauto. }
  assert (Hinner : listing_like nested_listing).
  { exists "make", "model", "year".
    split; [discriminate|]. split; [discriminate|]. split; [discriminate|].
    repeat apply List.Forall_cons; try apply List.Forall_nil; vm_compute; tauto. }
  assert (Hitem : In ("dealer", VList [VDict nested_listing]) wrapped_listing)
    by (vm_compute; tauto).
  assert (Hin : inside (VDict nested_listing) (VList [VDict nested_listing])).
  { apply inside_element with (v := VDict nested_listing);
      [left; reflexivity | constructor]. }
  split; [exact Houter|]. split; [exact Hitem|]. split; [exact Hin|].
  split; [exact Hinner|].
  exact (proj2 walk_collects_listing_like wrapped_listing nested_listing
           "dealer" (VList [VDict nested_listing]) Houter Hitem Hin Hinner).
Defined.

(** * Further properties *)

(** ** Field parsers: what they can return *)

Lemma digit_val_range (c : ascii) : is_digit c = true -> 0 <= digit_val c <= 9.
Proof.
  destruct c as [[] [] [] [] [] [] [] []]; vm_compute; intros H;
    try discriminate H; split; discriminate.
Qed.

Lemma four_digits_int (a b c d : ascii) :
  is_digit a = true -> is_digit b = true -> is_digit c = true -> is_digit d = true ->
  py_int (String a (String b (String c (String d EmptyString))))
  = Some (((digit_val a * 10 + digit_val b) * 10 + digit_val c) * 10 + digit_val d).
Proof.
  intros Ha Hb Hc Hd. unfold py_int.
  assert (Hsp : forall x, is_digit x = true ->
            int_space x = false /\ is_char "-" x = false /\ is_char "+" x = false)
    by (intros x; destruct x as [[] [] [] [] [] [] [] []]; vm_compute; intuition congruence).
  destruct (Hsp a Ha) as (Ha1 & Ha2 & Ha3). destruct (Hsp d Hd) as (Hd1 & _).
  cbn [lstrip_with rstrip_with]. rewrite Ha1. cbn [rstrip_with]. rewrite Hd1.
  rewrite Ha2, Ha3. cbn [int_body]. rewrite Ha, Hb, Hc, Hd. cbn [int_body].
  reflexivity.
Qed.

(** A match of the pattern for years is ["19"] or ["20"] and two digits. *)
Lemma year_match_century (prev : option ascii) (s : string) (m : string * option string) :
  match_at _year_re prev s = Some m ->
  exists a b c d,
    m.1 = String a (String b (String c (String d EmptyString))) /\
    (a = "1"%char /\ b = "9"%char \/ a = "2"%char /\ b = "0"%char) /\
    is_digit c = true /\ is_digit d = true.
Proof.
  unfold match_at, _year_re. cbn [rmatch lit ms_rest ms_prev ms_group].
  destruct (xorb _ _); [|discriminate].
  destruct s as [|a [|b [|c [|d rest]]]]; cbn [rep_greedy Nat.pred option_map];
    rewrite ?rep_greedy_done;
    repeat match goal with
           | |- context [if ?x then _ else _] => destruct x eqn:?
           end; try discriminate.
  all: intros [= <-]; cbn [fst];
    change (String a (String b (String c (String d rest))))
      with (String a (String b (String c (String d EmptyString))) +:+ rest);
    rewrite consumed_prefix; exists a, b, c, d; split; [reflexivity|].
  all: repeat match goal with
              | H : is_char ?x ?y = true |- _ =>
                  apply Ascii.eqb_eq in H; subst y
              end; auto.
Qed.

Lemma year_search_century (s : string) :
  forall (prev : option ascii) (m : string * option string),
    search_from _year_re prev s = Some m ->
    exists y, py_int m.1 = Some y /\ 1900 <= y <= 2099.
Proof.
  assert (Hm : forall prev s m, match_at _year_re prev s = Some m ->
            exists y, py_int m.1 = Some y /\ 1900 <= y <= 2099).
  { intros prev s0 m H.
    apply year_match_century in H as (a & b & c & d & -> & Hab & Hc & Hd).
    pose proof (digit_val_range c Hc). pose proof (digit_val_range d Hd).
    destruct Hab as [[-> ->] | [-> ->]];
      rewrite four_digits_int by (assumption || reflexivity);
      eexists; (split; [reflexivity|]);
      change (digit_val "1") with 1; change (digit_val "9") with 9;
      change (digit_val "2") with 2; change (digit_val "0") with 0; lia. }
  induction s as [|x s IH]; intros prev m; cbn [search_from];
    destruct (match_at _year_re prev _) as [m'|] eqn:E.
  - intros [= <-]. eapply Hm, E.
  - discriminate.
  - intros [= <-]. eapply Hm, E.
  - apply IH.
Qed.

(** X1: a year read from a text is a year of the 20th or 21st century as
    the pattern has it, between 1900 and 2099. *)
Theorem parse_year_between_1900_and_2099 (text : pyval) (y : Z) :
  parse_year_from_text text = Ok (Some y) -> 1900 <= y <= 2099.
Proof.
  unfold parse_year_from_text.
  destruct (negb (truthy text)); [discriminate|].
  destruct text as [| | | |t| |]; try discriminate.
  unfold re_search. destruct (search_from _year_re None t) as [m|] eqn:Hm; [|discriminate].
  destruct (year_search_century _ _ _ Hm) as (y' & Hy & Hr). rewrite Hy.
  intros [= <-]. exact Hr.
Qed.

(** A repetition hands over a suffix, after characters of its class. *)
Lemma rep_greedy_inv {R : Type} (p : ascii -> bool) (s : string) :
  forall (lo : nat) (hi : option nat) (prev : option ascii)
         (k : option ascii -> string -> option R) (r : R),
    rep_greedy p lo hi prev s k = Some r ->
    exists pre rest prev',
      s = pre +:+ rest /\ forallb_string p pre = true /\ k prev' rest = Some r.
Proof.
  induction s as [|c s IH]; intros lo hi prev k r H.
  - exists EmptyString, EmptyString, prev.
    split; [reflexivity|]. split; [reflexivity|].
    destruct hi as [[|h]|], lo; simpl in H; congruence.
  - assert (Hstop : match lo with O => k prev (String c s) | S _ => None end = Some r ->
              exists pre rest prev',
                String c s = pre +:+ rest /\ forallb_string p pre = true /\
                k prev' rest = Some r).
    { intros Hs. exists EmptyString, (String c s), prev.
      split; [reflexivity|]. split; [reflexivity|]. destruct lo; congruence. }
    assert (Hgo : (if p c
                   then match rep_greedy p (Nat.pred lo) (option_map Nat.pred hi)
                                (Some c) s k with
                        | Some r => Some r
                        | None => match lo with O => k prev (String c s) | S _ => None end
                        end
                   else match lo with O => k prev (String c s) | S _ => None end)
                  = Some r ->
              exists pre rest prev',
                String c s = pre +:+ rest /\ forallb_string p pre = true /\
                k prev' rest = Some r).
    { destruct (p c) eqn:Hc; [|exact Hstop].
      destruct (rep_greedy p (Nat.pred lo) (option_map Nat.pred hi) (Some c) s k)
        as [r'|] eqn:Hrec; [|exact Hstop].
      intros [= ->]. destruct (IH _ _ _ _ _ Hrec) as (pre & rest & prev' & -> & Hp & Hk).
      exists (String c pre), rest, prev'. simpl. rewrite Hc, Hp. auto. }
    destruct hi as [[|h]|]; simpl in H; [apply Hstop, H | apply Hgo, H | apply Hgo, H].
Qed.

(** A pattern without a group leaves the group of the state as it is. *)
Lemma rmatch_group_free {R : Type} (r : regex) :
  group_free r = true ->
  forall (st : mstate) (k : mstate -> option R) (x : R),
    rmatch r st k = Some x ->
    exists st', ms_group st' = ms_group st /\ k st' = Some x.
Proof.
  induction r as [| p | a IHa b IHb | a IHa b IHb | p lo hi | a IHa |];
    intros Hg st k x H; simpl in Hg, H; try discriminate.
  - eauto.
  - destruct (ms_rest st) as [|c s']; [discriminate|].
    destruct (p c); [|discriminate]. eexists. split; [|exact H]. reflexivity.
  - apply andb_true_iff in Hg as [Ha Hb].
    destruct (IHa Ha _ _ _ H) as (st1 & Hg1 & H1).
    destruct (IHb Hb _ _ _ H1) as (st2 & Hg2 & H2).
    exists st2. split; [congruence | exact H2].
  - apply andb_true_iff in Hg as [Ha Hb].
    destruct (rmatch a st k) as [x'|] eqn:E.
    + injection H as ->. apply (IHa Ha _ _ _ E).
    + apply (IHb Hb _ _ _ H).
  - apply rep_greedy_inv in H as (pre & rest & prev' & _ & _ & Hk).
    eexists. split; [|exact Hk]. reflexivity.
  - destruct (xorb _ _); [|discriminate]. eauto.
Qed.

(** What the two patterns capture: digits and commas. *)
Lemma price_match_group (prev : option ascii) (s : string) (m : string * option string) :
  match_at _price_re prev s = Some m ->
  exists g, m.2 = Some g /\ forallb_string digit_or_comma g = true.
Proof.
  unfold match_at, _price_re. cbn [rmatch ms_rest ms_prev ms_group].
  destruct s as [|c s]; [discriminate|].
  destruct (is_char "$" c); [|discriminate].
  intros H. apply rep_greedy_inv in H as (pre1 & rest1 & prev1 & _ & _ & H).
  cbn [ms_rest ms_prev ms_group] in H.
  apply rep_greedy_inv in H as (pre2 & rest2 & prev2 & -> & Hp & H).
  cbn [ms_rest ms_prev ms_group] in H. injection H as <-.
  exists pre2. cbn [snd]. rewrite consumed_prefix. auto.
Qed.

Lemma miles_match_group (prev : option ascii) (s : string) (m : string * option string) :
  match_at _miles_re prev s = Some m ->
  exists g, m.2 = Some g /\ forallb_string digit_or_comma g = true.
Proof.
  unfold match_at, _miles_re. cbn [rmatch ms_rest ms_prev ms_group].
  intros H. apply rep_greedy_inv in H as (pre & rest & prev1 & -> & Hp & H).
  cbn [ms_rest ms_prev ms_group] in H.
  apply rep_greedy_inv in H as (pre2 & rest2 & prev2 & _ & _ & H).
  cbn [ms_rest ms_prev ms_group] in H.
  apply (rmatch_group_free (lit_ci "mile") eq_refl) in H as (st1 & Hg1 & H).
  apply rep_greedy_inv in H as (pre3 & rest3 & prev3 & _ & _ & H).
  injection H as <-. cbn [snd]. rewrite Hg1. cbn [ms_group].
  exists pre. rewrite consumed_prefix. auto.
Qed.

Lemma search_from_match (r : regex) (s : string) :
  forall (prev : option ascii) (m : string * option string),
    search_from r prev s = Some m ->
    exists prev' s', match_at r prev' s' = Some m.
Proof.
  induction s as [|x s IH]; intros prev m; cbn [search_from];
    destruct (match_at r prev _) as [m'|] eqn:E; try discriminate.
  - intros [= <-]. eauto.
  - intros [= <-]. eauto.
  - apply IH.
Qed.

Lemma forallb_string_lstrip (q p : ascii -> bool) (s : string) :
  forallb_string q s = true -> forallb_string q (lstrip_with p s) = true.
Proof.
  induction s as [|c s IH]; simpl; [auto|].
  destruct (p c); [|auto]. rewrite andb_true_iff. intros [_ H]. auto.
Qed.

Lemma forallb_string_rstrip (q p : ascii -> bool) (s : string) :
  forallb_string q s = true -> forallb_string q (rstrip_with p s) = true.
Proof.
  induction s as [|c s IH]; simpl; [auto|].
  rewrite andb_true_iff. intros [Hc Hs]. specialize (IH Hs).
  destruct (rstrip_with p s) as [|x t].
  - destruct (p c); simpl; [reflexivity | rewrite Hc; reflexivity].
  - simpl in *. rewrite Hc. exact IH.
Qed.

Lemma forallb_string_filter (q f : ascii -> bool) (s : string) :
  forallb_string q s = true -> forallb_string q (filter_string f s) = true.
Proof.
  induction s as [|c s IH]; simpl; [auto|].
  rewrite andb_true_iff. intros [Hc Hs].
  destruct (f c); simpl; [rewrite Hc|]; auto.
Qed.

Lemma int_body_grows (s : string) :
  forall (acc : Z) (n : nat) (b : bool) (v : Z) (m : nat),
    int_body s acc n b = Some (v, m) -> 0 <= acc -> 0 <= v.
Proof.
  induction s as [|c s IH]; intros acc n b v m; simpl.
  - destruct b; [|discriminate]. intros [= <- _]. auto.
  - destruct (is_digit c) eqn:Hd.
    + intros H Hacc. apply (IH _ _ _ _ _ H).
      pose proof (digit_val_range c Hd). lia.
    + destruct (is_char "_" c); [|discriminate].
      destruct b; [|discriminate]. apply IH.
Qed.

(** A number without a sign is not negative. *)
Lemma py_int_unsigned (t : string) (z : Z) :
  forallb_string (not_a (is_char "-")) t = true -> py_int t = Some z -> 0 <= z.
Proof.
  intros Ht. unfold py_int.
  pose proof (forallb_string_rstrip _ int_space _
                (forallb_string_lstrip _ int_space _ Ht)) as Hs.
  destruct (rstrip_with int_space (lstrip_with int_space t)) as [|c s'].
  - simpl. discriminate.
  - simpl in Hs. apply andb_true_iff in Hs as [Hc _].
    unfold not_a in Hc. apply negb_true_iff in Hc. rewrite Hc.
    destruct (is_char "+" c).
    + destruct (int_body s' 0 0 false) as [[v n]|] eqn:E; [|discriminate].
      destruct (int_max_str_digits <? n)%nat; [discriminate|].
      intros [= <-]. eapply int_body_grows; [exact E | lia].
    + destruct (int_body (String c s') 0 0 false) as [[v n]|] eqn:E; [|discriminate].
      destruct (int_max_str_digits <? n)%nat; [discriminate|].
      intros [= <-]. eapply int_body_grows; [exact E | lia].
Qed.

Lemma digit_or_comma_unsigned (c : ascii) :
  digit_or_comma c = true -> not_a (is_char "-") c = true.
Proof. destruct c as [[] [] [] [] [] [] [] []]; vm_compute; congruence. Qed.

Lemma to_int_of_group (g : string) (z : Z) :
  forallb_string digit_or_comma g = true -> _to_int (Some g) = Some z -> 0 <= z.
Proof.
  intros Hg. unfold _to_int, py_strip, remove_char. apply py_int_unsigned.
  apply forallb_string_rstrip, forallb_string_lstrip, forallb_string_filter.
  eapply forallb_string_impl; [|exact Hg]. apply digit_or_comma_unsigned.
Qed.

(** X2: a price or a mileage read from a text is never negative. *)
Theorem parsed_price_and_miles_not_negative (text : pyval) (z : Z) :
  parse_price text = Ok (Some z) \/ parse_miles text = Ok (Some z) -> 0 <= z.
Proof.
  unfold parse_price, parse_miles, re_search.
  destruct (negb (truthy text)); [intros [H|H]; discriminate|].
  destruct text as [| | | |t| |]; try (intros [H|H]; discriminate).
  intros [H|H].
  - destruct (search_from _price_re None _) as [m|] eqn:Hm; [|discriminate].
    apply search_from_match in Hm as (prev' & s' & Hm).
    apply price_match_group in Hm as (g & Hg & Hdc).
    unfold group1 in H. rewrite Hg in H. injection H as H.
    eapply to_int_of_group; eassumption.
  - destruct (search_from _miles_re None _) as [m|] eqn:Hm; [|discriminate].
    apply search_from_match in Hm as (prev' & s' & Hm).
    apply miles_match_group in Hm as (g & Hg & Hdc).
    unfold group1 in H. rewrite Hg in H. injection H as H.
    eapply to_int_of_group; eassumption.
Qed.

Lemma lstrip_forallb_back (q p : ascii -> bool) (s : string) :
  (forall c, p c = true -> q c = true) ->
  forallb_string q (lstrip_with p s) = true -> forallb_string q s = true.
Proof.
  intros Hpq. induction s as [|c s IH]; simpl; [auto|].
  destruct (p c) eqn:Hc; [|auto]. intros H. rewrite (Hpq c Hc), (IH H). reflexivity.
Qed.

Lemma rstrip_forallb_back (q p : ascii -> bool) (s : string) :
  (forall c, p c = true -> q c = true) ->
  forallb_string q (rstrip_with p s) = true -> forallb_string q s = true.
Proof.
  intros Hpq. induction s as [|c s IH]; simpl; [auto|].
  destruct (rstrip_with p s) as [|x t] eqn:E.
  - destruct (p c) eqn:Hc; simpl; intros H.
    + rewrite (Hpq c Hc), IH; auto.
    + apply andb_true_iff in H as [-> _]. rewrite IH; auto.
  - simpl. rewrite !andb_true_iff. intros [-> H]. split; [reflexivity|].
    apply IH. simpl. apply andb_true_iff. exact H.
Qed.

Lemma filter_forallb_back (q f : ascii -> bool) (s : string) :
  (forall c, f c = false -> q c = true) ->
  forallb_string q (filter_string f s) = true -> forallb_string q s = true.
Proof.
  intros Hfq. induction s as [|c s IH]; simpl; [auto|].
  destruct (f c) eqn:Hc; simpl.
  - rewrite !andb_true_iff. intros [-> H]. auto.
  - intros H. rewrite (Hfq c Hc), (IH H). reflexivity.
Qed.

Lemma int_body_chars (s : string) :
  forall (acc : Z) (n : nat) (b : bool) (r : Z * nat),
    int_body s acc n b = Some r ->
    forallb_string (fun c => is_digit c || is_char "_" c) s = true.
Proof.
  induction s as [|c s IH]; intros acc n b r; simpl; [auto|].
  destruct (is_digit c); simpl; [apply IH|].
  destruct (is_char "_" c); [|discriminate].
  destruct b; [apply IH | discriminate].
Qed.

Lemma py_int_chars (t : string) (z : Z) :
  py_int t = Some z ->
  forallb_string (fun c => is_digit c || is_char "_" c || is_char "+" c
                           || is_char "-" c || int_space c) t = true.
Proof.
  unfold py_int. intros H.
  apply (lstrip_forallb_back _ int_space);
    [intros c ->; rewrite !orb_true_r; reflexivity|].
  apply (rstrip_forallb_back _ int_space);
    [intros c ->; rewrite !orb_true_r; reflexivity|].
  assert (Hbody : forall body r, int_body body 0 0 false = Some r ->
            forallb_string (fun c => is_digit c || is_char "_" c || is_char "+" c
                                     || is_char "-" c || int_space c) body = true).
  { intros body r Hb. eapply forallb_string_impl; [|eapply int_body_chars, Hb].
    intros c. simpl. intros ->. reflexivity. }
  destruct (rstrip_with int_space (lstrip_with int_space t)) as [|c s'];
    [reflexivity|].
  destruct (is_char "-" c) eqn:Hm.
  - destruct (int_body s' 0 0 false) as [r|] eqn:E; [|discriminate].
    simpl. rewrite Hm, (Hbody _ _ E), !orb_true_r. reflexivity.
  - destruct (is_char "+" c) eqn:Hp.
    + destruct (int_body s' 0 0 false) as [r|] eqn:E; [|discriminate].
      simpl. rewrite Hp, (Hbody _ _ E), !orb_true_r. reflexivity.
    + destruct (int_body (String c s') 0 0 false) as [r|] eqn:E; [|discriminate].
      apply (Hbody _ _ E).
Qed.

Lemma int_space_isspace (c : ascii) : int_space c = true -> py_isspace c = true.
Proof. destruct c as [[] [] [] [] [] [] [] []]; vm_compute; congruence. Qed.

(** X3: [_to_int] gives a number only for a text made of digits, commas,
    underscores, signs and white space; [None] stays [None]. *)
Theorem to_int_reads_number_text :
  (forall (s : string) (z : Z),
     _to_int (Some s) = Some z -> forallb_string number_char s = true) /\
  _to_int None = None.
Proof.
  split; [|reflexivity].
  intros s z H. unfold _to_int, py_strip, remove_char in H.
  apply py_int_chars in H.
  apply (filter_forallb_back _ (fun x => negb (is_char "," x))).
  { intros c Hc. apply negb_false_iff in Hc. unfold number_char. rewrite Hc.
    rewrite ?orb_true_r. reflexivity. }
  apply (lstrip_forallb_back _ py_isspace).
  { intros c Hc. unfold number_char. rewrite Hc, !orb_true_r. reflexivity. }
  apply (rstrip_forallb_back _ py_isspace).
  { intros c Hc. unfold number_char. rewrite Hc, !orb_true_r. reflexivity. }
  eapply forallb_string_impl; [|exact H].
  intros c. unfold number_char. rewrite !orb_true_iff.
  intros [[[[Hc|Hc]|Hc]|Hc]|Hc]; auto 10.
  right. apply int_space_isspace, Hc.
Qed.

(** ** The price cell of the table and [parse_price] *)

Lemma int_body_digit (c : ascii) (s : string) (acc : Z) (n : nat) (b : bool) :
  is_digit c = true ->
  int_body (String c s) acc n b = int_body s (acc * 10 + digit_val c) (S n) true.
Proof. intros H. simpl. rewrite H. reflexivity. Qed.

Lemma int_body_uint_pos (d : Decimal.uint) :
  forall (acc : positive) (n : nat) (b : bool),
    d <> Decimal.Nil \/ b = true ->
    int_body (NilEmpty.string_of_uint d) (Z.pos acc) n b
    = Some (Z.pos (Pos.of_uint_acc d acc), (n + Decimal.nb_digits d)%nat).
Proof.
  induction d; intros acc n b Hd;
    cbn [NilEmpty.string_of_uint Pos.of_uint_acc Decimal.nb_digits];
    try (rewrite int_body_digit by reflexivity;
         match goal with
         | |- int_body _ ?a _ _ = Some (Z.pos (Pos.of_uint_acc _ ?p), _) =>
             replace a with (Z.pos p) by (vm_compute digit_val; lia)
         end;
         rewrite IHd by (right; reflexivity); do 2 f_equal; lia).
  destruct Hd as [Hd | ->]; [congruence|]. simpl. do 2 f_equal. lia.
Qed.

Lemma int_body_uint (d : Decimal.uint) :
  forall (n : nat) (b : bool),
    d <> Decimal.Nil \/ b = true ->
    int_body (NilEmpty.string_of_uint d) 0 n b
    = Some (Z.of_N (Pos.of_uint d), (n + Decimal.nb_digits d)%nat).
Proof.
  induction d; intros n b Hd;
    cbn [NilEmpty.string_of_uint Pos.of_uint Decimal.nb_digits].
  - destruct Hd as [Hd | ->]; [congruence|]. simpl. do 2 f_equal. lia.
  - rewrite int_body_digit by reflexivity.
    change (0 * 10 + digit_val "0") with 0.
    rewrite IHd by (right; reflexivity). do 2 f_equal. lia.
  - rewrite int_body_digit by reflexivity. change (0 * 10 + digit_val "1") with 1.
    rewrite int_body_uint_pos by (right; reflexivity). do 2 f_equal. lia.
  - rewrite int_body_digit by reflexivity. change (0 * 10 + digit_val "2") with 2.
    rewrite int_body_uint_pos by (right; reflexivity). do 2 f_equal. lia.
  - rewrite int_body_digit by reflexivity. change (0 * 10 + digit_val "3") with 3.
    rewrite int_body_uint_pos by (right; reflexivity). do 2 f_equal. lia.
  - rewrite int_body_digit by reflexivity. change (0 * 10 + digit_val "4") with 4.
    rewrite int_body_uint_pos by (right; reflexivity). do 2 f_equal. lia.
  - rewrite int_body_digit by reflexivity. change (0 * 10 + digit_val "5") with 5.
    rewrite int_body_uint_pos by (right; reflexivity). do 2 f_equal. lia.
  - rewrite int_body_digit by reflexivity. change (0 * 10 + digit_val "6") with 6.
    rewrite int_body_uint_pos by (right; reflexivity). do 2 f_equal. lia.
  - rewrite int_body_digit by reflexivity. change (0 * 10 + digit_val "7") with 7.
    rewrite int_body_uint_pos by (right; reflexivity). do 2 f_equal. lia.
  - rewrite int_body_digit by reflexivity. change (0 * 10 + digit_val "8") with 8.
    rewrite int_body_uint_pos by (right; reflexivity). do 2 f_equal. lia.
  - rewrite int_body_digit by reflexivity. change (0 * 10 + digit_val "9") with 9.
    rewrite int_body_uint_pos by (right; reflexivity). do 2 f_equal. lia.
Qed.

Lemma uint_string_digits (d : Decimal.uint) :
  forallb_string is_digit (NilEmpty.string_of_uint d) = true.
Proof.
  induction d; cbn [NilEmpty.string_of_uint forallb_string];
    rewrite ?IHd; reflexivity.
Qed.

Lemma uint_string_length (d : Decimal.uint) :
  String.length (NilEmpty.string_of_uint d) = Decimal.nb_digits d.
Proof. induction d; simpl; rewrite ?IHd; reflexivity. Qed.

Lemma to_uint_nonnil (n : N) : N.to_uint n <> Decimal.Nil.
Proof.
  destruct n as [|p]; simpl; [discriminate|]. apply DecimalPos.Unsigned.to_uint_nonnil.
Qed.

Lemma decimal_of_N (n : N) :
  NilZero.string_of_uint (N.to_uint n) = NilEmpty.string_of_uint (N.to_uint n).
Proof.
  pose proof (to_uint_nonnil n) as H. destruct (N.to_uint n); [congruence | reflexivity..].
Qed.

Lemma lstrip_none (p : ascii -> bool) (s : string) :
  forallb_string (not_a p) s = true -> lstrip_with p s = s.
Proof.
  destruct s as [|c s]; [reflexivity|]. simpl. unfold not_a at 1.
  rewrite andb_true_iff, negb_true_iff. intros [-> _]. reflexivity.
Qed.

Lemma rstrip_none (p : ascii -> bool) (s : string) :
  forallb_string (not_a p) s = true -> rstrip_with p s = s.
Proof.
  induction s as [|c s IH]; [reflexivity|]. simpl. unfold not_a at 1.
  rewrite andb_true_iff, negb_true_iff. intros [Hc Hs]. rewrite (IH Hs).
  destruct s; [rewrite Hc|]; reflexivity.
Qed.

Lemma digit_plain (c : ascii) :
  is_digit c = true ->
  not_a int_space c = true /\ not_a py_isspace c = true /\
  not_a (is_char ",") c = true /\ not_a (is_char "-") c = true /\
  not_a (is_char "+") c = true /\ not_a (is_char nbsp) c = true /\
  not_a (is_char "$") c = true /\ digit_or_comma c = true.
Proof. destruct c as [[] [] [] [] [] [] [] []]; vm_compute; intuition congruence. Qed.

(** [int] reads the decimal digits of a number back. *)
Lemma py_int_decimal (n : N) :
  (String.length (NilZero.string_of_uint (N.to_uint n)) <= int_max_str_digits)%nat ->
  py_int (NilZero.string_of_uint (N.to_uint n)) = Some (Z.of_N n).
Proof.
  rewrite decimal_of_N. intros Hlen. unfold py_int.
  pose proof (uint_string_digits (N.to_uint n)) as Hd.
  rewrite lstrip_none, rstrip_none
    by (eapply forallb_string_impl; [|exact Hd]; intros c Hc; apply (digit_plain c Hc)).
  pose proof (int_body_uint (N.to_uint n) 0 false (or_introl (to_uint_nonnil n))) as Hb.
  rewrite uint_string_length in Hlen.
  destruct (NilEmpty.string_of_uint (N.to_uint n)) as [|c s] eqn:Es.
  - simpl in Hb. discriminate.
  - simpl in Hd. apply andb_true_iff in Hd as [Hc _].
    destruct (digit_plain c Hc) as (_ & _ & _ & Hm & Hp & _).
    unfold not_a in Hm, Hp. apply negb_true_iff in Hm, Hp. rewrite Hm, Hp, Hb.
    pose proof (DecimalN.Unsigned.of_to n) as Hof. unfold N.of_uint in Hof.
    rewrite Hof.
    destruct (int_max_str_digits <? 0 + Decimal.nb_digits (N.to_uint n))%nat eqn:E;
      [|reflexivity].
    apply Nat.ltb_lt in E. lia.
Qed.

Lemma group_thousands_commas (s : string) :
  forallb_string is_digit s = true ->
  remove_char "," (group_thousands s) = s /\
  forallb_string digit_or_comma (group_thousands s) = true.
Proof.
  unfold remove_char. induction s as [|c s IH]; [split; reflexivity|].
  cbn [forallb_string group_thousands]. rewrite andb_true_iff. intros [Hc Hs].
  destruct (IH Hs) as [IH1 IH2].
  destruct (digit_plain c Hc) as (_ & _ & Hcomma & _ & _ & _ & _ & Hdc).
  unfold not_a in Hcomma.
  destruct (negb (String.length s =? 0)%nat && (String.length s mod 3 =? 0)%nat);
    cbn [filter_string forallb_string]; rewrite Hcomma, Hdc;
    change (negb (is_char "," ",")) with false; cbn iota;
    change (digit_or_comma ",") with true; rewrite IH1, IH2; split; reflexivity.
Qed.

Lemma group_thousands_head (c : ascii) (s : string) :
  exists t, group_thousands (String c s) = String c t.
Proof.
  cbn [group_thousands]. destruct (_ && _); eauto.
Qed.

(** Greedy repetition takes a whole text of its class when what follows
    accepts the end of the text. *)
Lemma rep_greedy_all {R : Type} (p : ascii -> bool) (s : string) :
  forall (lo : nat) (prev : option ascii) (k : option ascii -> string -> option R),
    forallb_string p s = true -> (lo <= String.length s)%nat ->
    (forall prev', k prev' EmptyString <> None) ->
    exists prev', rep_greedy p lo None prev s k = k prev' EmptyString.
Proof.
  induction s as [|c s IH]; intros lo prev k Hp Hlo Hk.
  - simpl in Hlo. assert (lo = 0%nat) as -> by lia. exists prev. reflexivity.
  - simpl in Hp, Hlo. apply andb_true_iff in Hp as [Hc Hs].
    destruct (IH (Nat.pred lo) (Some c) k Hs ltac:(lia) Hk) as [prev' Hrec].
    exists prev'. cbn [rep_greedy option_map]. rewrite Hc, Hrec.
    destruct (k prev' EmptyString) eqn:E; [reflexivity|]. destruct (Hk prev' E).
Qed.

Lemma consumed_all (s : string) : consumed s EmptyString = s.
Proof.
  pose proof (consumed_prefix s EmptyString) as H.
  rewrite append_empty_r in H. exact H.
Qed.

Lemma search_from_here (r : regex) (prev : option ascii) (s : string)
    (m : string * option string) :
  match_at r prev s = Some m -> search_from r prev s = Some m.
Proof. intros H. destruct s; simpl; rewrite H; reflexivity. Qed.

Lemma search_from_next (r : regex) (prev : option ascii) (c : ascii) (s : string) :
  match_at r prev (String c s) = None ->
  search_from r prev (String c s) = search_from r (Some c) s.
Proof. intros H. cbn [search_from]. rewrite H. reflexivity. Qed.

Lemma rep_greedy_skip {R : Type} (p : ascii -> bool) (prev : option ascii)
    (c : ascii) (s : string) (k : option ascii -> string -> option R) :
  p c = false -> rep_greedy p 0 None prev (String c s) k = k prev (String c s).
Proof. intros H. simpl. rewrite H. reflexivity. Qed.

Lemma rep_greedy_stuck {R : Type} (p : ascii -> bool) (prev : option ascii)
    (c : ascii) (s : string) (k : option ascii -> string -> option R) :
  p c = false -> rep_greedy p 1 None prev (String c s) k = None.
Proof. intros H. simpl. rewrite H. reflexivity. Qed.

(** The pattern for prices on a dollar sign followed by digits and
    commas: the whole text after the sign is captured. *)
Lemma price_search_plain (c : ascii) (body : string) :
  is_digit c = true -> forallb_string digit_or_comma body = true ->
  re_search _price_re (String "$" (String c body))
  = Some (String "$" (String c body), Some (String c body)).
Proof.
  intros Hc Hbody. unfold re_search. apply search_from_here.
  unfold match_at, _price_re. cbn [rmatch ms_rest ms_prev ms_group].
  change (is_char "$" "$") with true. cbn iota.
  destruct (digit_plain c Hc) as (_ & Hsp & _ & _ & _ & _ & _ & Hdc).
  unfold not_a in Hsp. apply negb_true_iff in Hsp.
  rewrite rep_greedy_skip by exact Hsp. cbn [ms_rest ms_prev ms_group].
  destruct (rep_greedy_all digit_or_comma (String c body) 1 (Some "$"%char)
              (fun prev' s' =>
                 Some (consumed (String "$" (String c body)) s',
                       Some (consumed (String c body) s'))))
    as [prev' Hall].
  - simpl. rewrite Hdc, Hbody. reflexivity.
  - simpl. lia.
  - discriminate.
  - rewrite Hall, !consumed_all. reflexivity.
Qed.

Lemma price_search_none (s : string) :
  forallb_string (not_a (is_char "$")) s = true ->
  forall prev, search_from _price_re prev s = None.
Proof.
  induction s as [|c s IH]; intros Hs prev.
  - reflexivity.
  - simpl in Hs. apply andb_true_iff in Hs as [Hc Hs].
    unfold not_a in Hc. apply negb_true_iff in Hc.
    cbn [search_from]. unfold match_at, _price_re at 1.
    cbn [rmatch ms_rest ms_prev ms_group]. rewrite Hc. apply IH, Hs.
Qed.

Lemma replace_nbsp_plain (s : string) :
  forallb_string (not_a (is_char nbsp)) s = true -> replace_char nbsp " " s = s.
Proof.
  unfold replace_char. apply map_string_fixed.
  intros c Hc. unfold not_a in Hc. apply negb_true_iff in Hc. rewrite Hc. reflexivity.
Qed.

(** X4: the price cell reads back.  [parse_price] gives back the price
    that [print_rows] shows, for every price that is not negative; the
    cell of a negative price, and the cell ["N/A"] of a missing one, read
    as no price. *)
Theorem price_cell_reads_back (price : option Z) (t : string) :
  price_cell price = Ok t ->
  parse_price (VStr t)
  = Ok (match price with
        | Some p => if p <? 0 then None else Some p
        | None => None
        end).
Proof.
  destruct price as [p|]; [|intros [= <-]; vm_compute; reflexivity].
  unfold price_cell, format_thousands.
  destruct (int_max_str_digits <? _)%nat eqn:Hlen; [discriminate|].
  apply Nat.ltb_ge in Hlen. cbn [bind]. intros [= <-].
  pose proof (py_int_decimal (Z.abs_N p) Hlen) as Hint.
  rewrite decimal_of_N in *.
  pose proof (uint_string_digits (N.to_uint (Z.abs_N p))) as Hd.
  destruct (group_thousands_commas _ Hd) as [Hrm Hdc].
  pose proof (to_uint_nonnil (Z.abs_N p)) as Hnil.
  destruct (NilEmpty.string_of_uint (N.to_uint (Z.abs_N p))) as [|c s] eqn:Es.
  { destruct (N.to_uint (Z.abs_N p)); simpl in Es; congruence. }
  destruct (group_thousands_head c s) as [g Hg]. rewrite Hg in *.
  simpl in Hd. apply andb_true_iff in Hd as [Hc Hs].
  simpl in Hdc. apply andb_true_iff in Hdc as [_ Hg2].
  assert (Hplain : forall q, (forall x, digit_or_comma x = true -> q x = true) ->
            forallb_string q (String c g) = true).
  { intros q Hq. simpl. rewrite (Hq c (proj2 (proj2 (proj2 (proj2 (proj2 (proj2
                              (proj2 (digit_plain c Hc))))))))).
    eapply forallb_string_impl; [exact Hq | exact Hg2]. }
  assert (Hnb : forall x, digit_or_comma x = true -> not_a (is_char nbsp) x = true)
    by (intros x; destruct x as [[] [] [] [] [] [] [] []]; vm_compute; congruence).
  assert (Hnd : forall x, digit_or_comma x = true -> not_a (is_char "$") x = true)
    by (intros x; destruct x as [[] [] [] [] [] [] [] []]; vm_compute; congruence).
  assert (Hcons : forall q (x : ascii) (rest : string),
            q x = true -> forallb_string q rest = true ->
            forallb_string q (String x rest) = true)
    by (intros q x rest Hx Hr; cbn [forallb_string]; rewrite Hx, Hr; reflexivity).
  unfold parse_price. destruct (p <? 0) eqn:Hneg.
  - (* a sign after the dollar: no match *)
    cbn [String.append truthy truthy_str negb].
    rewrite replace_nbsp_plain
      by (apply Hcons; [reflexivity|]; apply Hcons; [reflexivity|]; apply Hplain, Hnb).
    unfold re_search. rewrite search_from_next.
    + rewrite price_search_none; [reflexivity|].
      apply Hcons; [reflexivity|]. apply Hplain, Hnd.
    + unfold match_at, _price_re. cbn [rmatch ms_rest ms_prev ms_group].
      change (is_char "$" "$") with true. cbn iota.
      rewrite rep_greedy_skip by reflexivity. cbn [ms_rest ms_prev ms_group].
      apply rep_greedy_stuck. reflexivity.
  - cbn [String.append truthy truthy_str negb].
    rewrite replace_nbsp_plain by (apply Hcons; [reflexivity|]; apply Hplain, Hnb).
    rewrite (price_search_plain c g Hc Hg2). cbn [group1 snd].
    unfold _to_int. rewrite Hrm.
    unfold py_strip.
    rewrite lstrip_none, rstrip_none
      by (apply Hcons; [apply (digit_plain c Hc)|];
          eapply forallb_string_impl; [|exact Hs];
          intros x Hx; apply (digit_plain x Hx)).
    rewrite Hint. f_equal. f_equal. apply Z.ltb_ge in Hneg.
    rewrite N2Z.inj_abs_N. lia.
Qed.

Ltac zbool :=
  repeat match goal with
         | H : (_ >=? _) = true |- _ => rewrite Z.geb_leb in H; apply Z.leb_le in H
         | H : (_ >=? _) = false |- _ => rewrite Z.geb_leb in H; apply Z.leb_gt in H
         | H : (_ >? _) = true |- _ => rewrite Z.gtb_ltb in H; apply Z.ltb_lt in H
         | H : (_ >? _) = false |- _ => rewrite Z.gtb_ltb in H; apply Z.ltb_ge in H
         | H : (_ <? _) = true |- _ => apply Z.ltb_lt in H
         | H : (_ <? _) = false |- _ => apply Z.ltb_ge in H
         | H : (_ <=? _) = true |- _ => apply Z.leb_le in H
         | H : (_ <=? _) = false |- _ => apply Z.leb_gt in H
         | H : (_ =? _) = true |- _ => apply Z.eqb_eq in H
         | H : (_ =? _) = false |- _ => apply Z.eqb_neq in H
         end.

Ltac coerce_steps :=
  repeat match goal with
         | |- context [bind ?x _] =>
             let E := fresh "E" in destruct x eqn:E; cbn [bind]; try discriminate
         end.

Section Pipeline_properties.

Variable validator : string -> bool.

Abbreviation urlsplit := (urlsplit validator).
Abbreviation _normalize_url := (_normalize_url validator).
Abbreviation normalize_str := (normalize_str validator).
Abbreviation _coerce_listing := (_coerce_listing validator).
Abbreviation _dedupe_and_trim := (_dedupe_and_trim validator).
Abbreviation dedupe_loop := (dedupe_loop validator).
Abbreviation scraper_finish := (scraper_finish validator).
Abbreviation query_listings_async := (query_listings_async validator).
Abbreviation merged := (merged validator).
Abbreviation before_sort := (before_sort validator).
Abbreviation kept_as := (kept_as validator).
Abbreviation _abs := (_abs validator).
Abbreviation urljoin := (urljoin validator).
Abbreviation urlparse := (urlparse validator).

(** ** Deduplication: bounds, order, laziness *)

Lemma dedupe_loop_length (k : Z) (rows : list Listing) :
  forall (uniq : list Listing) (seen : gset string) (res : list Listing),
    dedupe_loop rows uniq seen k = Ok res ->
    Z.of_nat (length uniq) < Z.max k 1 ->
    Z.of_nat (length res) <= Z.max k 1.
Proof.
  induction rows as [|r rows IH]; intros uniq seen res; simpl.
  - intros [= <-]. lia.
  - destruct (_normalize_url (l_url r)) as [u|e]; simpl; [|discriminate].
    destruct u as [| | | |s| |]; try apply IH.
    destruct (truthy_str s); simpl; [|apply IH].
    destruct (bool_decide (s ∈ seen)); [apply IH|].
    destruct (Z.of_nat (length (uniq ++ [set_url r (VStr s)])) >=? k) eqn:E.
    + intros [= <-] Hlen. zbool. rewrite length_app in *. simpl in *. lia.
    + intros H Hlen. apply (IH _ _ _ H).
      zbool. rewrite length_app in *. simpl in *. lia.
Qed.

(** X5: [_dedupe_and_trim] returns at most [k] rows, and at most one row
    when [k] is below 1: the length is tested after a row is added. *)
Theorem dedupe_returns_at_most_k (rows uniq : list Listing) (k : Z) :
  _dedupe_and_trim rows k = Ok uniq -> Z.of_nat (length uniq) <= Z.max k 1.
Proof.
  intros H. apply (dedupe_loop_length _ _ _ _ _ H). simpl. lia.
Qed.

Lemma dedupe_loop_sublist (k : Z) (rows : list Listing) :
  forall (uniq : list Listing) (seen : gset string) (res : list Listing),
    dedupe_loop rows uniq seen k = Ok res ->
    exists kept added,
      res = (uniq ++ added)%list /\ kept `sublist_of` rows /\
      Forall2 kept_as kept added.
Proof.
  induction rows as [|r rows IH]; intros uniq seen res; simpl.
  - intros [= <-]. exists [], []. rewrite app_nil_r.
    split; [reflexivity|]. split; constructor.
  - assert (Hskip : dedupe_loop rows uniq seen k = Ok res ->
              exists kept added,
                res = (uniq ++ added)%list /\ kept `sublist_of` (r :: rows) /\
                Forall2 kept_as kept added).
    { intros H. destruct (IH _ _ _ H) as (kept & added & -> & Hsub & Hall).
      exists kept, added. split; [reflexivity|]. split; [|exact Hall].
      apply sublist_cons, Hsub. }
    destruct (_normalize_url (l_url r)) as [u|e] eqn:Hn; simpl; [|discriminate].
    destruct u as [| | | |s| |]; try exact Hskip.
    destruct (truthy_str s) eqn:Hs; simpl; [|exact Hskip].
    destruct (bool_decide (s ∈ seen)); [exact Hskip|].
    assert (Hr : kept_as r (set_url r (VStr s))) by (exists s; auto).
    destruct (Z.of_nat (length (uniq ++ [set_url r (VStr s)])) >=? k).
    + intros [= <-]. exists [r], [set_url r (VStr s)].
      split; [reflexivity|]. split.
      * apply sublist_skip, sublist_nil_l.
      * constructor; [exact Hr | constructor].
    + intros H. destruct (IH _ _ _ H) as (kept & added & -> & Hsub & Hall).
      exists (r :: kept), (set_url r (VStr s) :: added).
      rewrite <- app_assoc. split; [reflexivity|]. split.
      * apply sublist_skip, Hsub.
      * constructor; assumption.
Qed.

(** X6: [_dedupe_and_trim] drops rows and rewrites URLs, nothing else:
    what it returns is, in the order of the input, some of the rows, each
    with its URL replaced by the normalised URL, which is not empty. *)
Theorem dedupe_keeps_order_and_fields (rows uniq : list Listing) (k : Z) :
  _dedupe_and_trim rows k = Ok uniq ->
  exists kept, kept `sublist_of` rows /\ Forall2 kept_as kept uniq.
Proof.
  intros H. apply dedupe_loop_sublist in H as (kept & added & -> & Hsub & Hall).
  exists kept. auto.
Qed.

Lemma dedupe_loop_lazy (k : Z) (more rows : list Listing) :
  forall (uniq : list Listing) (seen : gset string) (res : list Listing),
    dedupe_loop rows uniq seen k = Ok res ->
    uniq = [] \/ Z.of_nat (length uniq) < k ->
    res <> [] -> k <= Z.of_nat (length res) ->
    dedupe_loop (rows ++ more) uniq seen k = Ok res.
Proof.
  induction rows as [|r rows IH]; intros uniq seen res; simpl.
  - intros [= <-] [-> | Hlt] Hne Hk; [congruence | lia].
  - destruct (_normalize_url (l_url r)) as [u|e]; simpl; [|discriminate].
    destruct u as [| | | |s| |]; try apply IH.
    destruct (truthy_str s); simpl; [|apply IH].
    destruct (bool_decide (s ∈ seen)); [apply IH|].
    destruct (Z.of_nat (length (uniq ++ [set_url r (VStr s)])) >=? k) eqn:E.
    + auto.
    + intros H _. apply IH; [exact H|]. right. zbool. lia.
Qed.

(** X7: once the list is full the rows that follow are not looked at:
    whatever is appended to the input, the result is the same (and no URL
    among it can make the call raise). *)
Theorem dedupe_stops_at_k (rows more uniq : list Listing) (k : Z) :
  _dedupe_and_trim rows k = Ok uniq ->
  uniq <> [] -> k <= Z.of_nat (length uniq) ->
  _dedupe_and_trim (rows ++ more) k = Ok uniq.
Proof.
  intros H Hne Hk. apply dedupe_loop_lazy; auto.
Qed.

Lemma dedupe_loop_complete (k : Z) (rows : list Listing) :
  forall (uniq : list Listing) (seen : gset string) (res : list Listing),
    dedupe_loop rows uniq seen k = Ok res ->
    Z.of_nat (length res) < k ->
    forall (r : Listing) (s : string),
      In r rows -> _normalize_url (l_url r) = Ok (VStr s) -> truthy_str s = true ->
      s ∈ seen \/ exists o, In o res /\ l_url o = VStr s.
Proof.
  induction rows as [|r0 rows IH]; intros uniq seen res; simpl.
  - intros _ _ r s [].
  - destruct (_normalize_url (l_url r0)) as [u|e] eqn:Hn; simpl; [|discriminate].
    assert (Hskip : (forall s, u = VStr s -> truthy_str s = true -> s ∈ seen) ->
              dedupe_loop rows uniq seen k = Ok res ->
              Z.of_nat (length res) < k ->
              forall r s,
                r0 = r \/ In r rows -> _normalize_url (l_url r) = Ok (VStr s) ->
                truthy_str s = true ->
                s ∈ seen \/ exists o, In o res /\ l_url o = VStr s).
    { intros Hu H Hlen r s [<- | Hin] Hr Hs.
      - left. apply Hu; [congruence | exact Hs].
      - eapply IH; eassumption. }
    destruct u as [| | | |s0| |]; try (apply Hskip; intros s; discriminate).
    destruct (truthy_str s0) eqn:Hs0; simpl.
    2:{ apply Hskip. intros s [= <-]. congruence. }
    destruct (bool_decide (s0 ∈ seen)) eqn:Hseen.
    { apply bool_decide_eq_true in Hseen. apply Hskip. intros s [= <-] _. exact Hseen. }
    destruct (Z.of_nat (length (uniq ++ [set_url r0 (VStr s0)])) >=? k) eqn:E.
    + intros [= <-] Hlen. zbool. lia.
    + intros H Hlen r s [<- | Hin] Hr Hs.
      * right. rewrite Hn in Hr. injection Hr as <-.
        apply dedupe_loop_spec in H as (added & -> & _).
        exists (set_url r0 (VStr s0)). split; [|reflexivity].
        apply in_or_app. left. apply in_or_app. right. left. reflexivity.
      * destruct (IH _ _ _ H Hlen r s Hin Hr Hs) as [Hin' | Hex]; [|right; exact Hex].
        apply elem_of_union in Hin' as [Hin' | Hin']; [|left; exact Hin'].
        apply elem_of_singleton in Hin'. subst s.
        apply dedupe_loop_spec in H as (added & -> & _).
        right. exists (set_url r0 (VStr s0)). split; [|reflexivity].
        apply in_or_app. left. apply in_or_app. right. left. reflexivity.
Qed.

(** X8: when fewer than [k] rows come back nothing was trimmed: every
    URL of the input that normalises to a non-empty string is the URL of a
    row of the result. *)
Theorem dedupe_keeps_every_url_below_k (rows uniq : list Listing) (k : Z) :
  _dedupe_and_trim rows k = Ok uniq ->
  Z.of_nat (length uniq) < k ->
  forall (r : Listing) (s : string),
    In r rows -> _normalize_url (l_url r) = Ok (VStr s) -> truthy_str s = true ->
    exists o, In o uniq /\ l_url o = VStr s.
Proof.
  intros H Hlen r s Hin Hr Hs.
  destruct (dedupe_loop_complete _ _ _ _ _ H Hlen r s Hin Hr Hs) as [Hseen | Hex];
    [|exact Hex].
  apply elem_of_empty in Hseen. destruct Hseen.
Qed.

Lemma dedupe_loop_raises (k : Z) (rows : list Listing) :
  forall (uniq : list Listing) (seen : gset string),
    (forall (e : exn), dedupe_loop rows uniq seen k = Raise e ->
       exists r, In r rows /\ _normalize_url (l_url r) = Raise e) /\
    (Forall (fun r => exists n, _normalize_url (l_url r) = Ok n) rows ->
     exists res, dedupe_loop rows uniq seen k = Ok res).
Proof.
  induction rows as [|r rows IH]; intros uniq seen; simpl.
  - split; [discriminate | eauto].
  - assert (Hrec : forall uniq seen,
              (forall e, dedupe_loop rows uniq seen k = Raise e ->
                 exists r0, (r = r0 \/ In r0 rows) /\
                            _normalize_url (l_url r0) = Raise e)).
    { intros uniq' seen' e H. destruct (proj1 (IH uniq' seen') e H) as (r0 & Hin & Hr).
      eauto. }
    split.
    + intros e. destruct (_normalize_url (l_url r)) as [u|e'] eqn:Hn; simpl.
      * destruct u as [| | | |s| |]; try apply Hrec.
        destruct (truthy_str s); simpl; [|apply Hrec].
        destruct (bool_decide (s ∈ seen)); [apply Hrec|].
        destruct (_ >=? k); [discriminate | apply Hrec].
      * intros [= ->]. eauto.
    + intros Hall. apply Forall_cons in Hall as [[n Hn] Hall]. rewrite Hn. simpl.
      pose proof (fun u s => proj2 (IH u s) Hall) as Hok.
      destruct n as [| | | |s| |]; try apply Hok.
      destruct (truthy_str s); simpl; [|apply Hok].
      destruct (bool_decide (s ∈ seen)); [apply Hok|].
      destruct (_ >=? k); [eauto | apply Hok].
Qed.

(** X9: [_dedupe_and_trim] raises only what [_normalize_url] raises on
    the URL of one of the rows; it returns when every URL normalises. *)
Theorem dedupe_raises_only_on_a_bad_url (rows : list Listing) (k : Z) :
  (forall e : exn,
     _dedupe_and_trim rows k = Raise e ->
     exists r, In r rows /\ _normalize_url (l_url r) = Raise e) /\
  (Forall (fun r => exists n, _normalize_url (l_url r) = Ok n) rows ->
   exists uniq, _dedupe_and_trim rows k = Ok uniq).
Proof. apply dedupe_loop_raises. Qed.

(** ** The key of deduplication *)

(** A normalised URL with a host splits into the parts it was made of. *)
Lemma recompose_resplit (sch netloc path : string) :
  parts_ok validator sch netloc path -> netloc <> EmptyString ->
  urlsplit (recompose sch netloc path) EmptyString
  = Ok (mkSplit sch netloc path EmptyString EmptyString).
Proof.
  intros H Hne. destruct netloc as [|a nl]; [congruence|]. clear Hne.
  assert (Hroot : starts_with_a (is_char "/") path)
    by (apply (po_path_rooted _ _ _ _ H); discriminate).
  assert (Hp : rooted path = path)
    by (unfold rooted; rewrite (rooted_path _ Hroot); reflexivity).
  pose proof (hier_part_safe validator sch _ path H) as Hsafe.
  assert (Hloc : startswith "//" (hier_part sch (String a nl) path) = true /\
                 _splitnetloc (hier_part sch (String a nl) path)
                 = (String a nl, path) /\
                 netloc_passes validator (String a nl) = true).
  { rewrite hier_part_netloc, Hp. split; [|split].
    - cbn [String.append startswith]. rewrite !is_char_refl. reflexivity.
    - change (_splitnetloc ("//" +:+ String a nl +:+ path))
        with (break_at is_delim (String a nl +:+ path)).
      apply (break_at_join is_delim (String a nl) path);
        [apply H | apply rooted_is_delim, Hroot].
    - apply H. }
  rewrite recompose_eq.
  destruct (po_scheme _ _ _ _ H) as [Hs | (c & t & Hs & Ha & Hf & Hlow)].
  - subst sch. change (truthy_str "") with false. cbv iota.
    apply (urlsplit_of_clean validator _ "" (hier_part "" (String a nl) path)).
    + rewrite hier_part_netloc. reflexivity.
    + exact Hsafe.
    + apply split_scheme_slash. rewrite hier_part_netloc. apply is_char_refl.
    + left. exact Hloc.
    + apply H.
    + apply H.
  - subst sch. change (truthy_str (String c t)) with true. cbv iota.
    apply (urlsplit_of_clean validator _ (String c t)
             (hier_part (String c t) (String a nl) path)).
    + apply (alpha_not_c0 c Ha).
    + rewrite forallb_string_app.
      rewrite (forallb_string_impl _ _ _ scheme_char_safe Hf).
      change (":" +:+ hier_part (String c t) (String a nl) path)
        with (String ":" (hier_part (String c t) (String a nl) path)).
      cbn [forallb_string andb]. change (url_safe ":") with true. exact Hsafe.
    + pose proof (split_scheme_success "" (String c t)
                    (hier_part (String c t) (String a nl) path) c t eq_refl Ha Hf)
        as Hss.
      rewrite Hlow in Hss. exact Hss.
    + left. exact Hloc.
    + apply H.
    + apply H.
Qed.

(** X10: the key of deduplication, for addresses with a host.  Two such
    addresses normalise to the same string exactly when [urlsplit] gives
    them the same scheme (lower-cased), the same network location and the
    same path: they differ in the query and the fragment only.  The
    normalised address splits into these three parts again. *)
Theorem normalised_equal_iff_same_scheme_host_path (u1 u2 : string)
    (sp1 sp2 : SplitResult) :
  urlsplit u1 EmptyString = Ok sp1 -> urlsplit u2 EmptyString = Ok sp2 ->
  sr_netloc sp1 <> EmptyString -> sr_netloc sp2 <> EmptyString ->
  (_normalize_url (VStr u1) = _normalize_url (VStr u2) <->
   sr_scheme sp1 = sr_scheme sp2 /\ sr_netloc sp1 = sr_netloc sp2 /\
   sr_path sp1 = sr_path sp2) /\
  (exists n, _normalize_url (VStr u1) = Ok (VStr n) /\
             urlsplit n EmptyString
             = Ok (mkSplit (sr_scheme sp1) (sr_netloc sp1) (sr_path sp1)
                     EmptyString EmptyString)).
Proof.
  intros H1 H2 Hn1 Hn2.
  assert (Hnorm : forall u sp, urlsplit u EmptyString = Ok sp ->
            sr_netloc sp <> EmptyString ->
            _normalize_url (VStr u)
            = Ok (VStr (recompose (sr_scheme sp) (sr_netloc sp) (sr_path sp)))).
  { intros u sp Hsp Hne. destruct u as [|c t].
    - vm_compute in Hsp. injection Hsp as <-. destruct Hne. reflexivity.
    - rewrite normalize_url_nonempty, (normalize_str_eq _ _ _ Hsp) by reflexivity.
      reflexivity. }
  pose proof (recompose_resplit _ _ _ (urlsplit_parts_ok _ _ _ H1) Hn1) as Hr1.
  pose proof (recompose_resplit _ _ _ (urlsplit_parts_ok _ _ _ H2) Hn2) as Hr2.
  rewrite (Hnorm _ _ H1 Hn1), (Hnorm _ _ H2 Hn2). split.
  - split.
    + intros [= Heq]. rewrite Heq in Hr1. rewrite Hr1 in Hr2.
      injection Hr2 as -> -> ->. auto.
    + intros (-> & -> & ->). reflexivity.
  - eexists. split; [reflexivity | exact Hr1].
Qed.

(** ** The orchestrator: what every run gives *)

Lemma merged_url (year k : Z) (site : string)
    (at_rows cars_rows : result (list Listing)) (o : Listing) :
  In o (merged year k site at_rows cars_rows) ->
  exists s, l_url o = VStr s /\ truthy_str s = true /\
            has_char "?" s = false /\ has_char "#" s = false.
Proof.
  intros Hin. apply merged_origin in Hin as (g & r & s & _ & Hf & ->).
  destruct Hf as (_ & _ & _ & Hn & Hs & _).
  destruct (normalize_url_inv _ _ _ Hn Hs) as (u & sp & _ & Hsp & Hrec).
  pose proof (normalize_str_eq _ _ _ Hsp) as Hnorm. rewrite <- Hrec in Hnorm.
  destruct (normalize_str_clean _ _ _ Hnorm) as [Hq Hh].
  exists s. auto.
Qed.

(** X11: every listing of the output has a URL that is a string, not
    empty, with no query and no fragment, with or without enrichment. *)
Theorem output_urls_are_normalised (year k : Z) (enrich : bool) (site : string)
    (at_rows cars_rows : result (list Listing)) (visit : nat -> vdp_page) (r : Listing) :
  In r (query_listings_async year k enrich site at_rows cars_rows visit) ->
  exists s, l_url r = VStr s /\ s <> EmptyString /\
            has_char "?" s = false /\ has_char "#" s = false.
Proof.
  rewrite query_unfold. fold (before_sort year k enrich site at_rows cars_rows visit).
  intros Hin. apply in_sort_rows, filter_In in Hin as [Hin _].
  apply before_sort_ids in Hin as (o0 & Hin & Hid & _).
  apply merged_url in Hin as (s & Hu & Hs & Hq & Hh).
  injection Hid as _ Hurl. exists s. rewrite <- Hurl.
  repeat split; try assumption. intros ->. discriminate.
Qed.

Lemma task_rows_length (rows : result (list Listing)) (year k : Z) :
  Z.of_nat (length (task_rows (scraper_finish rows year k))) <= Z.max k 1.
Proof.
  unfold scraper_finish. destruct rows as [gathered|e]; simpl; [|lia].
  destruct (_dedupe_and_trim (_enforce_year gathered year) k) as [uniq|e] eqn:Hd;
    simpl; [|lia].
  apply (dedupe_loop_length _ _ _ _ _ Hd). simpl. lia.
Qed.

Lemma enrich_loop_length (visit : nat -> vdp_page) (out : list Listing) :
  length (enrich_loop visit 0 out []) = length out.
Proof. rewrite enrich_loop_pointwise. simpl. apply length_imap. Qed.

Lemma before_sort_length (year k : Z) (enrich : bool) (site : string)
    (at_rows cars_rows : result (list Listing)) (visit : nat -> vdp_page) :
  (length (List.filter (fun r => truthy (l_url r))
             (before_sort year k enrich site at_rows cars_rows visit))
   <= length (merged year k site at_rows cars_rows))%nat.
Proof.
  etransitivity; [apply List.filter_length_le|].
  unfold before_sort. destruct enrich; [|reflexivity].
  unfold _enforce_year. etransitivity; [apply List.filter_length_le|].
  rewrite enrich_loop_length. reflexivity.
Qed.

(** X12: the output holds at most [max_results_each] listings for each
    site asked for (one when [max_results_each] is below 1), and none for a
    [site] that is not one of the three names. *)
Theorem output_length_bounded (year k : Z) (enrich : bool) (site : string)
    (at_rows cars_rows : result (list Listing)) (visit : nat -> vdp_page) :
  let out := query_listings_async year k enrich site at_rows cars_rows visit in
  Z.of_nat (length out)
  <= ((if in_list site ["both"; "autotrader"] then 1 else 0)
      + (if in_list site ["both"; "cars"] then 1 else 0)) * Z.max k 1 /\
  (in_list site ["both"; "autotrader"; "cars"] = false -> out = []).
Proof.
  intros out. subst out. rewrite query_unfold.
  fold (before_sort year k enrich site at_rows cars_rows visit).
  assert (Hlen : Z.of_nat (length (merged year k site at_rows cars_rows))
                 <= ((if in_list site ["both"; "autotrader"] then 1 else 0)
                     + (if in_list site ["both"; "cars"] then 1 else 0)) * Z.max k 1).
  { unfold merged. rewrite length_app, Nat2Z.inj_add.
    pose proof (task_rows_length at_rows year k).
    pose proof (task_rows_length cars_rows year k).
    destruct (in_list site ["both"; "autotrader"]), (in_list site ["both"; "cars"]);
      simpl length; lia. }
  pose proof (before_sort_length year k enrich site at_rows cars_rows visit) as Hb.
  rewrite (Permutation_length (sort_rows_perm _)).
  split; [lia|].
  intros Hsite.
  assert (Hno : in_list site ["both"; "autotrader"] = false /\
                in_list site ["both"; "cars"] = false).
  { unfold in_list in *. simpl in *.
    destruct (String.eqb site "both"), (String.eqb site "autotrader"),
      (String.eqb site "cars"); simpl in *; auto; discriminate. }
  destruct Hno as [Ha Hc]. rewrite Ha, Hc in Hlen. simpl in Hlen.
  destruct (List.filter _ _) as [|x l]; [reflexivity|]. simpl in Hb. lia.
Qed.

Lemma eq_int_truthy (v : pyval) (year : Z) :
  year <> 0 -> py_eq_int v year = true -> truthy v = true.
Proof.
  intros Hy. destruct v as [|b|z|f| | |]; simpl; try discriminate.
  - destruct b; [reflexivity|]. intros H. change (Z.b2z false) with 0 in H.
    zbool. lia.
  - intros H. zbool. subst. apply negb_true_iff, Z.eqb_neq, Hy.
  - unfold float_eq_int, float_is_zero.
    destruct (Prim2SF f); try discriminate; [|reflexivity].
    intros H. zbool. lia.
Qed.

Lemma enriched_row_year (visit : nat -> vdp_page) (i : nat) (r : Listing) (year : Z) :
  year <> 0 -> py_eq_int (l_year r) year = true ->
  py_eq_int (l_year (enriched_row visit i r)) year = true.
Proof.
  intros Hy Hr. unfold enriched_row. destruct (complete r); [exact Hr|].
  destruct (enrich_vdp_keeps (visit i) r) as (_ & _ & _ & Hyear & _).
  simpl in Hyear. rewrite Hyear; [exact Hr|]. eapply eq_int_truthy; eassumption.
Qed.

Lemma enriched_rows_pass (visit : nat -> vdp_page) (year : Z) (out : list Listing) :
  year <> 0 -> Forall (fun r => py_eq_int (l_year r) year = true) out ->
  forall i : nat,
    map row_id
      (List.filter (fun r => truthy (l_url r))
         (_enforce_year (imap (fun j r => enriched_row visit (i + j) r) out) year))
    = map row_id (List.filter (fun r => truthy (l_url r)) out).
Proof.
  intros Hy Hall. induction Hall as [|r out Hr Hall IH]; intros i; [reflexivity|].
  cbn [imap _enforce_year List.filter]. unfold _enforce_year in *.
  cbn [List.filter]. rewrite (enriched_row_year visit _ r year Hy Hr).
  cbn [List.filter].
  pose proof (enriched_row_id visit (i + 0) r) as Hid.
  assert (Hu : l_url (enriched_row visit (i + 0) r) = l_url r)
    by (injection Hid; auto).
  assert (Hrest :
            map row_id
              (List.filter (fun r0 => truthy (l_url r0))
                 (List.filter (fun r0 => py_eq_int (l_year r0) year)
                    (imap ((fun j r0 => enriched_row visit (i + j) r0) ∘ S) out)))
            = map row_id (List.filter (fun r0 => truthy (l_url r0)) out)).
  { rewrite <- (IH (S i)). do 3 f_equal. apply imap_ext. intros j x _. simpl.
    f_equal. lia. }
  rewrite Hu. destruct (truthy (l_url r)); cbn [map]; rewrite Hrest;
    [rewrite Hid|]; reflexivity.
Qed.

(** X13: for a target year that is not 0, enrichment loses no listing: the
    output with enrichment has the listings of the output without it, by
    source and URL.  (A row that reached the merge has the target year, so
    its year is never read again, and it passes the second filter.) *)
Theorem enrichment_keeps_every_listing (year k : Z) (site : string)
    (at_rows cars_rows : result (list Listing)) (visit : nat -> vdp_page) :
  year <> 0 ->
  Permutation
    (map row_id (query_listings_async year k true site at_rows cars_rows visit))
    (map row_id (query_listings_async year k false site at_rows cars_rows visit)).
Proof.
  intros Hy. rewrite !query_unfold.
  rewrite !(Permutation_map row_id (sort_rows_perm _)).
  rewrite enrich_loop_pointwise. cbn [app].
  assert (Hall : Forall (fun r => py_eq_int (l_year r) year = true)
                   (merged year k site at_rows cars_rows))
    by (apply List.Forall_forall; intros r Hr; eapply merged_year, Hr).
  rewrite (enriched_rows_pass visit year _ Hy Hall 0%nat). reflexivity.
Qed.

(** X14: the detail page of a row that has price, miles, title and year
    is never opened: the output depends on what the browser does only at
    the positions of the rows that lack one of the four. *)
Theorem enrichment_visits_incomplete_rows_only (year k : Z) (site : string)
    (at_rows cars_rows : result (list Listing)) (visit visit' : nat -> vdp_page) :
  (forall (i : nat) (r : Listing),
     merged year k site at_rows cars_rows !! i = Some r ->
     complete r = false -> visit i = visit' i) ->
  query_listings_async year k true site at_rows cars_rows visit
  = query_listings_async year k true site at_rows cars_rows visit'.
Proof.
  intros Hsame. rewrite !query_unfold, !enrich_loop_pointwise.
  do 3 f_equal. cbn [app]. apply imap_ext. intros i r Hr.
  unfold enriched_row. destruct (complete r) eqn:Hc; [reflexivity|].
  cbn [Nat.add]. rewrite (Hsame i r Hr Hc). reflexivity.
Qed.

Lemma insert_row_filter (key : Z * Z) (x : Listing) (l : list Listing) :
  List.filter (same_key key) (insert_row x l) = List.filter (same_key key) (x :: l).
Proof.
  induction l as [|y l IH]; [reflexivity|]. cbn [insert_row].
  destruct (key_le (sort_key x) (sort_key y)) eqn:E; [reflexivity|].
  cbn [List.filter] in *. rewrite IH.
  destruct (same_key key x) eqn:Hx, (same_key key y) eqn:Hy; try reflexivity.
  exfalso. unfold same_key in Hx, Hy.
  apply andb_true_iff in Hx as [Hx1 Hx2]. apply andb_true_iff in Hy as [Hy1 Hy2].
  assert (Hn : ~ (key_le (sort_key x) (sort_key y) = true))
    by (rewrite E; discriminate).
  apply Hn, key_le_spec. zbool. lia.
Qed.

Lemma sort_rows_filter (key : Z * Z) (l : list Listing) :
  List.filter (same_key key) (sort_rows l) = List.filter (same_key key) l.
Proof.
  induction l as [|x l IH]; [reflexivity|]. cbn [sort_rows].
  rewrite insert_row_filter. cbn [List.filter]. rewrite IH. reflexivity.
Qed.

(** X15: the sort is stable.  The listings of the output that share a
    sort key stand in the order in which they were merged: the rows of
    Autotrader before those of Cars.com, each in its scraper's order. *)
Theorem output_order_among_equal_keys (year k : Z) (enrich : bool) (site : string)
    (at_rows cars_rows : result (list Listing)) (visit : nat -> vdp_page)
    (key : Z * Z) :
  List.filter (same_key key)
    (query_listings_async year k enrich site at_rows cars_rows visit)
  = List.filter (same_key key)
      (List.filter (fun r => truthy (l_url r))
         (before_sort year k enrich site at_rows cars_rows visit)).
Proof. rewrite query_unfold. apply sort_rows_filter. Qed.

Lemma filter_url_merged (year k : Z) (site : string)
    (at_rows cars_rows : result (list Listing)) :
  List.filter (fun r => truthy (l_url r)) (merged year k site at_rows cars_rows)
  = merged year k site at_rows cars_rows.
Proof.
  apply forallb_filter_id, forallb_forall. intros r Hr.
  apply merged_url in Hr as (s & -> & Hs & _). exact Hs.
Qed.

(** X16: the sites do not disturb each other.  Without enrichment the
    output for ["both"] is the outputs for the two sites put together and
    sorted again; and a scraper that raised counts as one that was not
    asked: the output is that of the other site alone. *)
Theorem sites_are_independent (year k : Z)
    (at_rows cars_rows : result (list Listing)) (visit : nat -> vdp_page) :
  Permutation
    (query_listings_async year k false "both" at_rows cars_rows visit)
    (query_listings_async year k false "autotrader" at_rows cars_rows visit
     ++ query_listings_async year k false "cars" at_rows cars_rows visit) /\
  (forall (enrich : bool) (e : exn),
     query_listings_async year k enrich "both" (Raise e) cars_rows visit
     = query_listings_async year k enrich "cars" at_rows cars_rows visit) /\
  (forall (enrich : bool) (e : exn),
     query_listings_async year k enrich "both" at_rows (Raise e) visit
     = query_listings_async year k enrich "autotrader" at_rows cars_rows visit).
Proof.
  split; [|split].
  - rewrite !query_unfold, !filter_url_merged, !sort_rows_perm.
    unfold merged. simpl. rewrite app_nil_r. reflexivity.
  - intros enrich e. rewrite !query_unfold. unfold merged. simpl. reflexivity.
  - intros enrich e. rewrite !query_unfold. unfold merged. simpl.
    rewrite !app_nil_r. reflexivity.
Qed.

End Pipeline_properties.

(** ** Detail-page enrichment: the frame *)

(** X17: [enrich_vdp] assigns price, miles, title and year only.  However
    the call ends, source, location, dealer and URL are as before; a row
    with no URL is returned as it is, whatever the browser would do; and a
    row that has the four fields comes back unchanged. *)
Theorem enrich_touches_four_fields (pg : vdp_page) (row : Listing) :
  let row' := fst (enrich_vdp pg row) in
  (l_source row' = l_source row /\ l_location row' = l_location row /\
   l_dealer row' = l_dealer row /\ l_url row' = l_url row) /\
  (truthy (l_url row) = false -> enrich_vdp pg row = (row, Returned)) /\
  (complete row = true -> row' = row).
Proof.
  intros row'. subst row'.
  destruct (enrich_vdp_keeps pg row) as (Hp & Hm & Ht & Hy & Hs & Hl & Hd & Hu).
  simpl in *. split; [auto|]. split.
  - intros H. unfold enrich_vdp. rewrite H. reflexivity.
  - unfold complete. rewrite !andb_true_iff. intros [[[Hp' Hm'] Ht'] Hy'].
    specialize (Hp Hp'). specialize (Hm Hm'). specialize (Ht Ht'). specialize (Hy Hy').
    destruct (enrich_vdp pg row).1, row. simpl in *. congruence.
Qed.

(** X18: a row changes only when the visit went through: the page opened,
    the navigation did not fail (a timeout is let pass), the scroll and
    the read of the content returned. *)
Theorem enrich_changes_row_only_after_page_read (pg : vdp_page) (row : Listing) :
  fst (enrich_vdp pg row) <> row ->
  truthy (l_url row) = true /\ pg_opens pg = true /\ pg_goto pg <> NavFault /\
  pg_scrolls pg = true /\ pg_content pg <> None.
Proof.
  unfold enrich_vdp.
  destruct (truthy (l_url row)); simpl; [|congruence].
  destruct (pg_opens pg); simpl; [|congruence].
  unfold enrich_body.
  destruct (pg_goto pg); simpl; try congruence;
    (destruct (pg_scrolls pg); simpl; [|congruence]);
    (destruct (pg_content pg); simpl; [|congruence]);
    intros _; repeat split; congruence.
Qed.

(** ** Reading the DOM *)

Lemma rstrip_idem (p : ascii -> bool) (s : string) :
  rstrip_with p (rstrip_with p s) = rstrip_with p s.
Proof.
  induction s as [|c s IH]; [reflexivity|]. simpl.
  destruct (rstrip_with p s) as [|x t] eqn:E.
  - destruct (p c) eqn:Hc; simpl; [reflexivity|]. rewrite Hc. reflexivity.
  - simpl in *. rewrite IH. reflexivity.
Qed.

Lemma rstrip_head (p : ascii -> bool) (s : string) :
  starts_with_a (not_a p) s -> starts_with_a (not_a p) (rstrip_with p s).
Proof.
  destruct s as [|c s]; [auto|]. simpl. intros Hc.
  destruct (rstrip_with p s).
  - unfold not_a in Hc. apply negb_true_iff in Hc. rewrite Hc. simpl.
    unfold not_a. rewrite Hc. reflexivity.
  - exact Hc.
Qed.

Lemma py_strip_idem (s : string) : py_strip (py_strip s) = py_strip s.
Proof.
  unfold py_strip.
  rewrite (lstrip_fixed py_isspace (rstrip_with py_isspace _)).
  - apply rstrip_idem.
  - apply rstrip_head, lstrip_head.
Qed.

(** X19: [_first_text] gives the text under the first selector whose read
    returns a text that is not empty, stripped; the reads that raise,
    return [None] or return the empty string are passed over; it gives
    [None] when every read is of that kind.  The text it gives has no
    white space at either end, and is empty when the text read is white
    space only: later selectors are not tried then. *)
Theorem first_text_is_first_nonempty_read (node : dom_node) (selectors : list string) :
  (forall t : string,
     _first_text node selectors = Some t <->
     exists pre sel post t0,
       selectors = (pre ++ sel :: post)%list /\ Forall (no_text node) pre /\
       nd_text node sel = Some (Some t0) /\ truthy_str t0 = true /\
       t = py_strip t0) /\
  (_first_text node selectors = None <-> Forall (no_text node) selectors) /\
  (forall t : string, _first_text node selectors = Some t -> py_strip t = t).
Proof.
  assert (Hsome : forall t,
            _first_text node selectors = Some t <->
            exists pre sel post t0,
              selectors = (pre ++ sel :: post)%list /\ Forall (no_text node) pre /\
              nd_text node sel = Some (Some t0) /\ truthy_str t0 = true /\
              t = py_strip t0).
  { intros t. induction selectors as [|sel sels IH]; simpl.
    - split; [discriminate|]. intros (pre & s & post & t0 & H & _).
      destruct pre; discriminate.
    - assert (Hskip : no_text node sel ->
                (_first_text node sels = Some t <->
                 exists pre s post t0,
                   sel :: sels = (pre ++ s :: post)%list /\ Forall (no_text node) pre /\
                   nd_text node s = Some (Some t0) /\ truthy_str t0 = true /\
                   t = py_strip t0)).
      { intros Hno. rewrite IH. split.
        - intros (pre & s & post & t0 & -> & Hpre & H).
          exists (sel :: pre), s, post, t0. split; [reflexivity|].
          split; [constructor; assumption | exact H].
        - intros (pre & s & post & t0 & Heq & Hpre & Hs & Ht0 & Ht).
          destruct pre as [|x pre]; simpl in Heq; injection Heq as <- ->.
          + unfold no_text in Hno. rewrite Hs in Hno. congruence.
          + apply Forall_cons in Hpre as [_ Hpre]. exists pre, s, post, t0. auto. }
      destruct (nd_text node sel) as [[t0|]|] eqn:Hsel;
        try (apply Hskip; unfold no_text; rewrite Hsel; exact I).
      destruct (truthy_str t0) eqn:Ht0;
        [|apply Hskip; unfold no_text; rewrite Hsel; exact Ht0].
      split.
      + intros [= <-]. exists [], sel, sels, t0. repeat split; auto.
      + intros (pre & s & post & t1 & Heq & Hpre & Hs & Ht1 & ->).
        destruct pre as [|x pre]; simpl in Heq; injection Heq as <- ->.
        * rewrite Hsel in Hs. injection Hs as ->. reflexivity.
        * apply Forall_cons in Hpre as [Hno _]. unfold no_text in Hno.
          rewrite Hsel in Hno. congruence. }
  split; [exact Hsome|]. split.
  - clear Hsome. induction selectors as [|sel sels IH]; simpl.
    + split; [constructor | reflexivity].
    + destruct (nd_text node sel) as [[t0|]|] eqn:Hsel.
      * destruct (truthy_str t0) eqn:Ht0.
        -- split; [discriminate|]. intros H. apply Forall_cons in H as [Hno _].
           unfold no_text in Hno. rewrite Hsel in Hno. congruence.
        -- rewrite IH. split.
           ++ intros H. constructor; [|exact H]. unfold no_text. rewrite Hsel. exact Ht0.
           ++ intros H. apply Forall_cons in H as [_ H]. exact H.
      * rewrite IH. split.
        -- intros H. constructor; [|exact H]. unfold no_text. rewrite Hsel. exact I.
        -- intros H. apply Forall_cons in H as [_ H]. exact H.
      * rewrite IH. split.
        -- intros H. constructor; [|exact H]. unfold no_text. rewrite Hsel. exact I.
        -- intros H. apply Forall_cons in H as [_ H]. exact H.
  - intros t Ht. apply Hsome in Ht as (_ & _ & _ & t0 & _ & _ & _ & _ & ->).
    apply py_strip_idem.
Qed.

(** X20: [_first_attr] gives the first attribute value that is not empty,
    as it is read; what it gives is never the empty string. *)
Theorem first_attr_is_first_nonempty_read (node : dom_node) (selectors : list string)
    (attr : string) :
  (forall v : string,
     _first_attr node selectors attr = Some v <->
     exists pre sel post,
       selectors = (pre ++ sel :: post)%list /\ Forall (no_attr node attr) pre /\
       nd_attr node sel attr = Some (Some v) /\ truthy_str v = true) /\
  (_first_attr node selectors attr = None <-> Forall (no_attr node attr) selectors).
Proof.
  split.
  - intros v. induction selectors as [|sel sels IH]; simpl.
    + split; [discriminate|]. intros (pre & s & post & H & _).
      destruct pre; discriminate.
    + assert (Hskip : no_attr node attr sel ->
                (_first_attr node sels attr = Some v <->
                 exists pre s post,
                   sel :: sels = (pre ++ s :: post)%list /\
                   Forall (no_attr node attr) pre /\
                   nd_attr node s attr = Some (Some v) /\ truthy_str v = true)).
      { intros Hno. rewrite IH. split.
        - intros (pre & s & post & -> & Hpre & H).
          exists (sel :: pre), s, post. split; [reflexivity|].
          split; [constructor; assumption | exact H].
        - intros (pre & s & post & Heq & Hpre & Hs & Hv).
          destruct pre as [|x pre]; simpl in Heq; injection Heq as <- ->.
          + unfold no_attr in Hno. rewrite Hs in Hno. congruence.
          + apply Forall_cons in Hpre as [_ Hpre]. exists pre, s, post. auto. }
      destruct (nd_attr node sel attr) as [[v0|]|] eqn:Hsel;
        try (apply Hskip; unfold no_attr; rewrite Hsel; exact I).
      destruct (truthy_str v0) eqn:Hv0;
        [|apply Hskip; unfold no_attr; rewrite Hsel; exact Hv0].
      split.
      * intros [= <-]. exists [], sel, sels. repeat split; auto.
      * intros (pre & s & post & Heq & Hpre & Hs & Hv).
        destruct pre as [|x pre]; simpl in Heq; injection Heq as <- ->.
        -- rewrite Hsel in Hs. injection Hs as ->. reflexivity.
        -- apply Forall_cons in Hpre as [Hno _]. unfold no_attr in Hno.
           rewrite Hsel in Hno. congruence.
  - induction selectors as [|sel sels IH]; simpl.
    + split; [constructor | reflexivity].
    + destruct (nd_attr node sel attr) as [[v0|]|] eqn:Hsel.
      * destruct (truthy_str v0) eqn:Hv0.
        -- split; [discriminate|]. intros H. apply Forall_cons in H as [Hno _].
           unfold no_attr in Hno. rewrite Hsel in Hno. congruence.
        -- rewrite IH. split.
           ++ intros H. constructor; [|exact H]. unfold no_attr. rewrite Hsel. exact Hv0.
           ++ intros H. apply Forall_cons in H as [_ H]. exact H.
      * rewrite IH. split.
        -- intros H. constructor; [|exact H]. unfold no_attr. rewrite Hsel. exact I.
        -- intros H. apply Forall_cons in H as [_ H]. exact H.
      * rewrite IH. split.
        -- intros H. constructor; [|exact H]. unfold no_attr. rewrite Hsel. exact I.
        -- intros H. apply Forall_cons in H as [_ H]. exact H.
Qed.

(** ** The deep scroll *)

Lemma round_count_nonneg (r : scroll_round) : 0 <= round_count r.
Proof. unfold round_count. destruct (rd_count r); lia. Qed.

Lemma deep_scroll_state (rounds : nat -> scroll_round) (max_rounds : Z) (fuel : nat) :
  forall (i : nat) (last_n stable : Z) (n : nat),
    deep_scroll fuel rounds i last_n stable max_rounds = Some (Ok n) ->
    scroll_state rounds i last_n stable ->
    exists last' stable',
      max_rounds <= stable' /\ scroll_state rounds n last' stable'.
Proof.
  induction fuel as [|fuel IH]; intros i last_n stable n; simpl.
  - destruct (stable <? max_rounds) eqn:E; [discriminate|].
    intros [= <-] Hst. zbool. eauto.
  - destruct (stable <? max_rounds) eqn:E.
    2:{ intros [= <-] Hst. zbool. eauto. }
    destruct (rd_scrolls (rounds i)); simpl; [|discriminate].
    pose proof (round_count_nonneg (rounds i)) as Hnn.
    destruct (round_count (rounds i) =? last_n) eqn:Hn; zbool.
    + intros H (Hs & Hst). apply (IH _ _ _ _ H). split; [lia|]. right.
      destruct Hst as [(-> & -> & Hneg) | (Hi & Hrun)]; [lia|].
      split; [lia|]. intros j Hj.
      destruct (decide (j = i)) as [-> | Hne]; [exact Hn|]. apply Hrun. lia.
    + intros H (Hs & Hst). apply (IH _ _ _ _ H). split; [lia|]. right.
      split; [lia|]. intros j Hj.
      assert (j = i) as -> by lia. reflexivity.
Qed.

(** X21: the deep scroll ends only on a page that stood still.  When it
    returns after [n] rounds, with [max_rounds] at least 1, it made more
    than [max_rounds] rounds and the last [max_rounds + 1] of them counted
    the same number of cards (a count that raised counting as 0). *)
Theorem deep_scroll_ends_on_a_stable_page (rounds : nat -> scroll_round)
    (max_rounds : Z) (fuel n : nat) :
  _autotrader_deep_scroll rounds max_rounds fuel = Some (Ok n) ->
  1 <= max_rounds ->
  max_rounds + 1 <= Z.of_nat n /\
  forall j : nat,
    Z.of_nat n - 1 - max_rounds <= Z.of_nat j < Z.of_nat n ->
    round_count (rounds j) = round_count (rounds (n - 1)%nat).
Proof.
  intros H Hm. unfold _autotrader_deep_scroll in H.
  apply deep_scroll_state in H as (last' & stable' & Hle & Hs & Hst).
  2:{ split; [lia|]. left. repeat split; lia. }
  destruct Hst as [(-> & -> & _) | (Hn & Hrun)]; [lia|].
  split; [lia|]. intros j Hj.
  rewrite (Hrun j) by lia. rewrite (Hrun (n - 1)%nat) by lia. reflexivity.
Qed.

Lemma deep_scroll_stable_phase (rounds : nat -> scroll_round) (max_rounds last_n : Z)
    (fuel : nat) :
  forall (i : nat) (stable : Z),
    (forall j : nat, (i <= j)%nat ->
       rd_scrolls (rounds j) = true /\ round_count (rounds j) = last_n) ->
    (Z.to_nat (max_rounds - stable) <= fuel)%nat ->
    deep_scroll fuel rounds i last_n stable max_rounds
    = Some (Ok (i + Z.to_nat (max_rounds - stable))%nat).
Proof.
  induction fuel as [|fuel IH]; intros i stable Hrun Hfuel; simpl.
  - destruct (stable <? max_rounds) eqn:E; zbool; [lia|].
    do 2 f_equal. lia.
  - destruct (stable <? max_rounds) eqn:E; zbool.
    2:{ do 2 f_equal. lia. }
    destruct (Hrun i ltac:(lia)) as [-> ->]. simpl. rewrite Z.eqb_refl.
    rewrite IH.
    + do 2 f_equal. lia.
    + intros j Hj. apply Hrun. lia.
    + lia.
Qed.

Lemma deep_scroll_reaches_stable (rounds : nat -> scroll_round) (max_rounds c : Z)
    (r : nat) :
  (forall j : nat, rd_scrolls (rounds j) = true) ->
  (forall j : nat, (r <= j)%nat -> round_count (rounds j) = c) ->
  forall (d i : nat) (last_n stable : Z),
    (r + 1 = i + d)%nat -> 0 <= stable -> (d = 0%nat -> last_n = c) ->
    exists n : nat,
      (i <= n <= r + 1 + Z.to_nat max_rounds)%nat /\
      forall fuel : nat,
        (d + Z.to_nat max_rounds <= fuel)%nat ->
        deep_scroll fuel rounds i last_n stable max_rounds = Some (Ok n).
Proof.
  intros Hsc Hc. induction d as [|d IH]; intros i last_n stable Hi Hs Hlast.
  - rewrite (Hlast eq_refl). exists (i + Z.to_nat (max_rounds - stable))%nat.
    split; [lia|]. intros fuel Hfuel. apply deep_scroll_stable_phase.
    + intros j Hj. split; [apply Hsc | apply Hc; lia].
    + lia.
  - destruct (stable <? max_rounds) eqn:E.
    2:{ exists i. split; [lia|]. intros fuel _.
        destruct fuel; simpl; rewrite E; reflexivity. }
    destruct (round_count (rounds i) =? last_n) eqn:Hn.
    + destruct (IH (S i) last_n (stable + 1)) as (n & Hle & Hrun); [lia | lia | |].
      { intros ->. zbool. rewrite <- Hn. apply Hc. lia. }
      exists n. split; [lia|]. intros fuel Hfuel.
      destruct fuel as [|fuel]; [lia|]. simpl. rewrite E, Hsc, Hn. simpl.
      apply Hrun. lia.
    + destruct (IH (S i) (round_count (rounds i)) 0) as (n & Hle & Hrun);
        [lia | lia | |].
      { intros ->. apply Hc. lia. }
      exists n. split; [lia|]. intros fuel Hfuel.
      destruct fuel as [|fuel]; [lia|]. simpl. rewrite E, Hsc, Hn. simpl.
      apply Hrun. lia.
Qed.

(** X22: the deep scroll ends once the page stands still.  When no scroll
    raises and the count is the same from round [r] on, the loop returns
    within [r + 1 + max_rounds] rounds, whatever fuel beyond that it is
    given; with [max_rounds] below 1 it returns at once, without a
    scroll. *)
Theorem deep_scroll_returns_when_count_settles (rounds : nat -> scroll_round)
    (max_rounds c : Z) (r : nat) :
  (forall j : nat, rd_scrolls (rounds j) = true) ->
  (forall j : nat, (r <= j)%nat -> round_count (rounds j) = c) ->
  (exists n : nat,
     (n <= r + 1 + Z.to_nat max_rounds)%nat /\
     forall fuel : nat,
       (r + 1 + Z.to_nat max_rounds <= fuel)%nat ->
       _autotrader_deep_scroll rounds max_rounds fuel = Some (Ok n)) /\
  (max_rounds <= 0 ->
   forall fuel : nat, _autotrader_deep_scroll rounds max_rounds fuel = Some (Ok 0%nat)).
Proof.
  intros Hsc Hc. split.
  - destruct (deep_scroll_reaches_stable rounds max_rounds c r Hsc Hc
                (r + 1) 0 (-1) 0) as (n & Hle & Hrun); [lia | lia | lia |].
    exists n. split; [lia|]. intros fuel Hfuel. apply Hrun. lia.
  - intros Hm fuel. unfold _autotrader_deep_scroll.
    destruct fuel; simpl; destruct (0 <? max_rounds) eqn:E; zbool;
      reflexivity || lia.
Qed.

Lemma deep_scroll_changing (rounds : nat -> scroll_round) (max_rounds : Z) (fuel : nat) :
  (forall j : nat, rd_scrolls (rounds j) = true) ->
  (forall j : nat, round_count (rounds (S j)) <> round_count (rounds j)) ->
  1 <= max_rounds ->
  forall (i : nat) (last_n : Z),
    round_count (rounds i) <> last_n ->
    deep_scroll fuel rounds i last_n 0 max_rounds = None.
Proof.
  intros Hsc Hch Hm. induction fuel as [|fuel IH]; intros i last_n Hne; simpl.
  - destruct (0 <? max_rounds) eqn:E; zbool; [reflexivity | lia].
  - destruct (0 <? max_rounds) eqn:E; zbool; [|lia].
    rewrite Hsc. simpl.
    destruct (round_count (rounds i) =? last_n) eqn:Hn; zbool; [congruence|].
    apply IH, Hch.
Qed.

(** X23: the deep scroll has no bound of its own.  On a page whose count
    of cards differs from one round to the next, with [max_rounds] at
    least 1, the loop is still running after any number of rounds. *)
Theorem deep_scroll_runs_on_while_count_changes (rounds : nat -> scroll_round)
    (max_rounds : Z) :
  (forall j : nat, rd_scrolls (rounds j) = true) ->
  (forall j : nat, round_count (rounds (S j)) <> round_count (rounds j)) ->
  1 <= max_rounds ->
  forall fuel : nat, _autotrader_deep_scroll rounds max_rounds fuel = None.
Proof.
  intros Hsc Hch Hm fuel. apply deep_scroll_changing; try assumption.
  pose proof (round_count_nonneg (rounds 0%nat)). lia.
Qed.

(** ** Links made absolute *)

Section Links.

Variable validator : string -> bool.

Abbreviation urlsplit := (urlsplit validator).
Abbreviation urlparse := (urlparse validator).
Abbreviation urljoin := (urljoin validator).
Abbreviation _abs := (_abs validator).
Abbreviation _coerce_listing := (_coerce_listing validator).

Lemma break_at_rooted (p : ascii -> bool) (t : string) :
  p "/"%char = false ->
  exists a, (break_at p (String "/" t)).1 = String "/" a.
Proof.
  intros Hp. cbn [break_at]. rewrite Hp.
  destruct (break_at p t) as [a b]. simpl. eauto.
Qed.

(** A rooted path that names no host splits into a path, a query and a
    fragment under the default scheme. *)
Lemma urlsplit_rooted (t : string) :
  startswith "/" t = false -> forallb_string url_safe t = true ->
  exists p query fragment,
    urlsplit (String "/" t) "https"
    = Ok (mkSplit "https" EmptyString (String "/" p) query fragment).
Proof.
  intros Hnot Hsafe. unfold urlsplit.
  change (lstrip_with c0_or_space (String "/" t)) with (String "/" t).
  change (remove_unsafe (rstrip_with c0_or_space (lstrip_with c0_or_space "https")))
    with "https".
  rewrite remove_unsafe_filter.
  rewrite (filter_string_fixed url_safe (String "/" t))
    by (cbn [forallb_string]; rewrite Hsafe; reflexivity).
  rewrite (split_scheme_slash "https" (String "/" t)) by reflexivity.
  assert (Hdouble : startswith "//" (String "/" t) = false).
  { cbn [startswith]. change (is_char "/" "/") with true. cbn [andb].
    destruct t as [|c t]; [reflexivity|]. cbn [startswith] in *.
    rewrite andb_true_r in *. rewrite Hnot. reflexivity. }
  rewrite Hdouble. cbn [bind]. unfold split_first.
  destruct (break_at_rooted (is_char "#") t eq_refl) as [a Ha].
  destruct (break_at (is_char "#") (String "/" t)) as [a' frag]. cbn [fst] in Ha.
  subst a'.
  destruct (break_at_rooted (is_char "?") a eq_refl) as [p Hp].
  destruct (break_at (is_char "?") (String "/" a)) as [p' query]. cbn [fst] in Hp.
  subst p'. eauto.
Qed.

Lemma rsplit_slash_rooted (t : string) :
  exists d, (rsplit_slash (String "/" t)).1 = String "/" d.
Proof.
  cbn [rsplit_slash]. destruct (rsplit_slash t) as [a b].
  destruct (truthy_str a); [simpl; eauto|].
  change (is_char "/" "/") with true. simpl. eauto.
Qed.

Lemma urlparse_rooted (t : string) :
  startswith "/" t = false -> forallb_string url_safe t = true ->
  exists p params query fragment,
    urlparse (String "/" t) "https"
    = Ok (mkParse "https" EmptyString (String "/" p) params query fragment).
Proof.
  intros Hnot Hsafe. unfold urlparse.
  destruct (urlsplit_rooted t Hnot Hsafe) as (p & query & fragment & ->).
  cbn [bind sr_scheme sr_netloc sr_path sr_query sr_fragment].
  destruct (in_list "https" uses_params && has_char ";" (String "/" p)).
  - unfold _splitparams.
    destruct (rsplit_slash_rooted p) as [d Hd].
    destruct (rsplit_slash (String "/" p)) as [dir leaf]. cbn [fst] in Hd. subst dir.
    destruct (break_at (is_char ";") leaf) as [a b].
    destruct b as [|x params]; [eauto|]. cbn [String.append]. eauto.
  - eauto.
Qed.

(** A rooted link joined to the address of a site stays on the site. *)
Lemma urljoin_site_rooted (base : string) (t : string) :
  base = autotrader_base \/ base = cars_base ->
  startswith "/" t = false -> forallb_string url_safe t = true ->
  exists rest, urljoin base (String "/" t) = Ok (base +:+ "/" +:+ rest).
Proof.
  intros Hbase Hnot Hsafe.
  destruct (urlparse_rooted t Hnot Hsafe) as (p & params & query & fragment & Hu).
  assert (Hb : exists host,
            urlparse base EmptyString
            = Ok (mkParse "https" host EmptyString EmptyString EmptyString EmptyString)
            /\ truthy_str host = true /\ base = "https://" +:+ host /\
            truthy_str base = true).
  { destruct Hbase as [-> | ->]; eexists; (split; [vm_compute; reflexivity|]);
      repeat split. }
  destruct Hb as (host & Hb & Hhost & Hbeq & Htb).
  unfold urljoin. rewrite Htb. cbn [negb truthy_str]. rewrite Hb. cbn [bind pr_scheme].
  rewrite Hu.
  cbn [bind pr_scheme pr_netloc pr_path pr_params pr_query pr_fragment truthy_str
         negb andb orb].
  change (negb ("https" =? "https")%string || negb (in_list "https" uses_relative))
    with false.
  change (in_list "https" uses_netloc) with true. cbn [andb negb orb].
  change (startswith "/" (String "/" p)) with true. cbv iota.
  set (segments := split_on "/" (String "/" p)).
  set (resolved := if in_list (List.last segments "") ["."; ".."]
                   then (resolve_segments segments [] ++ [""])%list
                   else resolve_segments segments []).
  set (path := if truthy_str (join_with "/" resolved)
               then join_with "/" resolved else "/").
  assert (Hpath : exists c x, path = String c x).
  { subst path. destruct (join_with "/" resolved); simpl; eauto. }
  destruct Hpath as (c & x & Hpath). rewrite Hpath. clearbody path. clear Hpath.
  unfold urlunparse, urlunsplit.
  cbn [pr_scheme pr_netloc pr_path pr_params pr_query pr_fragment
         sr_scheme sr_netloc sr_path sr_query sr_fragment].
  rewrite Hhost. cbn [orb].
  set (url := if truthy_str params then String c x +:+ ";" +:+ params else String c x).
  assert (Hurl : exists y, (if truthy_str url && negb (startswith "/" url)
                            then "/" +:+ url else url) = String "/" y).
  { subst url. destruct (truthy_str params); cbn [String.append truthy_str andb];
      cbn [startswith]; rewrite andb_true_r;
      (destruct (is_char "/" c) eqn:Hc;
       [apply is_char_eq in Hc; subst c; cbn [negb]; eauto | cbn [negb]; eauto]). }
  destruct Hurl as [y ->]. clearbody url.
  cbn [truthy_str]. rewrite Hbeq.
  destruct (truthy_str query), (truthy_str fragment);
    rewrite ?append_assoc'; cbn [String.append]; eexists; reflexivity.
Qed.

Lemma startswith_inv (c : ascii) (pre s : string) :
  startswith (String c pre) s = true ->
  exists t, s = String c t /\ startswith pre t = true.
Proof.
  destruct s as [|x s]; simpl; [discriminate|].
  rewrite andb_true_iff. intros [Hc Hs]. apply is_char_eq in Hc. subst x. eauto.
Qed.

Lemma site_base_https (base rest : string) :
  base = autotrader_base \/ base = cars_base ->
  startswith "https://" (base +:+ rest) = true.
Proof. intros [-> | ->]; reflexivity. Qed.

Lemma abs_on_site (base h : string) :
  base = autotrader_base \/ base = cars_base ->
  truthy_str h = true -> forallb_string url_safe h = true ->
  exists u,
    _abs base (Some h) = Ok (Some u) /\
    startswith "http://" u || startswith "https://" u = true /\
    (startswith "//" (py_strip h) || startswith "http://" (py_strip h)
     || startswith "https://" (py_strip h) || startswith "www." (py_strip h)
     = false ->
     exists rest, u = base +:+ "/" +:+ rest).
Proof.
  intros Hbase Hh Hsafe. unfold _abs. rewrite Hh. cbn [negb].
  assert (Hs : forallb_string url_safe (py_strip h) = true)
    by (apply forallb_string_rstrip, forallb_string_lstrip, Hsafe).
  set (h' := py_strip h) in *. clearbody h'.
  destruct (startswith "//" h') eqn:H1.
  { apply startswith_inv in H1 as (t1 & -> & H1).
    apply startswith_inv in H1 as (t2 & -> & _).
    eexists. split; [reflexivity|]. split; [reflexivity | discriminate]. }
  destruct (startswith "http://" h') eqn:H2.
  { eexists. split; [reflexivity|]. rewrite H2. split; [reflexivity | discriminate]. }
  destruct (startswith "https://" h') eqn:H3.
  { eexists. split; [reflexivity|]. rewrite H3.
    split; [apply orb_true_r | discriminate]. }
  cbn [orb].
  destruct (startswith "www." h') eqn:H4.
  { eexists. split; [reflexivity|]. split; [reflexivity | discriminate]. }
  destruct (startswith "/" h') eqn:H5.
  - apply startswith_inv in H5 as (t & -> & _).
    assert (Hnot : startswith "/" t = false).
    { destruct t as [|c t]; [reflexivity|].
      cbn [startswith] in H1 |- *. change (is_char "/" "/") with true in H1.
      rewrite !andb_true_r in *. exact H1. }
    cbn [forallb_string] in Hs. apply andb_true_iff in Hs as [_ Hs].
    destruct (urljoin_site_rooted base t Hbase Hnot Hs) as [rest ->].
    cbn [bind]. eexists. split; [reflexivity|].
    split; [|eauto]. rewrite (site_base_https base _ Hbase). apply orb_true_r.
  - cbn [String.append].
    destruct (urljoin_site_rooted base h' Hbase H5 Hs) as [rest ->].
    cbn [bind]. eexists. split; [reflexivity|].
    split; [|eauto]. rewrite (site_base_https base _ Hbase). apply orb_true_r.
Qed.

(** X24: with the address of one of the two sites as base, [_abs] turns
    every link that is not empty, and has no tab, carriage return or line
    feed in it, into an address that starts with [http://] or [https://]; a
    link that is relative (none of the prefixes [//], [http://],
    [https://], [www.] after stripping) is placed under the site.  No
    link gives no address.  A tab inside a link is deleted by
    [urlsplit], which can turn a path into a host: the last part. *)
Theorem abs_gives_http_address (base : string) :
  base = autotrader_base \/ base = cars_base ->
  (forall h : string,
     truthy_str h = true -> forallb_string url_safe h = true ->
     exists u,
       _abs base (Some h) = Ok (Some u) /\
       startswith "http://" u || startswith "https://" u = true /\
       (startswith "//" (py_strip h) || startswith "http://" (py_strip h)
        || startswith "https://" (py_strip h) || startswith "www." (py_strip h)
        = false ->
        exists rest, u = base +:+ "/" +:+ rest)) /\
  _abs base None = Ok None /\ _abs base (Some EmptyString) = Ok None /\
  _abs cars_base (Some ("/" +:+ String tab "/evil.example/x"))
  = Ok (Some "https://evil.example/x").
Proof.
  intros Hbase. split; [|repeat split].
  intros h. apply abs_on_site, Hbase.
Qed.

(** ** Record coercion: errors and types *)

Lemma coerce_source (d : pydict) (source base : string) (r : Listing) :
  _coerce_listing d source base = Ok r -> l_source r = source.
Proof.
  unfold _coerce_listing. coerce_steps. intros [= <-]. reflexivity.
Qed.

(** X25: a coerced row carries the source it was given, and its year is
    never a string: a year that comes as a string is read with [_to_int],
    and replaced by the year found in the title when that gives nothing. *)
Theorem coerce_year_is_no_string (d : pydict) (source base : string) (r : Listing) :
  _coerce_listing d source base = Ok r ->
  l_source r = source /\ forall s, l_year r <> VStr s.
Proof.
  intros H. split; [exact (coerce_source _ _ _ _ H)|]. revert H.
  unfold _coerce_listing.
  set (title := py_or (dict_get "title" d) (dict_get "heading" d)).
  set (year1 := match dict_get "year" d with
                | VStr s => of_opt_int (_to_int (Some s))
                | _ => dict_get "year" d
                end).
  assert (Hy1 : forall s, year1 <> VStr s).
  { subst year1. destruct (dict_get "year" d) as [| | | |s0| |]; try discriminate.
    intros s. destruct (_to_int (Some s0)); discriminate. }
  clearbody year1.
  destruct (if negb (truthy year1) then _ else Ok year1) as [year2|] eqn:Ey;
    cbn [bind]; [|discriminate].
  assert (Hy2 : forall s, year2 <> VStr s).
  { destruct (negb (truthy year1)).
    - destruct (parse_year_from_text title) as [y|]; cbn [bind] in Ey; [|discriminate].
      injection Ey as <-. intros s. destruct y; discriminate.
    - injection Ey as <-. exact Hy1. }
  coerce_steps. intros [= <-]. exact Hy2.
Qed.

(** X26: [_coerce_listing] raises [TypeError] on a candidate that has no
    year and whose title (or heading, when there is no title) is a value
    that is truthy and not a string: the year is then searched in the
    title, with a pattern that only takes text. *)
Theorem coerce_fails_on_title_that_is_no_text (d : pydict) (source base : string) :
  truthy (dict_get "year" d) = false ->
  truthy (py_or (dict_get "title" d) (dict_get "heading" d)) = true ->
  (forall s, py_or (dict_get "title" d) (dict_get "heading" d) <> VStr s) ->
  _coerce_listing d source base = Raise TypeError.
Proof.
  intros Hyear Htitle Hns. unfold _coerce_listing.
  set (title := py_or (dict_get "title" d) (dict_get "heading" d)) in *.
  assert (Hy1 : truthy (match dict_get "year" d with
                        | VStr s => of_opt_int (_to_int (Some s))
                        | _ => dict_get "year" d
                        end) = false).
  { destruct (dict_get "year" d) as [| | | |s0| |]; try exact Hyear.
    destruct s0; [reflexivity | discriminate]. }
  rewrite Hy1. cbn [negb].
  assert (Hp : parse_year_from_text title = Raise TypeError).
  { unfold parse_year_from_text. rewrite Htitle. cbn [negb].
    destruct title as [| | | |s| |]; try reflexivity. destruct (Hns s eq_refl). }
  rewrite Hp. reflexivity.
Qed.

(** X27: with the address of one of the two sites as base,
    [_coerce_listing] returns on every candidate whose title is a string
    or falsy and whose link, when it is a string, has no tab, carriage
    return or line feed; the row then has an address that starts with
    [http://] or [https://] whenever the candidate had a link that is a
    string and not empty. *)
Theorem coerce_returns_with_http_address (d : pydict) (source base : string) :
  base = autotrader_base \/ base = cars_base ->
  let title := py_or (dict_get "title" d) (dict_get "heading" d) in
  let url := py_or (py_or (dict_get "url" d) (dict_get "vdpUrl" d))
               (dict_get "link" d) in
  (truthy title = false \/ exists s, title = VStr s) ->
  (forall s, url = VStr s -> forallb_string url_safe s = true) ->
  exists r,
    _coerce_listing d source base = Ok r /\
    (forall s, url = VStr s -> truthy_str s = true ->
       exists u, l_url r = VStr u /\
                 startswith "http://" u || startswith "https://" u = true) /\
    ((forall s, url <> VStr s) -> l_url r = url).
Proof.
  intros Hbase title url Htitle Hurl. unfold _coerce_listing.
  fold title. fold url.
  set (year1 := match dict_get "year" d with
                | VStr s => of_opt_int (_to_int (Some s))
                | _ => dict_get "year" d
                end).
  assert (Hy : exists y, parse_year_from_text title = Ok y).
  { destruct Htitle as [Hf | [s ->]].
    - unfold parse_year_from_text. rewrite Hf. eauto.
    - apply parsers_return_on_strings. }
  destruct Hy as [y Hy]. rewrite Hy. cbn [bind].
  assert (Hyear : exists year2,
            (if negb (truthy year1) then Ok (of_opt_int y) else Ok year1) = Ok year2)
    by (destruct (negb (truthy year1)); eauto).
  destruct Hyear as [year2 ->]. cbn [bind].
  set (price := py_or (py_or (dict_get "price" d) (dict_get "listPrice" d))
                  (dict_get "primaryPrice" d)).
  assert (Hprice : exists price2,
            match price with
            | VStr s => let* p := parse_price price in
                        Ok (of_opt_int (opt_or p (_to_int (Some s))))
            | _ => Ok price
            end = Ok price2).
  { destruct price as [| | | |s| |]; eauto.
    destruct (parsers_return_on_strings s) as ([p ->] & _). cbn [bind]. eauto. }
  destruct Hprice as [price2 ->]. cbn [bind].
  set (miles := py_or (dict_get "miles" d) (dict_get "mileage" d)).
  assert (Hmiles : exists miles2,
            match miles with
            | VStr s => let* m := parse_miles miles in
                        Ok (of_opt_int (opt_or m (_to_int (Some s))))
            | _ => Ok miles
            end = Ok miles2).
  { destruct miles as [| | | |s| |]; eauto.
    destruct (parsers_return_on_strings s) as (_ & [m ->] & _). cbn [bind]. eauto. }
  destruct Hmiles as [miles2 ->]. cbn [bind].
  destruct url as [| | | |s| |] eqn:Eu; cbn [bind];
    try (eexists; split; [reflexivity|]; split; [intros s; discriminate | reflexivity]).
  destruct (truthy_str s) eqn:Hs.
  - destruct (abs_on_site base s Hbase Hs (Hurl s eq_refl)) as (u & -> & Hu & _).
    cbn [bind]. eexists. split; [reflexivity|]. split.
    + intros s' [= <-] _. exists u. auto.
    + intros Hno. destruct (Hno s eq_refl).
  - cbn [bind]. eexists. split; [reflexivity|]. split.
    + intros s' [= <-] Ht. congruence.
    + intros Hno. destruct (Hno s eq_refl).
Qed.

End Links.


(** ** The scrapers: what they gather *)

Section Gathering.

Variable validator : string -> bool.
Variable candidates : string -> list pyval.

Abbreviation _coerce_listing := (_coerce_listing validator).
Abbreviation _normalize_url := (_normalize_url validator).
Abbreviation autotrader_card := (autotrader_card validator).
Abbreviation autotrader_dom_loop := (autotrader_dom_loop validator).
Abbreviation autotrader_dom_rows := (autotrader_dom_rows validator).
Abbreviation autotrader_json_inner := (autotrader_json_inner validator).
Abbreviation autotrader_json_outer := (autotrader_json_outer validator).
Abbreviation autotrader_gather := (autotrader_gather validator candidates).
Abbreviation autotrader_rows := (autotrader_rows validator candidates).
Abbreviation cars_card := (cars_card validator).
Abbreviation cars_dom_loop := (cars_dom_loop validator).
Abbreviation cars_json_inner := (cars_json_inner validator).
Abbreviation cars_json_outer := (cars_json_outer validator).
Abbreviation cars_page_step := (cars_page_step validator candidates).
Abbreviation cars_pages := (cars_pages validator candidates).
Abbreviation cars_rows := (cars_rows validator candidates).
Abbreviation query_listings_async := (query_listings_async validator).
Abbreviation before_sort := (before_sort validator).

Lemma autotrader_card_source (c : dom_node) (r : Listing) :
  autotrader_card c = Ok r -> l_source r = "Autotrader".
Proof.
  unfold autotrader_card. coerce_steps. intros [= <-]. reflexivity.
Qed.

Lemma length_snoc_Z {A} (l : list A) (x : A) :
  Z.of_nat (length (l ++ [x])) = Z.of_nat (length l) + 1.
Proof. rewrite length_app. simpl. lia. Qed.

Lemma autotrader_dom_loop_spec (k : Z) (cards : list dom_node) :
  forall rows : list Listing,
    Forall (fun r => l_source r = "Autotrader") rows ->
    Z.of_nat (length rows) < k ->
    Forall (fun r => l_source r = "Autotrader") (autotrader_dom_loop cards rows k) /\
    Z.of_nat (length (autotrader_dom_loop cards rows k)) <= k.
Proof.
  induction cards as [|c cards IH]; intros rows Htag Hlen; simpl.
  - split; [exact Htag | lia].
  - destruct (autotrader_card c) as [r|e] eqn:Hc; [|split; [exact Htag | lia]].
    assert (Htag' : Forall (fun r => l_source r = "Autotrader") (rows ++ [r])).
    { apply Forall_app. split; [exact Htag|]. constructor; [|constructor].
      eapply autotrader_card_source, Hc. }
    destruct (Z.of_nat (length (rows ++ [r])) >=? k) eqn:E; zbool.
    + split; [exact Htag'|]. rewrite length_snoc_Z in *. lia.
    + apply IH; assumption.
Qed.

Lemma autotrader_dom_rows_spec (k : Z) (cards : option (list dom_node)) :
  Forall (fun r => l_source r = "Autotrader") (autotrader_dom_rows cards k) /\
  Z.of_nat (length (autotrader_dom_rows cards k)) <= Z.max k 0.
Proof.
  unfold autotrader_dom_rows. destruct cards as [cs|]; [|split; [constructor | simpl; lia]].
  destruct (Z_lt_le_dec 0 k) as [Hk | Hk].
  - destruct (autotrader_dom_loop_spec k
                (take (Z.to_nat (Z.min (Z.of_nat (length cs)) (k * 5))) cs) [])
      as [Ht Hl]; [constructor | simpl; lia |].
    split; [exact Ht | lia].
  - replace (Z.to_nat (Z.min (Z.of_nat (length cs)) (k * 5))) with 0%nat by lia.
    simpl. split; [constructor | lia].
Qed.

Lemma autotrader_json_inner_spec (k : Z) (found : list pydict) :
  forall rows res : list Listing,
    autotrader_json_inner found rows k = Ok res ->
    Forall (fun r => l_source r = "Autotrader") rows ->
    Z.of_nat (length rows) < k ->
    Forall (fun r => l_source r = "Autotrader") res /\ Z.of_nat (length res) <= k.
Proof.
  induction found as [|c found IH]; intros rows res; simpl.
  - intros [= <-] Htag Hlen. split; [exact Htag | lia].
  - destruct (_coerce_listing c "Autotrader" autotrader_base) as [r|e] eqn:Hc;
      cbn [bind]; [|discriminate].
    intros H Htag Hlen.
    assert (Htag' : Forall (fun r => l_source r = "Autotrader") (rows ++ [r])).
    { apply Forall_app. split; [exact Htag|]. constructor; [|constructor].
      eapply coerce_source, Hc. }
    destruct (Z.of_nat (length (rows ++ [r])) >=? k) eqn:E; zbool.
    + injection H as <-. split; [exact Htag'|]. rewrite length_snoc_Z in *. lia.
    + apply (IH _ _ H); assumption.
Qed.

Lemma autotrader_json_outer_spec (k : Z) (objs : list pyval) :
  forall rows res : list Listing,
    autotrader_json_outer objs rows k = Ok res ->
    Forall (fun r => l_source r = "Autotrader") rows ->
    Z.of_nat (length rows) < k ->
    Forall (fun r => l_source r = "Autotrader") res /\ Z.of_nat (length res) <= k.
Proof.
  induction objs as [|obj objs IH]; intros rows res; simpl.
  - intros [= <-] Htag Hlen. split; [exact Htag | lia].
  - destruct (autotrader_json_inner (_walk_find_listings obj) rows k) as [rows'|e] eqn:Hi;
      cbn [bind]; [|discriminate].
    intros H Htag Hlen.
    destruct (autotrader_json_inner_spec _ _ _ _ Hi Htag Hlen) as [Htag' Hlen'].
    destruct (Z.of_nat (length rows') >=? k) eqn:E; zbool.
    + injection H as <-. auto.
    + apply (IH _ _ H); [assumption | lia].
Qed.

Lemma autotrader_gather_spec (cards : option (list dom_node)) (content : option string)
    (k : Z) (rows : list Listing) :
  autotrader_gather cards content k = Ok rows ->
  Forall (fun r => l_source r = "Autotrader") rows /\
  Z.of_nat (length rows) <= Z.max k 0.
Proof.
  unfold autotrader_gather.
  destruct (autotrader_dom_rows_spec k cards) as [Htag Hlen].
  destruct (Z.of_nat (length (autotrader_dom_rows cards k)) <? k) eqn:E; zbool.
  - destruct content as [html|]; [|discriminate]. intros H.
    destruct (autotrader_json_outer_spec _ _ _ _ H Htag E) as [Ht Hl].
    split; [exact Ht | lia].
  - intros [= <-]. auto.
Qed.

Lemma scraper_finish_rows (gathered rows : list Listing) (year k : Z) :
  scraper_finish validator (Ok gathered) year k = Ok rows ->
  (length rows <= length gathered)%nat /\
  Forall (fun o => exists r, In r gathered /\ py_eq_int (l_year o) year = true /\
                             l_source o = l_source r) rows.
Proof.
  unfold scraper_finish. cbn [bind]. intros H.
  pose proof (dedupe_loop_sublist validator _ _ _ _ _ H)
    as (kept & added & Heq & Hsub & Hall).
  simpl in Heq. subst added. split.
  - rewrite <- (Forall2_length _ _ _ Hall).
    etransitivity; [apply sublist_length, Hsub|].
    unfold _enforce_year. apply List.filter_length_le.
  - apply dedupe_and_trim_spec in H as [_ Hspec].
    eapply List.Forall_impl; [|exact Hspec].
    intros o (r & s & Hf & ->). apply first_with_url_in in Hf.
    unfold _enforce_year in Hf. apply filter_In in Hf as [Hin Hy].
    exists r. auto.
Qed.

(** X28: [scrape_autotrader], from the cards to the rows it returns.
    What it gathers before the year filter, from the cards and from the
    embedded JSON together, is at most [max_results] rows (none when
    [max_results] is below 1), each with the source ["Autotrader"]; when
    the cards alone give [max_results] rows the content of the page is not
    read at all; and the rows it returns are at most that many, of that
    source and of the target year. *)
Theorem autotrader_gathers_at_most_max_results (cards : option (list dom_node))
    (content : option string) (max_results : Z) :
  (forall rows : list Listing,
     autotrader_gather cards content max_results = Ok rows ->
     Forall (fun r => l_source r = "Autotrader") rows /\
     Z.of_nat (length rows) <= Z.max max_results 0) /\
  (max_results <= Z.of_nat (length (autotrader_dom_rows cards max_results)) ->
   autotrader_gather cards content max_results
   = Ok (autotrader_dom_rows cards max_results)) /\
  (forall (year : Z) (rows : list Listing),
     scrape_autotrader validator (autotrader_gather cards content max_results)
       year max_results = Ok rows ->
     Z.of_nat (length rows) <= Z.max max_results 0 /\
     Forall (fun r => l_source r = "Autotrader" /\ py_eq_int (l_year r) year = true)
       rows).
Proof.
  split; [intros rows; apply autotrader_gather_spec|]. split.
  - intros H. unfold autotrader_gather.
    destruct (Z.of_nat (length (autotrader_dom_rows cards max_results)) <? max_results)
      eqn:E; zbool; [lia | reflexivity].
  - intros year rows. unfold scrape_autotrader.
    destruct (autotrader_gather cards content max_results) as [gathered|e] eqn:Hg;
      [|discriminate].
    apply autotrader_gather_spec in Hg as [Htag Hlen]. intros H.
    apply scraper_finish_rows in H as [Hle Hall]. split; [lia|].
    eapply List.Forall_impl; [|exact Hall].
    intros o (r & Hin & Hy & Hs). rewrite List.Forall_forall in Htag.
    rewrite Hs. auto.
Qed.

Lemma normalize_truthy_string (v n : pyval) :
  truthy v = true -> _normalize_url v = Ok n ->
  exists u, v = VStr u /\ truthy_str u = true.
Proof.
  unfold _normalize_url. intros Ht. rewrite Ht. cbn [negb].
  destruct v as [| | | |u| |]; try discriminate. intros _. exists u. auto.
Qed.

Lemma cars_dom_loop_spec (k : Z) (cards : list dom_node) :
  forall (rows : list Listing) (seen : gset string),
    Forall cars_row_ok rows ->
    Z.of_nat (length rows) <= Z.max k 1 ->
    let '(rows', _, raised) := cars_dom_loop cards rows seen k in
    Forall cars_row_ok rows' /\
    (Z.of_nat (length rows') <= Z.max k 1 \/
     raised = false /\ Z.of_nat (length rows') <= Z.max k 1 + 1 /\
     k <= Z.of_nat (length rows')).
Proof.
  induction cards as [|c cards IH]; intros rows seen Hok Hlen; simpl.
  - auto.
  - destruct (cars_card c) as [[[[[title price_t] miles_t] year_v] norm]|e]; [|auto].
    destruct norm as [| | | |s| |]; try (apply IH; assumption).
    destruct (negb (truthy_str s) || bool_decide (s ∈ seen)) eqn:Hskip;
      [apply IH; assumption|].
    apply orb_false_iff in Hskip as [Hs _]. apply negb_false_iff in Hs.
    destruct (parse_price (str_or_empty price_t)) as [price|]; [|auto].
    destruct (parse_miles (str_or_empty miles_t)) as [miles|]; [|auto].
    set (r := mkListing "Cars.com" (of_opt_str title) price miles (of_opt_int year_v)
                VNone VNone (VStr s)).
    assert (Hok' : Forall cars_row_ok (rows ++ [r])).
    { apply Forall_app. split; [exact Hok|]. constructor; [|constructor].
      split; [reflexivity|]. exists s. auto. }
    destruct (Z.of_nat (length (rows ++ [r])) >=? k) eqn:E; zbool.
    + split; [exact Hok'|]. right. rewrite length_snoc_Z in *. repeat split; lia.
    + apply IH; [exact Hok'|]. lia.
Qed.

Lemma cars_json_inner_spec (k : Z) (found : list pydict) :
  forall (rows : list Listing) (seen : gset string) (res : list Listing)
         (seen' : gset string),
    cars_json_inner found rows seen k = Ok (res, seen') ->
    Forall cars_row_ok rows ->
    Z.of_nat (length rows) < Z.max k 1 ->
    Forall cars_row_ok res /\ Z.of_nat (length res) <= Z.max k 1.
Proof.
  induction found as [|c found IH]; intros rows seen res seen'; simpl.
  - intros [= <- <-] Hok Hlen. split; [exact Hok | lia].
  - destruct (_coerce_listing c "Cars.com" cars_base) as [r|e] eqn:Hc;
      cbn [bind]; [|discriminate].
    destruct (truthy (l_url r)) eqn:Hu; cbn [negb]; [|apply IH].
    destruct (_normalize_url (l_url r)) as [norm|e] eqn:Hn; cbn [bind]; [|discriminate].
    destruct norm as [| | | |s| |]; try apply IH.
    destruct (bool_decide (s ∈ seen)); [apply IH|].
    intros H Hok Hlen.
    assert (Hok' : Forall cars_row_ok (rows ++ [r])).
    { apply Forall_app. split; [exact Hok|]. constructor; [|constructor].
      split; [eapply coerce_source, Hc|].
      eapply normalize_truthy_string; eassumption. }
    destruct (Z.of_nat (length (rows ++ [r])) >=? k) eqn:E; zbool.
    + injection H as <- _. split; [exact Hok'|]. rewrite length_snoc_Z in *. lia.
    + apply (IH _ _ _ _ H); [exact Hok'|]. lia.
Qed.

Lemma cars_json_outer_spec (k : Z) (objs : list pyval) :
  forall (rows : list Listing) (seen : gset string) (res : list Listing)
         (seen' : gset string),
    cars_json_outer objs rows seen k = Ok (res, seen') ->
    Forall cars_row_ok rows ->
    Z.of_nat (length rows) < Z.max k 1 ->
    Forall cars_row_ok res /\ Z.of_nat (length res) <= Z.max k 1.
Proof.
  induction objs as [|obj objs IH]; intros rows seen res seen'; simpl.
  - intros [= <- <-] Hok Hlen. split; [exact Hok | lia].
  - destruct (cars_json_inner (_walk_find_listings obj) rows seen k)
      as [[rows1 seen1]|e] eqn:Hi; cbn [bind]; [|discriminate].
    intros H Hok Hlen.
    destruct (cars_json_inner_spec _ _ _ _ _ _ Hi Hok Hlen) as [Hok1 Hlen1].
    destruct (Z.of_nat (length rows1) >=? k) eqn:E; zbool.
    + injection H as <- _. auto.
    + apply (IH _ _ _ _ H); [exact Hok1 | lia].
Qed.

Lemma cars_page_step_spec (k : Z) (pg : cars_page) (page_no : Z)
    (rows : list Listing) (seen : gset string)
    (rows' : list Listing) (seen' : gset string) (ended : bool) :
  cars_page_step pg page_no rows seen k = Ok (rows', seen', ended) ->
  Forall cars_row_ok rows ->
  Z.of_nat (length rows) <= Z.max k 1 ->
  Forall cars_row_ok rows' /\
  Z.of_nat (length rows') <= Z.max k 1 + 1 /\
  (ended = false -> Z.of_nat (length rows') <= Z.max k 1).
Proof.
  unfold cars_page_step. intros H Hok Hlen.
  assert (Hbody :
    (if negb (cp_scrolls pg) then Raise BrowserError
     else
       let '(rows0, seen0, ended0) :=
         match cp_cards pg with
         | None => (rows, seen, false)
         | Some cards =>
             if (Z.of_nat (length cards) =? 0) && (page_no >? 1)
             then (rows, seen, true)
             else
               let '(rows0, seen0, raised) := cars_dom_loop cards rows seen k in
               (rows0, seen0, negb raised && (Z.of_nat (length rows0) >=? k))
         end in
       if ended0 then Ok (rows0, seen0, true)
       else if Z.of_nat (length rows0) =? 0 then
         match cp_content pg with
         | None => Raise BrowserError
         | Some html =>
             let* st := cars_json_outer (candidates html) rows0 seen0 k in
             Ok (st, false)
         end
       else Ok (rows0, seen0, false)) = Ok (rows', seen', ended)).
  { destruct (cp_goto pg); [exact H | exact H | discriminate]. }
  clear H.
  assert (Hdom : exists rows0 seen0 ended0,
            match cp_cards pg with
            | None => (rows, seen, false)
            | Some cards =>
                if (Z.of_nat (length cards) =? 0) && (page_no >? 1)
                then (rows, seen, true)
                else
                  let '(rows0, seen0, raised) := cars_dom_loop cards rows seen k in
                  (rows0, seen0, negb raised && (Z.of_nat (length rows0) >=? k))
            end = (rows0, seen0, ended0) /\
            Forall cars_row_ok rows0 /\
            Z.of_nat (length rows0) <= Z.max k 1 + 1 /\
            (ended0 = false -> Z.of_nat (length rows0) <= Z.max k 1)).
  { destruct (cp_cards pg) as [cards|].
    - destruct ((Z.of_nat (length cards) =? 0) && (page_no >? 1)).
      + exists rows, seen, true. repeat split; auto; lia.
      + pose proof (cars_dom_loop_spec k cards rows seen Hok Hlen) as Hd.
        destruct (cars_dom_loop cards rows seen k) as [[rows0 seen0] raised].
        destruct Hd as [Hok0 Hlen0]. eexists _, _, _. split; [reflexivity|].
        split; [exact Hok0|]. split; [lia|].
        intros He. destruct Hlen0 as [Hl | (-> & Hl & Hk)]; [exact Hl|].
        cbn [negb andb] in He. zbool. lia.
    - exists rows, seen, false. repeat split; auto; lia. }
  destruct Hdom as (rows0 & seen0 & ended0 & Hdom & Hok0 & Hlen0 & Hnot).
  rewrite Hdom in Hbody. clear Hdom.
  destruct (cp_scrolls pg); cbn [negb] in Hbody; [|discriminate].
  destruct ended0.
  - injection Hbody as <- <- <-. repeat split; auto; discriminate.
  - specialize (Hnot eq_refl).
    destruct (Z.of_nat (length rows0) =? 0) eqn:E; zbool.
    + destruct (cp_content pg) as [html|]; [|discriminate].
      destruct (cars_json_outer (candidates html) rows0 seen0 k) as [[rows1 seen1]|e]
        eqn:Hj; cbn [bind] in Hbody; [|discriminate].
      injection Hbody as <- <- <-.
      destruct (cars_json_outer_spec _ _ _ _ _ _ Hj Hok0 ltac:(lia)) as [Hok1 Hlen1].
      repeat split; auto. lia.
    + injection Hbody as <- <- <-. repeat split; auto.
Qed.

Lemma cars_pages_spec (k : Z) (pages : Z -> cars_page) (todo : nat) :
  forall (page_no : Z) (rows : list Listing) (seen : gset string) (res : list Listing),
    cars_pages todo pages page_no rows seen k = Ok res ->
    Forall cars_row_ok rows ->
    Z.of_nat (length rows) <= Z.max k 1 ->
    Forall cars_row_ok res /\ Z.of_nat (length res) <= Z.max k 1 + 1.
Proof.
  induction todo as [|todo IH]; intros page_no rows seen res; simpl.
  - intros [= <-] Hok Hlen. split; [exact Hok | lia].
  - destruct (cars_page_step (pages page_no) page_no rows seen k)
      as [[[rows1 seen1] ended]|e] eqn:Hs; cbn [bind]; [|discriminate].
    intros H Hok Hlen.
    destruct (cars_page_step_spec _ _ _ _ _ _ _ _ Hs Hok Hlen) as (Hok1 & Hlen1 & Hnot).
    destruct ended.
    + injection H as <-. auto.
    + apply (IH _ _ _ _ H); auto.
Qed.

(** X29: [scrape_cars], from the pages to the rows it returns.  What it
    gathers before the year filter, over all the pages it visits, is rows
    with the source ["Cars.com"], each with an address that is a string and
    not empty; there are at most [max_results + 1] of them (two when
    [max_results] is below 1): after the embedded JSON of one page filled
    the list, the cards of the next page add one row before the length is
    tested.  The rows it returns are at most [max_results] (one when
    [max_results] is below 1), of that source and of the target year. *)
Theorem cars_gathers_rows_with_address (pages : Z -> cars_page)
    (max_results max_pages : Z) :
  (forall rows : list Listing,
     cars_rows pages max_results max_pages = Ok rows ->
     Forall (fun r => l_source r = "Cars.com" /\
                      exists u, l_url r = VStr u /\ u <> EmptyString) rows /\
     Z.of_nat (length rows) <= Z.max max_results 1 + 1) /\
  (forall (year : Z) (rows : list Listing),
     scrape_cars validator (cars_rows pages max_results max_pages) year max_results
     = Ok rows ->
     Z.of_nat (length rows) <= Z.max max_results 1 /\
     Forall (fun r => l_source r = "Cars.com" /\ py_eq_int (l_year r) year = true)
       rows).
Proof.
  assert (Hgather : forall rows,
            cars_rows pages max_results max_pages = Ok rows ->
            Forall cars_row_ok rows /\
            Z.of_nat (length rows) <= Z.max max_results 1 + 1).
  { intros rows H. unfold cars_rows in H.
    apply cars_pages_spec in H; [exact H | constructor | simpl; lia]. }
  split.
  - intros rows H. apply Hgather in H as [Hok Hlen]. split; [|exact Hlen].
    eapply List.Forall_impl; [|exact Hok].
    intros r (Hs & u & Hu & Ht). split; [exact Hs|]. exists u. split; [exact Hu|].
    intros ->. discriminate.
  - intros year rows. unfold scrape_cars.
    destruct (cars_rows pages max_results max_pages) as [gathered|e];
      [|discriminate].
    destruct (Hgather gathered eq_refl) as [Hok _]. intros H. split.
    + unfold scraper_finish in H. cbn [bind] in H.
      apply (dedupe_loop_length validator _ _ _ _ _ H). simpl. lia.
    + apply scraper_finish_rows in H as [_ Hall].
      eapply List.Forall_impl; [|exact Hall].
      intros o (r & Hin & Hy & Hs). rewrite List.Forall_forall in Hok.
      rewrite Hs. split; [apply (Hok r Hin) | exact Hy].
Qed.

(** X30: from the pages to the output.  Whatever the two sites show, two
    listings of the output that have the same source never have the same
    address, and the source of every listing is one of the two sites. *)
Theorem scraped_output_has_one_listing_per_source_and_url (pg : at_page)
    (pages : Z -> cars_page) (year max_results scroll_rounds max_pages : Z)
    (fuel : nat) (enrich : bool) (site : string) (visit : nat -> vdp_page)
    (at_rows : result (list Listing)) :
  autotrader_rows pg max_results scroll_rounds fuel = Some at_rows ->
  let out :=
    query_listings_async year max_results enrich site at_rows
      (cars_rows pages max_results max_pages) visit in
  (forall (i j : nat) (A B : Listing),
     i <> j -> out !! i = Some A -> out !! j = Some B ->
     l_source A = l_source B -> l_url A <> l_url B) /\
  (forall A : Listing,
     In A out -> l_source A = "Autotrader" \/ l_source A = "Cars.com").
Proof.
  intros Hat out.
  assert (Htag_at : tagged "Autotrader" at_rows).
  { unfold autotrader_rows in Hat.
    destruct (ap_goto pg);
      try (destruct (_autotrader_deep_scroll (ap_rounds pg) scroll_rounds fuel)
             as [[n|e]|]; [| |discriminate]);
      injection Hat as <-; try exact I;
      (destruct (autotrader_gather (ap_cards pg) (ap_content pg) max_results)
         as [rows|e] eqn:Hg; [|exact I]);
      apply autotrader_gather_spec in Hg as [Hg _]; exact Hg. }
  assert (Htag_cars : tagged "Cars.com" (cars_rows pages max_results max_pages)).
  { destruct (cars_rows pages max_results max_pages) as [rows|e] eqn:Hc; [|exact I].
    unfold cars_rows in Hc.
    apply cars_pages_spec in Hc as [Hok _]; [|constructor | simpl; lia].
    simpl. eapply List.Forall_impl; [|exact Hok]. intros r [Hs _]. exact Hs. }
  subst out. rewrite query_unfold.
  fold (before_sort year max_results enrich site at_rows
          (cars_rows pages max_results max_pages) visit).
  split.
  - intros i j A B Hij Hi Hj Hsrc Hurl.
    assert (Hnd : NoDup (map row_id
              (sort_rows (List.filter (fun r => truthy (l_url r))
                 (before_sort year max_results enrich site at_rows
                    (cars_rows pages max_results max_pages) visit))))).
    { rewrite (Permutation_map row_id (sort_rows_perm _)).
      apply NoDup_map_filter, before_sort_nodup; assumption. }
    apply Hij. eapply NoDup_lookup; [exact Hnd| |].
    + rewrite list_lookup_fmap, Hi. reflexivity.
    + rewrite list_lookup_fmap, Hj. unfold row_id. simpl. congruence.
  - intros A HA. apply in_sort_rows, filter_In in HA as [HA _].
    apply before_sort_ids in HA as (o0 & Hin & Hid & _).
    injection Hid as Hs _. rewrite <- Hs. clear Hs.
    unfold merged in Hin. apply in_app_or in Hin as [Hin | Hin].
    + destruct (in_list site ["both"; "autotrader"]); [|contradiction].
      left. eapply scraper_finish_tagged; eassumption.
    + destruct (in_list site ["both"; "cars"]); [|contradiction].
      right. eapply scraper_finish_tagged; eassumption.
Qed.

End Gathering.

(** * Concrete runs of the further properties *)

Lemma parse_year_between_1900_and_2099_witness :
  parse_year_from_text (VStr "2015 Toyota Camry LE") = Ok (Some 2015) /\
  1900 <= 2015 <= 2099.
Proof.
  assert (H : parse_year_from_text (VStr "2015 Toyota Camry LE") = Ok (Some 2015))
    by (vm_compute; reflexivity).
  split; [exact H | exact (parse_year_between_1900_and_2099 _ _ H)].
Defined.

Lemma parsed_price_and_miles_not_negative_witness :
  parse_miles (VStr "45,213 miles") = Ok (Some 45213) /\ 0 <= 45213.
Proof.
  assert (H : parse_miles (VStr "45,213 miles") = Ok (Some 45213))
    by (vm_compute; reflexivity).
  split; [exact H|].
  exact (parsed_price_and_miles_not_negative _ _ (or_intror H)).
Defined.

Lemma to_int_reads_number_text_witness :
  _to_int (Some " 1,234 ") = Some 1234 /\ forallb_string number_char " 1,234 " = true.
Proof.
  assert (H : _to_int (Some " 1,234 ") = Some 1234) by (vm_compute; reflexivity).
  split; [exact H | exact (proj1 to_int_reads_number_text _ _ H)].
Defined.

Lemma price_cell_reads_back_witness :
  price_cell (Some 12500) = Ok "$12,500" /\
  parse_price (VStr "$12,500") = Ok (Some 12500).
Proof.
  assert (H : price_cell (Some 12500) = Ok "$12,500") by (vm_compute; reflexivity).
  split; [exact H | exact (price_cell_reads_back (Some 12500) "$12,500" H)].
Defined.

Lemma dedupe_returns_at_most_k_witness :
  _dedupe_and_trim lenient sample_rows 2
  = Ok [bare "a" (VStr "https://s.com/1"); bare "d" (VStr "https://s.com/2")] /\
  2 <= Z.max 2 1.
Proof.
  assert (H : _dedupe_and_trim lenient sample_rows 2
              = Ok [bare "a" (VStr "https://s.com/1"); bare "d" (VStr "https://s.com/2")])
    by (vm_compute; reflexivity).
  split; [exact H | exact (dedupe_returns_at_most_k lenient _ _ _ H)].
Defined.

Lemma dedupe_keeps_order_and_fields_witness :
  _dedupe_and_trim lenient sample_rows 2
  = Ok [bare "a" (VStr "https://s.com/1"); bare "d" (VStr "https://s.com/2")] /\
  exists kept,
    kept `sublist_of` sample_rows /\
    Forall2 (kept_as lenient) kept
      [bare "a" (VStr "https://s.com/1"); bare "d" (VStr "https://s.com/2")].
Proof.
  assert (H : _dedupe_and_trim lenient sample_rows 2
              = Ok [bare "a" (VStr "https://s.com/1"); bare "d" (VStr "https://s.com/2")])
    by (vm_compute; reflexivity).
  split; [exact H | exact (dedupe_keeps_order_and_fields lenient _ _ _ H)].
Defined.

Lemma dedupe_stops_at_k_witness :
  _dedupe_and_trim lenient sample_rows 2
  = Ok [bare "a" (VStr "https://s.com/1"); bare "d" (VStr "https://s.com/2")] /\
  _dedupe_and_trim lenient (sample_rows ++ [bare "f" (VStr "https://[s.com/4")]) 2
  = Ok [bare "a" (VStr "https://s.com/1"); bare "d" (VStr "https://s.com/2")] /\
  _dedupe_and_trim lenient (sample_rows ++ [bare "f" (VStr "https://[s.com/4")]) 8
  = Raise ValueError.
Proof.
  assert (H : _dedupe_and_trim lenient sample_rows 2
              = Ok [bare "a" (VStr "https://s.com/1"); bare "d" (VStr "https://s.com/2")])
    by (vm_compute; reflexivity).
  split; [exact H|]. split; [|vm_compute; reflexivity].
  apply (dedupe_stops_at_k lenient sample_rows [bare "f" (VStr "https://[s.com/4")] _ 2 H);
    [discriminate | simpl; lia].
Defined.

Lemma dedupe_keeps_every_url_below_k_witness :
  _dedupe_and_trim lenient sample_rows 8
  = Ok [bare "a" (VStr "https://s.com/1"); bare "d" (VStr "https://s.com/2");
        bare "e" (VStr "https://s.com/3")] /\
  exists o,
    In o [bare "a" (VStr "https://s.com/1"); bare "d" (VStr "https://s.com/2");
          bare "e" (VStr "https://s.com/3")] /\
    l_url o = VStr "https://s.com/1".
Proof.
  assert (H : _dedupe_and_trim lenient sample_rows 8
              = Ok [bare "a" (VStr "https://s.com/1"); bare "d" (VStr "https://s.com/2");
                    bare "e" (VStr "https://s.com/3")])
    by (vm_compute; reflexivity).
  split; [exact H|].
  apply (dedupe_keeps_every_url_below_k lenient sample_rows _ 8 H ltac:(simpl; lia)
           (bare "b" (VStr "https://s.com/1?x=2")) "https://s.com/1").
  - right. left. reflexivity.
  - vm_compute. reflexivity.
  - reflexivity.
Defined.

Lemma dedupe_raises_only_on_a_bad_url_witness :
  Forall (fun r => exists n, _normalize_url lenient (l_url r) = Ok n) sample_rows /\
  exists uniq, _dedupe_and_trim lenient sample_rows 2 = Ok uniq.
Proof.
  assert (H : Forall (fun r => exists n, _normalize_url lenient (l_url r) = Ok n)
                sample_rows)
    by (repeat apply List.Forall_cons; try apply List.Forall_nil;
        eexists; vm_compute; reflexivity).
  split; [exact H|].
  exact (proj2 (dedupe_raises_only_on_a_bad_url lenient sample_rows 2) H).
Defined.

Lemma normalised_equal_iff_same_scheme_host_path_witness :
  urlsplit lenient "https://site.com/vdp/123?src=ads#top" ""
  = Ok (mkSplit "https" "site.com" "/vdp/123" "src=ads" "top") /\
  urlsplit lenient "HTTPS://site.com/vdp/123?page=2" ""
  = Ok (mkSplit "https" "site.com" "/vdp/123" "page=2" "") /\
  _normalize_url lenient (VStr "https://site.com/vdp/123?src=ads#top")
  = _normalize_url lenient (VStr "HTTPS://site.com/vdp/123?page=2").
Proof.
  assert (H1 : urlsplit lenient "https://site.com/vdp/123?src=ads#top" ""
               = Ok (mkSplit "https" "site.com" "/vdp/123" "src=ads" "top"))
    by (vm_compute; reflexivity).
  assert (H2 : urlsplit lenient "HTTPS://site.com/vdp/123?page=2" ""
               = Ok (mkSplit "https" "site.com" "/vdp/123" "page=2" ""))
    by (vm_compute; reflexivity).
  split; [exact H1|]. split; [exact H2|].
  apply (proj1 (normalised_equal_iff_same_scheme_host_path lenient _ _ _ _ H1 H2
                  ltac:(discriminate) ltac:(discriminate))).
  repeat split.
Defined.

Lemma output_urls_are_normalised_witness :
  In (car "Cars.com" (Some 9200) None "https://www.cars.com/vehicledetail/3/")
    sample_output /\
  exists s,
    l_url (car "Cars.com" (Some 9200) None "https://www.cars.com/vehicledetail/3/")
    = VStr s /\
    s <> EmptyString /\ has_char "?" s = false /\ has_char "#" s = false.
Proof.
  assert (Hin : In (car "Cars.com" (Some 9200) None
                      "https://www.cars.com/vehicledetail/3/") sample_output)
    by (rewrite sample_output_rows; right; left; reflexivity).
  split; [exact Hin|].
  exact (output_urls_are_normalised lenient 2015 8 false "both"
           (Ok at_gathered) (Ok cars_gathered) (fun _ => idle_page) _ Hin).
Defined.

Lemma enrichment_keeps_every_listing_witness :
  2015 <> 0 /\
  Permutation
    (map row_id
       (query_listings_async lenient 2015 8 true "both" (Ok at_gathered)
          (Ok cars_gathered) (fun _ => page_showing "30,000 miles" "" false)))
    (map row_id
       (query_listings_async lenient 2015 8 false "both" (Ok at_gathered)
          (Ok cars_gathered) (fun _ => page_showing "30,000 miles" "" false))).
Proof.
  assert (H : 2015 <> 0) by discriminate.
  split; [exact H|].
  exact (enrichment_keeps_every_listing lenient 2015 8 "both" (Ok at_gathered)
           (Ok cars_gathered) (fun _ => page_showing "30,000 miles" "" false) H).
Defined.

Lemma enrichment_visits_incomplete_rows_only_witness :
  query_listings_async lenient 2015 8 true "autotrader" (Ok at_gathered)
    (Ok cars_gathered) (fun _ => page_showing "$1" "" false)
  = query_listings_async lenient 2015 8 true "autotrader" (Ok at_gathered)
      (Ok cars_gathered) (fun _ => idle_page).
Proof.
  apply enrichment_visits_incomplete_rows_only.
  intros i r Hr Hc.
  assert (Hall : Forall (fun r => complete r = true)
                   (merged lenient 2015 8 "autotrader" (Ok at_gathered)
                      (Ok cars_gathered)))
    by (vm_compute; repeat constructor).
  rewrite List.Forall_forall in Hall.
  apply list_elem_of_lookup_2, list_elem_of_In in Hr.
  rewrite (Hall r Hr) in Hc. discriminate.
Defined.

Lemma enrich_changes_row_only_after_page_read_witness :
  fst (enrich_vdp (page_showing "$9,000" "" false) (camry_row None (Some 30000)))
  <> camry_row None (Some 30000) /\
  pg_opens (page_showing "$9,000" "" false) = true.
Proof.
  assert (H : fst (enrich_vdp (page_showing "$9,000" "" false)
                     (camry_row None (Some 30000)))
              <> camry_row None (Some 30000))
    by (vm_compute; discriminate).
  split; [exact H|].
  exact (proj1 (proj2 (enrich_changes_row_only_after_page_read _ _ H))).
Defined.

Lemma deep_scroll_ends_on_a_stable_page_witness :
  _autotrader_deep_scroll still_page 12 20 = Some (Ok 13%nat) /\
  12 + 1 <= Z.of_nat 13 /\
  round_count (still_page 0%nat) = round_count (still_page (13 - 1)%nat).
Proof.
  assert (H : _autotrader_deep_scroll still_page 12 20 = Some (Ok 13%nat))
    by (vm_compute; reflexivity).
  split; [exact H|].
  destruct (deep_scroll_ends_on_a_stable_page still_page 12 20 13 H ltac:(lia))
    as [Hn Hsame].
  split; [exact Hn | apply Hsame; lia].
Defined.

Lemma deep_scroll_returns_when_count_settles_witness :
  exists n : nat,
    (n <= 0 + 1 + Z.to_nat 12)%nat /\
    forall fuel : nat,
      (0 + 1 + Z.to_nat 12 <= fuel)%nat ->
      _autotrader_deep_scroll still_page 12 fuel = Some (Ok n).
Proof.
  apply (proj1 (deep_scroll_returns_when_count_settles still_page 12 1 0
                  (fun _ => eq_refl) (fun _ _ => eq_refl))).
Defined.

Lemma deep_scroll_runs_on_while_count_changes_witness :
  _autotrader_deep_scroll growing_page 12 1000 = None.
Proof.
  apply (deep_scroll_runs_on_while_count_changes growing_page 12).
  - intros j. reflexivity.
  - intros j. unfold growing_page, round_count. cbn [rd_count]. lia.
  - lia.
Defined.

Lemma abs_gives_http_address_witness :
  exists u,
    _abs lenient cars_base (Some " vehicledetail/1 ") = Ok (Some u) /\
    startswith "http://" u || startswith "https://" u = true /\
    (startswith "//" (py_strip " vehicledetail/1 ")
     || startswith "http://" (py_strip " vehicledetail/1 ")
     || startswith "https://" (py_strip " vehicledetail/1 ")
     || startswith "www." (py_strip " vehicledetail/1 ") = false ->
     exists rest, u = cars_base +:+ "/" +:+ rest).
Proof.
  apply (proj1 (abs_gives_http_address lenient cars_base (or_intror eq_refl)));
    reflexivity.
Defined.

Lemma coerce_year_is_no_string_witness :
  _coerce_listing lenient
    [("listPrice", VStr "$9,000"); ("mileage", VStr "30,000 miles");
     ("year", VStr "2015"); ("url", VStr "/vdp/1")] "Cars.com" cars_base
  = Ok (mkListing "Cars.com" VNone (Some 9000) (Some 30000) (VInt 2015) VNone VNone
          (VStr "https://www.cars.com/vdp/1")) /\
  forall s, VInt 2015 <> VStr s.
Proof.
  assert (H : _coerce_listing lenient
                [("listPrice", VStr "$9,000"); ("mileage", VStr "30,000 miles");
                 ("year", VStr "2015"); ("url", VStr "/vdp/1")] "Cars.com" cars_base
              = Ok (mkListing "Cars.com" VNone (Some 9000) (Some 30000) (VInt 2015)
                      VNone VNone (VStr "https://www.cars.com/vdp/1")))
    by (vm_compute; reflexivity).
  split; [exact H | exact (proj2 (coerce_year_is_no_string lenient _ _ _ _ H))].
Defined.

Lemma coerce_fails_on_title_that_is_no_text_witness :
  _coerce_listing lenient
    [("title", VInt 7); ("price", VInt 9000); ("url", VStr "/vdp/1")]
    "Autotrader" autotrader_base
  = Raise TypeError.
Proof.
  apply coerce_fails_on_title_that_is_no_text;
    [reflexivity | reflexivity | intros s; discriminate].
Defined.

Lemma coerce_returns_with_http_address_witness :
  exists r,
    _coerce_listing lenient
      [("heading", VStr "2015 Toyota Camry LE"); ("vdpUrl", VStr "vdp/1?src=json")]
      "Autotrader" autotrader_base
    = Ok r /\
    exists u, l_url r = VStr u /\
              startswith "http://" u || startswith "https://" u = true.
Proof.
  destruct (coerce_returns_with_http_address lenient
              [("heading", VStr "2015 Toyota Camry LE"); ("vdpUrl", VStr "vdp/1?src=json")]
              "Autotrader" autotrader_base (or_introl eq_refl)
              (or_intror (ex_intro _ "2015 Toyota Camry LE" eq_refl))
              ltac:(intros s [= <-]; reflexivity))
    as (r & Hr & Hu & _).
  exists r. split; [exact Hr|]. apply (Hu "vdp/1?src=json"); reflexivity.
Defined.

Lemma autotrader_gathers_at_most_max_results_witness :
  autotrader_gather lenient no_candidates (Some [camry_card; camry_card]) None 1
  = Ok [mkListing "Autotrader" (VStr "2015 Toyota Camry LE") (Some 9000) (Some 30000)
          (VInt 2015) VNone VNone
          (VStr "https://www.autotrader.com/vehicledetail/1?src=results")] /\
  Z.of_nat 1 <= Z.max 1 0.
Proof.
  assert (H : autotrader_gather lenient no_candidates (Some [camry_card; camry_card])
                None 1
              = Ok [mkListing "Autotrader" (VStr "2015 Toyota Camry LE") (Some 9000)
                      (Some 30000) (VInt 2015) VNone VNone
                      (VStr "https://www.autotrader.com/vehicledetail/1?src=results")])
    by (vm_compute; reflexivity).
  split; [exact H|].
  exact (proj2 (proj1 (autotrader_gathers_at_most_max_results lenient no_candidates
                         (Some [camry_card; camry_card]) None 1) _ H)).
Defined.

Lemma cars_gathers_rows_with_address_witness :
  cars_rows lenient no_candidates sample_cars_pages 8 2
  = Ok [mkListing "Cars.com" (VStr "2015 Toyota Camry LE") (Some 9000) (Some 30000)
          (VInt 2015) VNone VNone (VStr "https://www.cars.com/vehicledetail/1")] /\
  Z.of_nat 1 <= Z.max 8 1 + 1.
Proof.
  assert (H : cars_rows lenient no_candidates sample_cars_pages 8 2
              = Ok [mkListing "Cars.com" (VStr "2015 Toyota Camry LE") (Some 9000)
                      (Some 30000) (VInt 2015) VNone VNone
                      (VStr "https://www.cars.com/vehicledetail/1")])
    by (vm_compute; reflexivity).
  split; [exact H|].
  exact (proj2 (proj1 (cars_gathers_rows_with_address lenient no_candidates
                         sample_cars_pages 8 2) _ H)).
Defined.

Lemma scraped_output_has_one_listing_per_source_and_url_witness :
  autotrader_rows lenient no_candidates sample_at_page 8 12 20
  = Some (Ok [mkListing "Autotrader" (VStr "2015 Toyota Camry LE") (Some 9000)
                (Some 30000) (VInt 2015) VNone VNone
                (VStr "https://www.autotrader.com/vehicledetail/1?src=results")]) /\
  In (mkListing "Cars.com" (VStr "2015 Toyota Camry LE") (Some 9000) (Some 30000)
        (VInt 2015) VNone VNone (VStr "https://www.cars.com/vehicledetail/1"))
    (query_listings_async lenient 2015 8 false "both"
       (Ok [mkListing "Autotrader" (VStr "2015 Toyota Camry LE") (Some 9000)
              (Some 30000) (VInt 2015) VNone VNone
              (VStr "https://www.autotrader.com/vehicledetail/1?src=results")])
       (cars_rows lenient no_candidates sample_cars_pages 8 2) (fun _ => idle_page)) /\
  ("Cars.com" = "Autotrader" \/ "Cars.com" = "Cars.com").
Proof.
  assert (H : autotrader_rows lenient no_candidates sample_at_page 8 12 20
              = Some (Ok [mkListing "Autotrader" (VStr "2015 Toyota Camry LE")
                            (Some 9000) (Some 30000) (VInt 2015) VNone VNone
                            (VStr "https://www.autotrader.com/vehicledetail/1?src=results")]))
    by (vm_compute; reflexivity).
  assert (Hin :
    In (mkListing "Cars.com" (VStr "2015 Toyota Camry LE") (Some 9000) (Some 30000)
          (VInt 2015) VNone VNone (VStr "https://www.cars.com/vehicledetail/1"))
      (query_listings_async lenient 2015 8 false "both"
         (Ok [mkListing "Autotrader" (VStr "2015 Toyota Camry LE") (Some 9000)
                (Some 30000) (VInt 2015) VNone VNone
                (VStr "https://www.autotrader.com/vehicledetail/1?src=results")])
         (cars_rows lenient no_candidates sample_cars_pages 8 2) (fun _ => idle_page)))
    by (vm_compute; tauto).
  split; [exact H|]. split; [exact Hin|].
  exact (proj2 (scraped_output_has_one_listing_per_source_and_url lenient no_candidates
                  sample_at_page sample_cars_pages 2015 8 12 2 20 false "both"
                  (fun _ => idle_page) _ H) _ Hin).
Defined.
